(** * storycontentbot: the video compositing and caption-timing core

    A shallow embedding of the parts of [FFmpegVideoProcessor]
    (src/main.py) that decide caption timing, the overlay card's reading
    time, the 9:16 centre crop, the slide animation curve, and the
    error/cleanup behaviour of the render driver.

    Conventions of the embedding.
    - Python [int] is [Z].  A Python [float] is the rational that the
      double holds, in [Q]; infinities and NaN are left out.  Where the
      code truncates a product or a quotient of floats to an [int] (the
      caption times, the time-rescale) the rounding of binary64 is
      modelled: [fmul], [fdiv] and [round64].  The reading time, the crop
      and the card are computed with exact arithmetic; the overlay
      expression that ffmpeg evaluates (it uses [exp] and [sin]) is a
      function on [R].
    - [int(x)] on a float truncates toward zero: [int_of_float].
      [a // b] on ints is floor division: [Z.div].
    - Python [str] is [string], one character a byte (the code points
      up to 255); [split], [strip] and [upper] are given for these
      characters.
    - A [dict] is a [gmap]; the file system is a [gmap] from paths to
      contents.
    - [try/except] is modelled with an explicit [outcome] type; [print]
      appends to a log that is threaded through the driver.  The log keeps
      the lines the definitions name; progress lines that format floats
      and traceback dumps are left out. *)

From Stdlib Require Import ZArith QArith Qminmax Qround Qabs Qpower Lqa.
From Stdlib Require Import Reals Lra Lia List String Ascii.
From Stdlib Require Import DecimalString Decimal.
From stdpp Require Import gmap strings.
Import ListNotations.

Open Scope Z_scope.

(** ** Python primitives *)

Module Py.

(** [int(x)] for a float [x]: truncation toward zero. *)
Definition int_of_float (x : Q) : Z := Z.quot (Qnum x) (Zpos (Qden x)).

(** [a > b] on floats. *)
Definition gt (a b : Q) : bool := negb (Qle_bool a b).

(** [max(a, b)]: the first argument unless the second is larger. *)
Definition max (a b : Q) : Q := if gt b a then b else a.

(** [min(a, b)]: the first argument unless the second is smaller. *)
Definition min (a b : Q) : Q := if gt a b then b else a.

(** *** binary64

    A float is given by a rational, read as Python reads a literal: the
    double nearest to it.  On a double, [round64] does nothing. *)

(** [floor (log2 x)] for a positive rational. *)
Definition ilog2 (x : Q) : Z :=
  let k := Z.log2 (Qnum x) - Z.log2 (Zpos (Qden x)) in
  if Qle_bool (2 ^ k) x then k else k - 1.

(** The nearest integer, the even one of two that are as near. *)
Definition round_half_even (y : Q) : Z :=
  let f := Qfloor y in
  match (y - inject_Z f ?= 1 # 2)%Q with
  | Lt => f
  | Gt => f + 1
  | Eq => if Z.even f then f else f + 1
  end.

(** The double nearest to a positive rational: a multiple of the unit in
    the last place, which is [2 ^ (e - 52)] for a number from [2 ^ e] on
    and [2 ^ -1074] at least.  Numbers from [2 ^ 1024] on, which Python
    turns into an infinity, are outside the model. *)
Definition round64_pos (x : Q) : Q :=
  let ulp := (2 ^ Z.max (ilog2 x - 52) (-1074))%Q in
  (inject_Z (round_half_even (x / ulp)) * ulp)%Q.

Definition round64 (x : Q) : Q :=
  match Qnum x with
  | Z0 => 0%Q
  | Zpos _ => Qred (round64_pos x)
  | Zneg _ => Qred (- round64_pos (- x))
  end.

(** [a * b] and [a / b] on floats (for [b] that is not zero); an [int]
    operand is converted first, which [round64] does as well. *)
Definition fmul (a b : Q) : Q := round64 (round64 a * round64 b).

Definition fdiv (a b : Q) : Q := round64 (round64 a / round64 b).

(** [sys.float_info.epsilon]. *)
Definition machine_epsilon : Q := (2 ^ (-52))%Q.

(** [c.isspace()] for a one-byte character: the ASCII separators
    (tab .. carriage return, FS .. US, space) and U+0085, U+00A0. *)
Definition isspace (c : ascii) : bool :=
  let n := nat_of_ascii c in
  ((9 <=? n) && (n <=? 13) || (28 <=? n) && (n <=? 32)
   || (n =? 133) || (n =? 160))%nat.

Definition is_empty (s : string) : bool :=
  match s with EmptyString => true | _ => false end.

(** [s.split()]: maximal runs of non-space characters, in order.  [cur]
    is the run being read. *)
Fixpoint split_from (cur : string) (s : string) : list string :=
  match s with
  | EmptyString => if is_empty cur then [] else [cur]
  | String c rest =>
      if isspace c
      then (if is_empty cur then split_from EmptyString rest
            else cur :: split_from EmptyString rest)
      else split_from (cur +:+ String c EmptyString) rest
  end.

Definition split (s : string) : list string := split_from EmptyString s.

(** A word: not empty, and without a separator. *)
Definition wordlike (w : string) : Prop :=
  w <> EmptyString
  /\ forall c, In c (list_ascii_of_string w) -> isspace c = false.

(** [s.lstrip()], [s.rstrip()], [s.strip()]. *)
Fixpoint lstrip (s : string) : string :=
  match s with
  | String c rest => if isspace c then lstrip rest else s
  | EmptyString => EmptyString
  end.

Fixpoint rstrip (s : string) : string :=
  match s with
  | EmptyString => EmptyString
  | String c rest =>
      let rest' := rstrip rest in
      if isspace c && is_empty rest' then EmptyString else String c rest'
  end.

Definition strip (s : string) : string := rstrip (lstrip s).

(** [c.upper()] for a one-byte character: the small letters of ASCII
    and of Latin-1 (224 to 246 and 248 to 254) go 32 places down, and
    the sharp s (223) becomes two letters.  The capitals of the micro
    sign (181) and of the y with diaeresis (255) are outside the one-byte
    range: these two characters are kept here, and [upper_exact] tells
    that a string has neither, so that [upper] is Python's on it. *)
Definition upper_char (c : ascii) : string :=
  let n := nat_of_ascii c in
  if ((97 <=? n) && (n <=? 122) || (224 <=? n) && (n <=? 246)
      || (248 <=? n) && (n <=? 254))%nat
  then String (ascii_of_nat (n - 32)) EmptyString
  else if (n =? 223)%nat then "SS"
  else String c EmptyString.

Fixpoint upper (s : string) : string :=
  match s with
  | EmptyString => EmptyString
  | String c rest => upper_char c +:+ upper rest
  end.

Definition upper_exact (s : string) : bool :=
  forallb (fun c => let n := nat_of_ascii c in
                    negb ((n =? 181) || (n =? 255))%nat)
          (list_ascii_of_string s).

(** [sep.join(parts)]. *)
Fixpoint join (sep : string) (parts : list string) : string :=
  match parts with
  | [] => EmptyString
  | [p] => p
  | p :: ps => p +:+ sep +:+ join sep ps
  end.

(** [s.endswith(suffix)]. *)
Definition endswith (s suffix : string) : bool :=
  let n := String.length s in
  let k := String.length suffix in
  ((k <=? n)%nat && String.eqb (substring (n - k) k s) suffix).

(** [s.replace(old, new)] for a non-empty [old]: every occurrence,
    scanning left to right without overlap.  [fuel] bounds the scan by
    the length of [s]. *)
Fixpoint replace_fuel (fuel : nat) (old new s : string) : string :=
  match fuel with
  | O => s
  | S fuel' =>
      match s with
      | EmptyString => EmptyString
      | String c rest =>
          if String.prefix old s
          then new +:+ replace_fuel fuel' old new
                         (substring (String.length old)
                            (String.length s - String.length old) s)
          else String c (replace_fuel fuel' old new rest)
      end
  end.

Definition replace (s old new : string) : string :=
  replace_fuel (String.length s) old new s.

(** [s[-1]], when there is one. *)
Fixpoint last_char (s : string) : option ascii :=
  match s with
  | EmptyString => None
  | String c EmptyString => Some c
  | String _ rest => last_char rest
  end.

(** [str(n)] for a non-negative int. *)
Definition str_of_nat (n : nat) : string :=
  NilEmpty.string_of_uint (Nat.to_uint n).

(** The exceptions.  A [ZeroDivisionError] carries its message, which
    tells a division of ints from one of floats.  An [ffmpeg.Error]
    keeps the output of the encoder and nothing else (the class has no
    [cmd] attribute); [stderr] is that output as
    [decode('utf-8', errors='ignore')] gives it. *)
Inductive exn : Type :=
| ZeroDivisionError (msg : string)
| AttributeError
| IOError (msg : string)
| FfmpegError (stderr : string)
| OtherError (msg : string).

(** The result of a block that may raise: the value, or the exception. *)
Inductive outcome (A : Type) : Type :=
| Done (a : A)
| Raised (e : exn).
Arguments Done {A} a.
Arguments Raised {A} e.

(** The values a [dict] from the content collaborator holds. *)
Inductive value : Type :=
| VStr (s : string)
| VInt (n : Z).

End Py.

(** ** Step 3 of [create_video_ffmpeg]: the 9:16 centre crop *)

Module Crop.

(** The arguments of ffmpeg's [crop] filter: width, height, x, y. *)
Record crop_filter : Type :=
  { out_w : Z; out_h : Z; crop_x : Z; crop_y : Z }.

Definition target_ratio : Q := 9 # 16.

(** Lines 1848-1860.  [width / height] raises [ZeroDivisionError] when
    [height] is zero. *)
Definition crop_for (width height : Z) : Py.outcome crop_filter :=
  if height =? 0 then Py.Raised (Py.ZeroDivisionError "division by zero")
  else
    let current_ratio := (inject_Z width / inject_Z height)%Q in
    if Py.gt current_ratio target_ratio
    then
      let new_width := Py.int_of_float (inject_Z height * target_ratio)%Q in
      let x := (width - new_width) / 2 in
      Py.Done {| out_w := new_width; out_h := height;
                 crop_x := x; crop_y := 0 |}
    else
      let new_height := Py.int_of_float (inject_Z width / target_ratio)%Q in
      let y := (height - new_height) / 2 in
      Py.Done {| out_w := width; out_h := new_height;
                 crop_x := 0; crop_y := y |}.

(** The margins the crop leaves on the four sides of the source. *)
Definition left_margin (c : crop_filter) : Z := crop_x c.
Definition right_margin (width : Z) (c : crop_filter) : Z :=
  width - crop_x c - out_w c.
Definition top_margin (c : crop_filter) : Z := crop_y c.
Definition bottom_margin (height : Z) (c : crop_filter) : Z :=
  height - crop_y c - out_h c.

End Crop.

(** ** Caption tracks *)

Module Captions.

(** One entry of [segment["words"]]: times in seconds (floats). *)
Record word_info : Type :=
  { word : string; start : Q; end_ : Q }.

(** A Whisper segment; the ["words"] key may be absent. *)
Record segment : Type := { words : option (list word_info) }.

Definition whisper_result : Type := list segment.

(** [pysubs2.SSAEvent]: times in whole milliseconds. *)
Record SSAEvent : Type :=
  { ev_start : Z; ev_end : Z; ev_text : string }.

(** The words of a result in the order the two nested loops visit them. *)
Definition words_of (r : whisper_result) : list word_info :=
  flat_map (fun seg => match words seg with
                       | Some ws => ws
                       | None => []
                       end) r.

(** *** Single-word policy (lines 2196-2219) *)

Definition anim_duration : nat := 200.

Definition animation : string :=
  "{\t(0," +:+ Py.str_of_nat anim_duration +:+ ",2,\fscx100\fscy100)}".

Definition single_word_event (word_info : word_info) : SSAEvent :=
  let start_time := Py.fmul (start word_info) 1000 in
  let end_time := Py.fmul (end_ word_info) 1000 in
  let word_text := Py.upper (Py.strip (word word_info)) in
  let text_with_anim := "{\fscx92\fscy92}" +:+ animation +:+ word_text in
  {| ev_start := Py.int_of_float start_time;
     ev_end := Py.int_of_float end_time;
     ev_text := text_with_anim |}.

Definition single_word_events (r : whisper_result) : list SSAEvent :=
  flat_map (fun seg => match words seg with
                       | Some ws => map single_word_event ws
                       | None => []
                       end) r.

(** *** Three-word grouped policy (lines 2254-2329) *)

(** An entry of [all_words]: text stripped and uppercased, times in
    milliseconds (floats). *)
Record timed_word : Type :=
  { text : string; start_ms : Q; end_ms : Q }.

Definition timed_word_of (word_info : word_info) : timed_word :=
  {| text := Py.upper (Py.strip (word word_info));
     start_ms := Py.fmul (start word_info) 1000;
     end_ms := Py.fmul (end_ word_info) 1000 |}.

Definition all_words (r : whisper_result) : list timed_word :=
  map timed_word_of (words_of r).

(** [range(i, stop, step)]; [fuel] bounds the number of elements. *)
Fixpoint range_from (fuel i stop step : nat) : list nat :=
  match fuel with
  | O => []
  | S fuel' =>
      if (i <? stop)%nat then i :: range_from fuel' (i + step) stop step
      else []
  end.

Definition range (i stop step : nat) : list nat :=
  range_from stop i stop step.

(** [all_words[i:i+3]]. *)
Definition slice3 (ws : list timed_word) (i : nat) : list timed_word :=
  firstn 3 (skipn i ws).

Definition empty_word : timed_word :=
  {| text := EmptyString; start_ms := 0; end_ms := 0 |}.

(** The [while len(group) < 3] loop: each placeholder takes the end of
    the entry before it for both of its times. *)
Fixpoint pad (fuel : nat) (group : list timed_word) : list timed_word :=
  match fuel with
  | O => group
  | S fuel' =>
      if (List.length group <? 3)%nat
      then
        let e := end_ms (List.last group empty_word) in
        pad fuel' (group ++ [{| text := EmptyString;
                                start_ms := e; end_ms := e |}])
      else group
  end.

Definition highlighted (w : string) : string :=
  "{\c&H00FFFF&\3c&H000000&}" +:+ w.

Definition neutral (w : string) : string :=
  "{\c&HFFFFFF&\3c&H000000&}" +:+ w.

(** [enumerate(l)]. *)
Definition enumerate {A : Type} (l : list A) : list (nat * A) :=
  combine (seq 0 (List.length l)) l.

(** The group's line with the word at [word_idx] highlighted. *)
Definition subtitle_text (group : list timed_word) (word_idx : nat)
  : string :=
  let subtitle_parts :=
    flat_map (fun '(idx, g_word) =>
                if Py.is_empty (text g_word) then []
                else if (idx =? word_idx)%nat
                     then [highlighted (text g_word)]
                     else [neutral (text g_word)])
             (enumerate group) in
  Py.join " " subtitle_parts.

(** The events of one padded group (the inner [for word_idx, word]). *)
Definition group_events (group : list timed_word) : list SSAEvent :=
  let group_end := end_ms (List.last group empty_word) in
  flat_map (fun '(word_idx, word) =>
              if Py.is_empty (text word) then []
              else
                let highlight_start := start_ms word in
                let next := nth (word_idx + 1) group empty_word in
                let highlight_end :=
                  if (word_idx <? List.length group - 1)%nat
                     && negb (Py.is_empty (text next))
                  then start_ms next
                  else group_end in
                [{| ev_start := Py.int_of_float highlight_start;
                    ev_end := Py.int_of_float highlight_end;
                    ev_text := subtitle_text group word_idx |}])
           (enumerate group).

(** The groups the outer loop visits, before padding. *)
Definition groups (ws : list timed_word) : list (list timed_word) :=
  map (slice3 ws) (range 0 (List.length ws) 3).

Definition three_word_events_of (ws : list timed_word) : list SSAEvent :=
  flat_map (fun group =>
              match group with
              | [] => []
              | _ => group_events (pad 3 group)
              end)
           (groups ws).

Definition three_word_events (r : whisper_result) : list SSAEvent :=
  three_word_events_of (all_words r).

(** The same groups read off the list itself: three words at a time, the
    rest (one or two words) last. *)
Fixpoint chunks3 (ws : list timed_word) : list (list timed_word) :=
  match ws with
  | [] => []
  | a :: b :: c :: rest => [a; b; c] :: chunks3 rest
  | short => [short]
  end.

(** One turn of the outer loop. *)
Definition group_step (group : list timed_word) : list SSAEvent :=
  match group with
  | [] => []
  | _ => group_events (pad 3 group)
  end.

(** An event from float times. *)
Definition mk (s e : Q) (t : string) : SSAEvent :=
  {| ev_start := Py.int_of_float s; ev_end := Py.int_of_float e;
     ev_text := t |}.

(** The time window of an event. *)
Definition window (e : SSAEvent) : Z * Z := (ev_start e, ev_end e).

(** The window the grouped policy is to give the word [w] at index [i] of
    a sequence without blank words: from the word's start to the next
    word's start, or to the word's own end when it closes its group
    (third of three, or last of all); all in truncated milliseconds. *)
Definition window_spec (ws : list timed_word) (i : nat) (w : timed_word)
  : Z * Z :=
  (Py.int_of_float (start_ms w),
   match ws !! S i with
   | Some next =>
       if (i mod 3 =? 2)%nat then Py.int_of_float (end_ms w)
       else Py.int_of_float (start_ms next)
   | None => Py.int_of_float (end_ms w)
   end).

(** The words of a sequence that yield an event: those with text. *)
Definition spoken (ws : list timed_word) : list timed_word :=
  List.filter (fun w => negb (Py.is_empty (text w))) ws.

End Captions.

(** ** Files and the console *)

Module Os.

(** What a path holds.  A subtitle file holds the track that
    [pysubs2.load] reads from it: what was saved to it, as far as the
    format of the file keeps it (see [Rescale.save]). *)
Inductive file : Type :=
| Subtitles (track : list Captions.SSAEvent)
| Image
| Video.

Abbreviation filesystem := (gmap string file).

(** The state the driver threads: the files, and the lines printed. *)
Record state : Type := { fs : filesystem; log : list string }.

Definition print (line : string) (st : state) : state :=
  {| fs := fs st; log := log st ++ [line] |}.

(** [os.path.exists(path)]. *)
Definition exists_ (path : string) (st : state) : bool :=
  match fs st !! path with Some _ => true | None => false end.

(** [os.remove(path)] on an existing path. *)
Definition remove (path : string) (st : state) : state :=
  {| fs := delete path (fs st); log := log st |}.

Definition write (path : string) (f : file) (st : state) : state :=
  {| fs := <[path := f]> (fs st); log := log st |}.

(** [os.path.join(directory, name)] for a relative [name]. *)
Definition path_join (directory name : string) : string :=
  if Py.is_empty directory then name
  else if Py.endswith directory "/" then directory +:+ name
  else directory +:+ "/" +:+ name.

(** [str(e)]. *)
Definition str_exn (e : Py.exn) : string :=
  match e with
  | Py.ZeroDivisionError msg => msg
  | Py.AttributeError => "'int' object has no attribute 'split'"
  | Py.IOError msg => msg
  | Py.FfmpegError _ => "ffmpeg error (see stderr output for detail)"
  | Py.OtherError msg => msg
  end.

(** A computation that may raise and that keeps its effects when it
    does. *)
Definition M (A : Type) : Type := state -> Py.outcome A * state.

Definition ret {A : Type} (a : A) : M A := fun st => (Py.Done a, st).

Definition bind {A B : Type} (m : M A) (k : A -> M B) : M B :=
  fun st =>
    match m st with
    | (Py.Done a, st') => k a st'
    | (Py.Raised e, st') => (Py.Raised e, st')
    end.

(** A collaborator's answer, which leaves the state alone. *)
Definition lift {A : Type} (o : Py.outcome A) : M A := fun st => (o, st).

Definition effect (f : state -> state) : M unit :=
  fun st => (Py.Done tt, f st).

End Os.

(** ** The overlay card: reading time and the exception guard *)

Module Card.

(** [reddit_info] as the content collaborator hands it over. *)
Abbreviation reddit_info := (gmap string Py.value).

(** The double-quote character. *)
Definition dquote : string := String (ascii_of_nat 34) EmptyString.

Definition default_title : string :=
  "Why are there so many " +:+ dquote +:+ "lady-boys" +:+ dquote
    +:+ " in Thailand?".

(** Lines 1742-1746: the reading time of a title. *)
Definition reading_time_of (title : string) : Q :=
  let word_count := Z.of_nat (List.length (Py.split title)) in
  let reading_time := Py.max 3 (inject_Z word_count / (25 # 10))%Q in
  if 15 <? word_count then (reading_time + 1)%Q else reading_time.

(** [reddit_info.get('original_title', default)], then the first
    [title.split()] (in [wrap_text]), which raises on a title that is
    not a string. *)
Definition title_of (info : reddit_info) : Py.outcome string :=
  match info !! "original_title"%string with
  | None => Py.Done default_title
  | Some (Py.VStr t) => Py.Done t
  | Some (Py.VInt _) => Py.Raised Py.AttributeError
  end.

Definition card_file (output_path : string) (now : nat) : string :=
  Os.path_join output_path
    ("reddit_card_link_" +:+ Py.str_of_nat now +:+ ".png").

(** What is left of lines 1245-1736 once drawing is abstracted: the
    rasterizer (font loading, layout, drawing, encoding the PNG) either
    completes or raises. *)
Definition rasterizer : Type :=
  reddit_info -> string -> string -> Py.outcome unit.

(** The body of the [try] block of [_create_reddit_card]. *)
Definition card_body (draw : rasterizer) (now : nat)
    (info : reddit_info) (output_path card_style : string)
  : Os.M (string * Q) :=
  Os.bind (Os.lift (title_of info)) (fun title =>
  Os.bind (Os.lift (draw info output_path card_style)) (fun _ =>
  let card_path := card_file output_path now in
  Os.bind (Os.effect (Os.write card_path Os.Image)) (fun _ =>
  Os.bind (Os.effect (Os.print ("✅ Reddit Link Card created: " +:+ card_path)))
    (fun _ =>
  Os.ret (card_path, reading_time_of title))))).

(** [_create_reddit_card]: [(card_path, reading_time)], or [(None, 3.0)]
    when the body raised (lines 1752-1756). *)
Definition _create_reddit_card (draw : rasterizer) (now : nat)
    (info : reddit_info) (output_path card_style : string)
    (st : Os.state)
  : (option string * Q) * Os.state :=
  match card_body draw now info output_path card_style st with
  | (Py.Done (card_path, reading_time), st') =>
      ((Some card_path, reading_time), st')
  | (Py.Raised e, st') =>
      ((None, 3%Q),
       Os.print ("❌ Error creating Reddit card: " +:+ Os.str_exn e) st')
  end.

End Card.

(** ** The time-rescale of a caption track *)

Module Rescale.

Import Captions.

(** A float (the rational of its literal) together with the text an
    f-string gives for it ([f"{1.15}"] is ["1.15"]). *)
Record pyfloat : Type := { value : Q; repr : string }.

(** [int(t / speed)] for a timestamp in whole milliseconds: the
    quotient of floats, truncated. *)
Definition rescale_time (speed : Q) (t : Z) : Z :=
  Py.int_of_float (Py.fdiv (inject_Z t) speed).

Definition rescale_event (speed : Q) (line : SSAEvent) : SSAEvent :=
  {| ev_start := rescale_time speed (ev_start line);
     ev_end := rescale_time speed (ev_end line);
     ev_text := ev_text line |}.

(** The loop of lines 1775-1777.  The first division raises when
    [speed] is the float zero; an empty track divides nothing. *)
Definition rescale_track (speed : Q) (subs : list SSAEvent)
  : Py.outcome (list SSAEvent) :=
  match subs with
  | [] => Py.Done []
  | _ => if Qeq_bool (Py.round64 speed) 0
         then Py.Raised (Py.ZeroDivisionError "float division by zero")
         else Py.Done (map (rescale_event speed) subs)
  end.

(** [pysubs2.load(path)]: the track that the file holds. *)
Definition load (path : string) (st : Os.state)
  : Py.outcome (list SSAEvent) :=
  match Os.fs st !! path with
  | Some (Os.Subtitles track) => Py.Done track
  | Some _ => Py.Raised (Py.OtherError "unknown subtitle format")
  | None => Py.Raised (Py.IOError "No such file or directory")
  end.

(** What a format keeps of a track: [written path subs] is the track
    that [pysubs2.load] reads from the file [path] once [subs] was saved
    to it.  The format goes by the name of the file and is pysubs2's: an
    [.ass] file, for one, has its times in centiseconds. *)
Definition format : Type := string -> list SSAEvent -> list SSAEvent.

(** [subs.save(path)]: [writable] tells whether the path can be
    written; when it cannot, nothing is written. *)
Definition save (writable : string -> bool) (written : format)
    (path : string) (subs : list SSAEvent) : Os.M unit :=
  fun st =>
    if writable path
    then (Py.Done tt, Os.write path (Os.Subtitles (written path subs)) st)
    else (Py.Raised (Py.IOError "Permission denied"), st).

(** Lines 1780-1783. *)
Definition adjusted_name (subtitle_file : string) (speed : pyfloat)
  : string :=
  let file_ext :=
    if Py.endswith subtitle_file ".ass" then ".ass"%string
    else ".srt"%string in
  Py.replace subtitle_file file_ext
             ("_speed" +:+ repr speed +:+ file_ext).

(** The body of the [try] block of [_adjust_subtitle_speed]. *)
Definition adjust_body (writable : string -> bool) (written : format)
    (subtitle_file : string) (speed : pyfloat) : Os.M string :=
  Os.bind (fun st => (load subtitle_file st, st)) (fun subs =>
  Os.bind (Os.lift (rescale_track (value speed) subs)) (fun subs' =>
  let adjusted_file := adjusted_name subtitle_file speed in
  Os.bind (save writable written adjusted_file subs') (fun _ =>
  Os.bind (Os.effect (Os.print ("✅ Subtitles adjusted: " +:+ adjusted_file)))
    (fun _ =>
  Os.ret adjusted_file)))).

(** [_adjust_subtitle_speed]: the adjusted file, or the original one
    when the body raised (lines 1789-1791). *)
Definition _adjust_subtitle_speed (writable : string -> bool)
    (written : format) (subtitle_file : string) (speed : pyfloat)
    (st : Os.state) : string * Os.state :=
  match adjust_body writable written subtitle_file speed st with
  | (Py.Done adjusted_file, st') => (adjusted_file, st')
  | (Py.Raised e, st') =>
      (subtitle_file,
       Os.print ("⚠️ Failed to adjust subtitle speed: " +:+ Os.str_exn e
                 +:+ ", using original") st')
  end.

(** The round trip of a timestamp: by [S], then by the float [1 / S]. *)
Definition round_trip (S : Q) (t : Z) : Z :=
  rescale_time (Py.fdiv 1 S) (rescale_time S t).

End Rescale.

(** ** The slide animation of the overlay card *)

Module Slide.

Local Open Scope R_scope.

(** ffmpeg's expression primitives [lt], [gt], [if], [min], [pow]. *)
Definition ff_lt (a b : R) : bool := if Rlt_dec a b then true else false.
Definition ff_gt (a b : R) : bool := if Rlt_dec b a then true else false.
Definition ff_if (c : bool) (a b : R) : R := if c then a else b.
Definition ff_min (a b : R) : R := Rmin a b.

(** Lines 1936-1950. *)
Definition slide_duration : R := 8 / 10.
Definition wobble_start : R := 8 / 10.
Definition freeze_t : R := 14 / 10.
Definition wobble_amplitude : R := 40.
Definition wobble_decay : R := 6.
Definition wobble_freq : R := 25 / 10.

(** ['(H-h)/2-150']: [H] is the frame height, [h] the card height. *)
Definition overlay_y_target (H h : R) : R := (H - h) / 2 - 150.

Definition slide_progress (t : R) : R := ff_min (t / slide_duration) 1.

Definition eased (t : R) : R := 1 - (1 - slide_progress t) ^ 3.

Definition slide_y (H h t : R) : R :=
  H - (H - overlay_y_target H h) * eased t.

Definition wobble_t (t : R) : R := t - wobble_start.

(** The decaying sinusoid itself. *)
Definition wobble_wave (t : R) : R :=
  wobble_amplitude * exp (- wobble_decay * wobble_t t)
    * sin (2 * PI * wobble_freq * wobble_t t).

Definition wobble (t : R) : R :=
  ff_if (ff_gt t wobble_start) (wobble_wave t) 0.

Definition animated_expr (H h t : R) : R := slide_y H h t + wobble t.

(** The [y] expression handed to the overlay filter. *)
Definition y_expr (H h t : R) : R :=
  ff_if (ff_lt t freeze_t) (animated_expr H h t) (overlay_y_target H h).

End Slide.

(** ** The render driver *)

Module Render.

Import Captions.

Local Notation "'let!' x ':=' m 'in' k" :=
  (Os.bind m (fun x => k))
    (at level 10, x name, m at level 100, k at level 200).

(** The [content] dict. *)
Record content : Type :=
  { title : string; story : string;
    reddit_info : option Card.reddit_info }.

Inductive animation : Type := Zoom | SlideIn.

(** The video filters of the graph, in the order they are applied. *)
Inductive vfilter : Type :=
| FCrop (c : Crop.crop_filter)
| FScale (w h : Z)
| FSetpts (expr : string)
| FSubtitlesAss (escaped_path : string)
| FSubtitlesSrt (path force_style : string)
| FOverlay (card_path : string) (anim : animation) (card_duration : Q).

Definition is_overlay (f : vfilter) : bool :=
  match f with FOverlay _ _ _ => true | _ => false end.

(** What [ffmpeg.run] is given.  The audio graph (lines 1976-2075) only
    builds filter nodes, each optional layer inside its own
    [try/except]; it touches neither the caption files nor the card and
    is left out. *)
Record graph : Type :=
  { g_video : string; g_ss : Q; g_t : Q; g_audio : string;
    g_filters : list vfilter; g_output : string }.

(** The collaborators of one render. *)
Record world : Type :=
  { now : nat;
    output_path : string;
    config_subtitle_style : string;
    probe_duration : string -> Py.outcome Q;
    probe_size : string -> Py.outcome (Z * Z);
    uniform : Q -> Q -> Q;
    make_safe_filename : string -> string;
    transcribe : string -> Py.outcome whisper_result;
    draw : Card.rasterizer;
    writable : string -> bool;
    written : Rescale.format;
    run : graph -> Py.outcome unit }.

Definition speed_1_15 : Rescale.pyfloat :=
  {| Rescale.value := 115 # 100; Rescale.repr := "1.15" |}.

Definition subtitle_path (w : world) : string :=
  Os.path_join (output_path w)
    ("temp_subtitles_" +:+ Py.str_of_nat (now w) +:+ ".ass").

(** [_create_single_word_subtitles] and
    [_create_three_word_highlight_subtitles]: build the events, save
    the ASS file, return its path. *)
Definition _create_single_word_subtitles (w : world)
    (whisper_result : whisper_result) : Os.M string :=
  let subtitle_file := subtitle_path w in
  let! _ := Rescale.save (writable w) (written w) subtitle_file
              (single_word_events whisper_result) in
  Os.ret subtitle_file.

Definition _create_three_word_highlight_subtitles (w : world)
    (whisper_result : whisper_result) : Os.M string :=
  let subtitle_file := subtitle_path w in
  let! _ := Rescale.save (writable w) (written w) subtitle_file
              (three_word_events whisper_result) in
  Os.ret subtitle_file.

(** [_create_srt_subtitles] (lines 2135-2165): [None] when Whisper or
    the save raised. *)
Definition _create_srt_subtitles (w : world) (audio_path : string)
    (subtitle_style : option string) (st : Os.state)
  : option string * Os.state :=
  let body :=
    let! result := Os.lift (transcribe w audio_path) in
    let style := match subtitle_style with
                 | None => config_subtitle_style w
                 | Some s => s
                 end in
    if String.eqb style "three_words_highlight"
    then _create_three_word_highlight_subtitles w result
    else _create_single_word_subtitles w result in
  match body st with
  | (Py.Done f, st') => (Some f, st')
  | (Py.Raised e, st') =>
      (None, Os.print ("❌ Whisper failed (" +:+ Os.str_exn e
                       +:+ "). Subtitles will be skipped.") st')
  end.

(** The locals alive after line 1860. *)
Record gathered : Type :=
  { audio_duration : Q;
    output_file : string;
    start_time : Q;
    subtitle_file : option string;
    reddit_card_path : option string;
    card_reading_time : Q;
    crop : Crop.crop_filter }.

(** Lines 1824-1834: the card, when the content carries a non-empty
    [reddit_info]. *)
Definition card_step (w : world) (content : content) (card_style : string)
  : Os.M (option string * Q) :=
  fun st =>
    match reddit_info content with
    | Some info =>
        if bool_decide (info = ∅)
        then (Py.Done (None, 3%Q),
              Os.print "ℹ️ No Reddit info found, skipping card overlay" st)
        else
          let '(r, st') :=
            Card._create_reddit_card (draw w) (now w) info
              (output_path w) card_style st in
          (Py.Done r,
           match fst r with
           | Some p => Os.print ("✅ Reddit card created at: " +:+ p) st'
           | None => Os.print "⚠️ Reddit card creation failed" st'
           end)
    | None =>
        (Py.Done (None, 3%Q),
         Os.print "ℹ️ No Reddit info found, skipping card overlay" st)
    end.

(** Lines 1798-1860: probes, caption file, card, crop. *)
Definition gather (w : world) (content : content)
    (audio_path background_path : string)
    (subtitle_style : option string) (card_style : string)
  : Os.M gathered :=
  let! audio_duration := Os.lift (probe_duration w audio_path) in
  let safe_title := make_safe_filename w (title content) in
  let output_file :=
    Os.path_join (output_path w)
      (safe_title +:+ "_" +:+ Py.str_of_nat (now w) +:+ ".mp4") in
  let! video_duration := Os.lift (probe_duration w background_path) in
  let start_time :=
    if Py.gt video_duration audio_duration
    then uniform w 0 (video_duration - audio_duration)%Q
    else 0%Q in
  let! subtitle_file :=
    (fun st => let '(f, st') :=
                 _create_srt_subtitles w audio_path subtitle_style st in
               (Py.Done f, st')) in
  let! card := card_step w content card_style in
  let! size := Os.lift (probe_size w background_path) in
  let! crop := Os.lift (Crop.crop_for (fst size) (snd size)) in
  Os.ret {| audio_duration := audio_duration;
            output_file := output_file;
            start_time := start_time;
            subtitle_file := subtitle_file;
            reddit_card_path := fst card;
            card_reading_time := snd card;
            crop := crop |}.

(** The locals alive before the encode. *)
Record composed : Type :=
  { burned_subtitle_file : option string;
    card_path : option string;
    render_graph : graph }.

(** Line 1880: the path as the [subtitles] filter wants it. *)
Definition escaped (path : string) : string :=
  Py.replace (Py.replace path "\" "\\") ":" "\:".

Definition force_style : string :=
  "FontName=Cooper Black,FontSize=20,PrimaryColour=&H00ffff,OutlineColour=&H000000,Outline=2,Shadow=0,Bold=1,Alignment=2,MarginV=80,Spacing=0".

Definition subtitle_filters (subtitle_file : option string)
  : list vfilter :=
  match subtitle_file with
  | Some f =>
      if Py.endswith f ".ass" then [FSubtitlesAss (escaped f)]
      else [FSubtitlesSrt f force_style]
  | None => []
  end.

(** Lines 1891-1965: the overlay, only for a card that exists. *)
Definition overlay_filters (g : gathered) (card_animation : string)
    (st : Os.state) : list vfilter :=
  match reddit_card_path g with
  | Some p =>
      if Os.exists_ p st
      then
        let card_duration :=
          Py.min (card_reading_time g / (115 # 100))%Q
                 (audio_duration g / (115 # 100))%Q in
        [FOverlay p (if String.eqb card_animation "zoom"
                     then Zoom else SlideIn) card_duration]
      else []
  | None => []
  end.

(** Lines 1862-1975: scale, speed, captions, overlay. *)
Definition compose (w : world) (g : gathered)
    (audio_path background_path card_animation : string)
  : Os.M composed :=
  let! subtitle_file :=
    (fun st =>
       match subtitle_file g with
       | Some f =>
           let '(f', st') :=
             Rescale._adjust_subtitle_speed (writable w) (written w) f
               speed_1_15 st in
           (Py.Done (Some f'), st')
       | None => (Py.Done None, st)
       end) in
  let! overlay :=
    (fun st =>
       let fs := overlay_filters g card_animation st in
       (Py.Done fs,
        match fs with
        | [] => Os.print "⚠️ Reddit card not available for overlay" st
        | _ => Os.print "🎴 Adding Reddit card overlay to video..." st
        end)) in
  Os.ret
    {| burned_subtitle_file := subtitle_file;
       card_path := reddit_card_path g;
       render_graph :=
         {| g_video := background_path;
            g_ss := start_time g;
            g_t := audio_duration g;
            g_audio := audio_path;
            g_filters :=
              [FCrop (crop g); FScale 1080 1920; FSetpts "PTS/1.15"]
                ++ subtitle_filters subtitle_file ++ overlay;
            g_output := output_file g |} |}.

(** Lines 2114-2120. *)
Definition cleanup (subtitle_file : option string) (st : Os.state)
  : Os.state :=
  match subtitle_file with
  | Some f =>
      if Os.exists_ f st
      then
        fold_left
          (fun st ext =>
             let adjusted_sub :=
               Py.replace f ext ("_speed1.15" +:+ ext) in
             if Os.exists_ adjusted_sub st
             then Os.remove adjusted_sub st else st)
          [".srt"%string; ".ass"%string]
          (Os.remove f st)
      else st
  | None => st
  end.

(** Lines 2096-2111: the encode; an [ffmpeg.Error] is printed with the
    output of the encoder and raised again.  The error has no [cmd]
    attribute, so that [cmd_text] is empty and the first line ends after
    the space that [print] puts between its two arguments. *)
Definition encode (w : world) (c : composed) : Os.M unit :=
  fun st =>
    match run w (render_graph c) with
    | Py.Done _ =>
        (Py.Done tt, Os.write (g_output (render_graph c)) Os.Video st)
    | Py.Raised (Py.FfmpegError stderr) =>
        (Py.Raised (Py.FfmpegError stderr),
         Os.print "── FFmpeg stderr (end) ──"
           (Os.print stderr
              (Os.print "── FFmpeg stderr (start) ──"
                 (Os.print "❌ FFmpeg failed. Command: " st))))
    | Py.Raised e => (Py.Raised e, st)
    end.

(** What the driver prints about an exception of the encode before it
    raises it again. *)
Definition stderr_lines (e : Py.exn) : list string :=
  match e with
  | Py.FfmpegError stderr =>
      ["❌ FFmpeg failed. Command: ";
       "── FFmpeg stderr (start) ──"; stderr; "── FFmpeg stderr (end) ──"]
  | _ => []
  end.

(** Lines 2094-2129. *)
Definition finish (w : world) (c : composed) : Os.M string :=
  let! _ := encode w c in
  let! _ := Os.effect (cleanup (burned_subtitle_file c)) in
  let! _ :=
    Os.effect (fun st =>
      match card_path c with
      | Some p =>
          if Os.exists_ p st
          then Os.print ("ℹ️ Reddit card kept at: " +:+ p
                         +:+ " (for debugging)") st
          else st
      | None => st
      end) in
  let out := g_output (render_graph c) in
  let! _ := Os.effect (Os.print ("✅ Video created with FFmpeg: " +:+ out)) in
  Os.ret out.

(** The body of the outer [try] block. *)
Definition render_body (w : world) (content : content)
    (audio_path background_path : string)
    (subtitle_style : option string)
    (card_style card_animation : string) : Os.M string :=
  let! g := gather w content audio_path background_path
              subtitle_style card_style in
  let! c := compose w g audio_path background_path card_animation in
  finish w c.

(** [create_video_ffmpeg]: the output path, or [None] for whatever the
    body raised (lines 2131-2133).  [background_music_path] only feeds
    the audio graph and is not a parameter here. *)
Definition create_video_ffmpeg (w : world) (content : content)
    (audio_path background_path : string)
    (subtitle_style : option string)
    (card_style card_animation : string) (st : Os.state)
  : option string * Os.state :=
  match render_body w content audio_path background_path
          subtitle_style card_style card_animation st with
  | (Py.Done out, st') => (Some out, st')
  | (Py.Raised e, st') =>
      (None,
       Os.print ("❌ FFmpeg processing failed: " +:+ Os.str_exn e) st')
  end.

End Render.

(** ** Concrete inputs *)

Module Examples.

Import Captions.

Definition title5 : string := "Why is the sky blue".

Definition title20 : string :=
  "What is the one thing you wish you had known before you moved out of your parents house for good".

Definition info_of (title : string) : Card.reddit_info :=
  <["original_title"%string := Py.VStr title]>
    (<["subreddit"%string := Py.VStr "AskReddit"]>
       (<["upvotes"%string := Py.VInt 12345]> ∅)).

Definition draw_ok : Card.rasterizer := fun _ _ _ => Py.Done tt.

Definition draw_fails : Card.rasterizer :=
  fun _ _ _ => Py.Raised (Py.IOError "cannot write mode RGBA as PNG").

Definition st0 : Os.state := {| Os.fs := ∅; Os.log := [] |}.

(** Two words on whole milliseconds. *)
Definition hello_big : whisper_result :=
  [{| words := Some [{| word := " hello"; start := 0; end_ := 5 # 10 |};
                     {| word := " big"; start := 5 # 10; end_ := 7 # 10 |}] |};
   {| words := None |}].

(** A word that starts at 4.02 s: the product of the doubles 4.02 and
    1000 is 4019.9999999999995. *)
Definition late_word : whisper_result :=
  [{| words := Some [{| word := " caf" +:+ String (ascii_of_nat 233) "";
                        start := 402 # 100; end_ := 45 # 10 |}] |}].

(** A word that starts at 1.5 ms. *)
Definition off_grid : whisper_result :=
  [{| words := Some [{| word := " hello"; start := 15 # 10000;
                        end_ := 5 # 10 |}] |}].

(** Three words, the middle one blank, the last one starting at
    200.5 ms. *)
Definition blank_middle : whisper_result :=
  [{| words := Some [{| word := " a"; start := 0; end_ := 1 # 10 |};
                     {| word := " "; start := 1 # 10; end_ := 2 # 10 |};
                     {| word := " c"; start := 2005 # 10000;
                        end_ := 3 # 10 |}] |}].

(** Four words with text: one full group and one short group. *)
Definition four_words : list timed_word :=
  [{| text := "ONE"; start_ms := 0; end_ms := 300 |};
   {| text := "TWO"; start_ms := 350; end_ms := 600 |};
   {| text := "THREE"; start_ms := 600; end_ms := 900 |};
   {| text := "FOUR"; start_ms := 1200; end_ms := 1500 |}].

Definition content0 : Render.content :=
  {| Render.title := "Sky"; Render.story := "hello big";
     Render.reddit_info := Some (info_of title5) |}.

(** A format that rounds the times of an [.ass] file to centiseconds
    and keeps the rest. *)
Definition centiseconds : Rescale.format :=
  fun path subs =>
    if Py.endswith path ".ass"
    then map (fun e => {| ev_start := (ev_start e + 5) / 10 * 10;
                          ev_end := (ev_end e + 5) / 10 * 10;
                          ev_text := ev_text e |}) subs
    else subs.

(** A render in which every collaborator answers; [draw], [writable] and
    [run] are left to the example. *)
Definition world_with (draw : Card.rasterizer) (writable : string -> bool)
    (run : Render.graph -> Py.outcome unit) : Render.world :=
  {| Render.now := 17;
     Render.output_path := "out";
     Render.config_subtitle_style := "single_word";
     Render.probe_duration :=
       fun p => if String.eqb p "voice.mp3" then Py.Done 42%Q
                else Py.Done 90%Q;
     Render.probe_size := fun _ => Py.Done (1920, 1080);
     Render.uniform := fun a b => b;
     Render.make_safe_filename := fun s => s;
     Render.transcribe := fun _ => Py.Done hello_big;
     Render.draw := draw;
     Render.writable := writable;
     Render.written := centiseconds;
     Render.run := run |}.

Definition run_ok : Render.graph -> Py.outcome unit :=
  fun _ => Py.Done tt.

Definition run_fails : Render.graph -> Py.outcome unit :=
  fun _ => Py.Raised (Py.FfmpegError "No such filter: 'subtitles'").

Definition world_ok : Render.world :=
  world_with draw_ok (fun _ => true) run_ok.

Definition world_encode_fails : Render.world :=
  world_with draw_ok (fun _ => true) run_fails.

Definition world_card_fails : Render.world :=
  world_with draw_fails (fun _ => true) run_ok.

(** The rescaled caption file cannot be written. *)
Definition world_rescale_fails : Render.world :=
  world_with draw_ok
    (fun p => negb (String.eqb p "out/temp_subtitles_17_speed1.15.ass"))
    run_ok.

(** The narration cannot be probed. *)
Definition world_probe_fails : Render.world :=
  {| Render.now := 17;
     Render.output_path := "out";
     Render.config_subtitle_style := "single_word";
     Render.probe_duration :=
       fun _ => Py.Raised (Py.OtherError "ffprobe error");
     Render.probe_size := fun _ => Py.Done (1920, 1080);
     Render.uniform := fun a b => b;
     Render.make_safe_filename := fun s => s;
     Render.transcribe := fun _ => Py.Done hello_big;
     Render.draw := draw_ok;
     Render.writable := fun _ => true;
     Render.written := centiseconds;
     Render.run := run_ok |}.

(** A caption file on disk: two events, at 1000-1500 ms and at
    1500-2300 ms. *)
Definition two_events : list SSAEvent :=
  [{| ev_start := 1000; ev_end := 1500; ev_text := "HELLO" |};
   {| ev_start := 1500; ev_end := 2300; ev_text := "BIG" |}].

Definition st_captions : Os.state :=
  {| Os.fs := <["out/temp.ass"%string := Os.Subtitles two_events]> ∅;
     Os.log := [] |}.

Definition render (w : Render.world) : option string * Os.state :=
  Render.create_video_ffmpeg w content0 "voice.mp3" "bg.mp4" None
    "white" "slide" st0.

End Examples.

(** ** More of Python's strings, and the character classes of [re] *)

Module Text.

(** [s[:n]]. *)
Definition take (n : nat) (s : string) : string := substring 0 n s.

(** Every character of [s] is in the class. *)
Definition all (cls : ascii -> bool) (s : string) : bool :=
  forallb cls (list_ascii_of_string s).

(** The class [\w] on a one-byte character: the digits, the letters of
    ASCII and of Latin-1 (with the superscript digits and the vulgar
    fractions), and the underscore. *)
Definition is_word (c : ascii) : bool :=
  let n := nat_of_ascii c in
  ((48 <=? n) && (n <=? 57) || (65 <=? n) && (n <=? 90) || (n =? 95)
   || (97 <=? n) && (n <=? 122) || (n =? 170)
   || (178 <=? n) && (n <=? 179) || (n =? 181)
   || (185 <=? n) && (n <=? 186) || (188 <=? n) && (n <=? 190)
   || (192 <=? n) && (n <=? 214) || (216 <=? n) && (n <=? 246)
   || (248 <=? n) && (n <=? 255))%nat.

(** The digits of ASCII. *)
Definition is_digit (c : ascii) : bool :=
  let n := nat_of_ascii c in ((48 <=? n) && (n <=? 57))%nat.

(** The class [-]. *)
Definition is_dash (c : ascii) : bool := (nat_of_ascii c =? 45)%nat.

(** [re.sub('[cls]', '', s)]: the characters of the class are dropped. *)
Fixpoint remove (cls : ascii -> bool) (s : string) : string :=
  match s with
  | EmptyString => EmptyString
  | String c rest =>
      if cls c then remove cls rest else String c (remove cls rest)
  end.

(** [re.sub('[cls]+', rep, s)]: every maximal run of characters of the
    class is replaced by one [rep].  [in_run] tells that the character
    before was of the class. *)
Fixpoint squeeze_from (in_run : bool) (cls : ascii -> bool) (rep : string)
    (s : string) : string :=
  match s with
  | EmptyString => EmptyString
  | String c rest =>
      if cls c
      then (if in_run then squeeze_from true cls rep rest
            else rep +:+ squeeze_from true cls rep rest)
      else String c (squeeze_from false cls rep rest)
  end.

Definition squeeze (cls : ascii -> bool) (rep s : string) : string :=
  squeeze_from false cls rep s.

(** [str(n)] for an int. *)
Definition str_of_Z (n : Z) : string :=
  if n <? 0 then "-" +:+ Py.str_of_nat (Z.to_nat (- n))
  else Py.str_of_nat (Z.to_nat n).

End Text.

(** ** [_make_safe_filename] (src/main.py, lines 2337-2342) *)

Module SafeName.

(** The class [[^\w\s-]]. *)
Definition unsafe (c : ascii) : bool :=
  negb (Text.is_word c || Py.isspace c || Text.is_dash c).

(** The class [[-\s]]. *)
Definition separator (c : ascii) : bool :=
  Text.is_dash c || Py.isspace c.

Definition _make_safe_filename (title : string) : string :=
  let safe := Text.remove unsafe title in
  let safe := Text.squeeze separator "_" safe in
  Text.take 30 safe.

End SafeName.

(** ** The story text of the scraper (src/main.py, lines 266-269 and
    470-484) *)

Module Story.

(** The words of [text] are counted; past [limit] the first [limit] words
    are joined with single spaces and three dots are appended. *)
Definition truncate_words (limit : nat) (text : string) : string :=
  let words := Py.split text in
  if (limit <? List.length words)%nat
  then Py.join " " (firstn limit words) +:+ "..."
  else text.

(** Lines 266-269 of [get_reddit_story], and lines 482-484 of
    [get_ask_post_with_comments]. *)
Definition truncate_story (story : string) : string :=
  truncate_words 400 story.

(** Lines 470-478: the numbered answer made of the comment at position
    [i] (counted from 1). *)
Definition story_part (i : nat) (comment_text : string) : string :=
  Py.str_of_nat i +:+ ". " +:+ truncate_words 80 comment_text.

Fixpoint story_parts_from (i : nat) (comments : list string) : list string :=
  match comments with
  | [] => []
  | c :: rest => story_part i c :: story_parts_from (S i) rest
  end.

(** Lines 459-484: from the comments sorted by score to the story.
    [None] stands for the exception raised when no comment is left. *)
Definition ask_story (sorted_comments : list string) : option string :=
  let top_comments := firstn 5 sorted_comments in
  match top_comments with
  | [] => None
  | _ =>
      let story := Py.join " " (story_parts_from 1 top_comments) in
      Some (truncate_story story)
  end.

(** What the limit does to the words: past [limit] words the first
    [limit] are kept and the last of them is followed by three dots. *)
Definition capped (limit : nat) (words : list string) : list string :=
  if (limit <? List.length words)%nat
  then firstn (limit - 1) words
         ++ [nth (limit - 1) words EmptyString +:+ "..."]
  else words.

(** The words of the numbered answers: the number with its dot, then
    the words of the comment, capped at 80. *)
Definition answer_words (i : nat) (comment_text : string) : list string :=
  (Py.str_of_nat i +:+ ".") :: capped 80 (Py.split comment_text).

Fixpoint answers_from (i : nat) (comments : list string) : list string :=
  match comments with
  | [] => []
  | c :: rest => answer_words i c ++ answers_from (S i) rest
  end.

End Story.

(** ** The request guards of the web front end (src/web_app.py) *)

Module Web.

(** The character class that [sanitize_topic] removes, by character
    code: the double and the single quote, the dollar sign, the round,
    square and curly brackets, the semicolon, the angle brackets, the
    backslash, the backquote and the bar. *)
Definition dangerous (c : ascii) : bool :=
  existsb (Nat.eqb (nat_of_ascii c))
    [34; 36; 39; 40; 41; 59; 60; 62; 91; 92; 93; 96; 123; 124; 125]%nat.

(** [sanitize_topic] (lines 69-80), on a topic that is a string. *)
Definition sanitize_topic (topic : string) : string :=
  if Py.is_empty topic then EmptyString
  else
    let topic := Text.remove dangerous topic in
    let topic := Text.take 100 topic in
    Py.join " " (Py.split topic).

End Web.

(** ** [_format_time_ago] (src/main.py, lines 148-165) *)

Module TimeAgo.

(** [a < b] on floats. *)
Definition lt (a b : Q) : bool := negb (Qle_bool b a).

(** [current_time] is what [time.time()] answers. *)
Definition _format_time_ago (current_time created_utc : Q) : string :=
  if Qeq_bool created_utc 0 then "recently"
  else
    let time_diff := (current_time - created_utc)%Q in
    let hours := Py.int_of_float (time_diff / 3600) in
    if hours <? 1 then
      let minutes := Py.int_of_float (time_diff / 60) in
      if 0 <? minutes then Text.str_of_Z minutes +:+ "m ago"
      else "just now"
    else if hours <? 24 then Text.str_of_Z hours +:+ "h ago"
    else
      let days := Py.int_of_float (inject_Z hours / 24) in
      Text.str_of_Z days +:+ "d ago".

(** The label by the age in seconds: whole minutes under an hour, whole
    hours under a day, whole days from there on. *)
Definition age_label (age : Q) : string :=
  if lt age 60 then "just now"
  else if lt age 3600 then Text.str_of_Z (Qfloor (age / 60)) +:+ "m ago"
  else if lt age 86400 then Text.str_of_Z (Qfloor (age / 3600)) +:+ "h ago"
  else Text.str_of_Z (Qfloor (age / 86400)) +:+ "d ago".

End TimeAgo.

(** ** The title block of the overlay card (src/main.py, lines 1277-1302
    and 1535-1548) *)

Module Layout.

(** [wrap_text(text, font, max_width, draw_ctx)].  [width line] is the
    right edge [draw_ctx.textbbox((0, 0), line, font=font)[2]] of the
    line as the font draws it. *)
Fixpoint wrap_loop (width : string -> Q) (max_width : Q)
    (words : list string) (current_line : string) (lines : list string)
  : list string :=
  match words with
  | [] => lines ++ [Py.strip current_line]
  | word :: rest =>
      let test_line := current_line +:+ word +:+ " " in
      if Qle_bool (width (Py.rstrip test_line)) max_width
      then wrap_loop width max_width rest test_line lines
      else wrap_loop width max_width rest (word +:+ " ")
             (lines ++ [Py.strip current_line])
  end.

Definition wrap_text (width : string -> Q) (max_width : Q) (text : string)
  : list string :=
  wrap_loop width max_width (Py.split text) EmptyString [].

(** Lines 1290-1302: the height of the card for a title of
    [title_lines] lines.  [ag_bottom] is the bottom edge
    [textbbox((0, 0), 'Ag', font=title_font)[3]] of the sample text. *)
Definition scale : Q := 6.

Definition title_line_h (ag_bottom : Q) : Q := (ag_bottom + 15 * scale)%Q.

Definition card_height (title_lines : nat) (ag_bottom : Q) : Z :=
  let header_height := 65%Q in
  let title_height :=
    (inject_Z (Z.of_nat title_lines) * (title_line_h ag_bottom / scale)
     + 15)%Q in
  let link_height := 30%Q in
  let footer_height := 75%Q in
  let padding := 40%Q in
  let card_height :=
    Py.int_of_float
      (header_height + title_height + link_height + footer_height
       + padding)%Q in
  Z.max card_height 220.

(** The line the loop is building, by the words it holds: each word is
    followed by one space. *)
Definition line_of (words : list string) : string :=
  match words with
  | [] => EmptyString
  | _ => Py.join " " words +:+ " "
  end.

End Layout.

(** ** The history of used content, and the choice of a background
    (src/main.py, lines 2598-2628 and 2829-2915)

    The history file [used_content.json] holds a dictionary from a
    category to the list of the items used.  The log keeps the warnings
    and the lines that tell of a change of the history; the lines that
    only count what was found are left out. *)

Module Tracking.

Abbreviation used_content := (gmap string (list string)).

(** What [used_content.json] is: not there, there but not readable as
    JSON, or holding a dictionary. *)
Inductive tracking_file : Type :=
| Missing
| Unreadable (error : string)
| Stored (used : used_content).

(** [write_error] is the error that opening the file for writing raises,
    when it does. *)
Record state : Type :=
  { file : tracking_file; write_error : option string; log : list string }.

Definition print (line : string) (st : state) : state :=
  {| file := file st; write_error := write_error st;
     log := log st ++ [line] |}.

(** The default structure of [_load_used_content]. *)
Definition default_structure : used_content :=
  <["videos"%string := []]>
    (<["music"%string := []]> (<["reddit_posts"%string := []]> ∅)).

Definition _load_used_content (st : state) : used_content * state :=
  match file st with
  | Stored used => (used, st)
  | Unreadable error =>
      (default_structure,
       print ("⚠️ Could not load used_content.json: " +:+ error) st)
  | Missing => (default_structure, st)
  end.

Definition _save_used_content (used : used_content) (st : state) : state :=
  match write_error st with
  | None => {| file := Stored used; write_error := None; log := log st |}
  | Some error =>
      print ("⚠️ Could not save to used_content.json: " +:+ error) st
  end.

(** [item in items]. *)
Definition contains (item : string) (items : list string) : bool :=
  existsb (String.eqb item) items.

Definition _mark_as_used (category item : string) (st : state) : state :=
  let '(used, st1) := _load_used_content st in
  match used !! category with
  | Some items =>
      if contains item items then st1
      else
        let st2 :=
          _save_used_content (<[category := items ++ [item]]> used) st1 in
        print ("✅ Marked as used (" +:+ category +:+ "): " +:+ item) st2
  | None => st1
  end.

(** [c.lower()] for a one-byte character, and [s.lower()]. *)
Definition lower_char (c : ascii) : ascii :=
  let n := nat_of_ascii c in
  if ((65 <=? n) && (n <=? 90) || (192 <=? n) && (n <=? 214)
      || (216 <=? n) && (n <=? 222))%nat
  then ascii_of_nat (n + 32) else c.

Fixpoint lower (s : string) : string :=
  match s with
  | EmptyString => EmptyString
  | String c rest => String (lower_char c) (lower rest)
  end.

(** [f.lower().endswith(extensions)] for a tuple of extensions. *)
Definition has_extension (extensions : list string) (f : string) : bool :=
  existsb (Py.endswith (lower f)) extensions.

(** [random.choice(items)] on a list that is not empty, for the draw
    [pick] of the generator. *)
Definition choice (pick : nat) (items : list string) : string :=
  nth (pick mod List.length items) items EmptyString.

(** What a selection gives: the path, [None], or the [KeyError] of a
    history without the key. *)
Inductive selection : Type :=
| Selected (path : string)
| NotFound
| KeyError (key : string).

(** The text of the two selections is the same but for the key of the
    history, the extensions and the messages.  [listdir] is
    [os.listdir(folder)], or [None] when the folder does not exist. *)
Definition select_background (key : string) (extensions : list string)
    (missing_msg none_msg reset_msg : string)
    (folder : string) (listdir : option (list string))
    (auto_upload_enabled : bool) (pick : nat) (st : state)
  : selection * state :=
  match listdir with
  | None => (NotFound, print (missing_msg +:+ folder) st)
  | Some names =>
      let files := List.filter (has_extension extensions) names in
      match files with
      | [] => (NotFound, print (none_msg +:+ folder) st)
      | _ =>
          if auto_upload_enabled then
            let '(used_content, st1) := _load_used_content st in
            match used_content !! key with
            | None => (KeyError key, st1)
            | Some used =>
                let unused :=
                  List.filter (fun v => negb (contains v used)) files in
                let '(unused, st2) :=
                  match unused with
                  | [] =>
                      (files,
                       _save_used_content (<[key := []]> used_content)
                         (print reset_msg st1))
                  | _ => (unused, st1)
                  end in
                (Selected (Os.path_join folder (choice pick unused)), st2)
            end
          else (Selected (Os.path_join folder (choice pick files)), st)
      end
  end.

Definition video_extensions : list string := [".mp4"; ".mov"; ".avi"].

Definition music_extensions : list string :=
  [".mp3"; ".wav"; ".m4a"; ".aac"; ".ogg"].

Definition _get_random_background_video :=
  select_background "videos" video_extensions
    "❌ Background video folder not found: " "❌ No videos found in "
    "🔄 All videos used! Resetting video history...".

Definition _get_random_background_music :=
  select_background "music" music_extensions
    "⚠️ Background music folder not found: " "⚠️ No music files found in "
    "🔄 All music used! Resetting music history...".

(** A name without a slash, as [os.listdir] gives them. *)
Definition slash_free (name : string) : bool :=
  Text.all (fun c => negb (Ascii.eqb c "/")) name.

(** [os.path.basename(path)]: what follows the last slash. *)
Fixpoint basename_from (name path : string) : string :=
  match path with
  | EmptyString => name
  | String c rest =>
      if Ascii.eqb c "/" then basename_from EmptyString rest
      else basename_from (name +:+ String c EmptyString) rest
  end.

Definition basename (path : string) : string :=
  basename_from EmptyString path.

(** [bool(s)] for a value that is [None] or a string. *)
Definition truthy (s : option string) : bool :=
  match s with
  | Some s => negb (Py.is_empty s)
  | None => false
  end.

(** The value that a selection returns to [run]. *)
Definition returned (s : selection) : option string :=
  match s with
  | Selected path => Some path
  | _ => None
  end.

(** The first of [keys] that [used_content] does not hold: the
    [KeyError] of [used_content[key]]. *)
Definition first_missing (keys : list string) (used : used_content)
  : option string :=
  List.find (fun k => match used !! k with Some _ => false | None => true end)
    keys.

(** What one run takes from outside: whether the content comes from
    Reddit ([content_choice] from 3 to 6), the [post_id] of the content
    when it has one, and the two draws of the generator. *)
Record round : Type :=
  { from_reddit : bool;
    post_id : option string;
    pick_video : nat;
    pick_music : nat }.

Inductive run_result : Type :=
| Uploaded (bg_video_name : string)
| NoVideo
| Raised (key : string).

(** [run] (lines 2630-2827) with the automatic upload on, reduced to the
    steps that read or write the history, for a run whose content,
    voiceover and video are made and whose upload succeeds: the status
    lines (2638-2643), the tracker of the scraper (2692, 2702, 2714,
    2724), the two selections (2763-2772) and the three marks
    (2802-2813). *)
Definition run_tracking (video_folder : string)
    (videos : option (list string)) (music_folder : string)
    (music : option (list string)) (r : round) (st : state)
  : run_result * state :=
  let '(used_content, st) := _load_used_content st in
  match first_missing ["videos"; "reddit_posts"; "music"]%string
          used_content with
  | Some key => (Raised key, st)
  | None =>
      let '(missing, st) :=
        if from_reddit r then
          let '(used_content, st) := _load_used_content st in
          (first_missing ["reddit_posts"%string] used_content, st)
        else (None, st) in
      match missing with
      | Some key => (Raised key, st)
      | None =>
          match _get_random_background_video video_folder videos true
                  (pick_video r) st with
          | (KeyError key, st) => (Raised key, st)
          | (bg, st) =>
              let bg_path := returned bg in
              if negb (truthy bg_path) then (NoVideo, st)
              else
                let bg_video_name := basename (default EmptyString bg_path) in
                match _get_random_background_music music_folder music true
                        (pick_music r) st with
                | (KeyError key, st) => (Raised key, st)
                | (bg_music, st) =>
                    let bg_music_path := returned bg_music in
                    let bg_music_name :=
                      if truthy bg_music_path
                      then Some (basename (default EmptyString bg_music_path))
                      else None in
                    let st := _mark_as_used "videos" bg_video_name st in
                    let st :=
                      if truthy bg_music_name
                      then _mark_as_used "music"
                             (default EmptyString bg_music_name) st
                      else st in
                    let st :=
                      if truthy (post_id r)
                      then _mark_as_used "reddit_posts"
                             (default EmptyString (post_id r)) st
                      else st in
                    (Uploaded bg_video_name, st)
                end
          end
      end
  end.

(** One run after the other, on folders that do not change. *)
Fixpoint runs (video_folder : string) (videos : option (list string))
    (music_folder : string) (music : option (list string))
    (rounds : list round) (st : state) : list run_result * state :=
  match rounds with
  | [] => ([], st)
  | r :: rest =>
      let '(result, st) :=
        run_tracking video_folder videos music_folder music r st in
      let '(results, st) :=
        runs video_folder videos music_folder music rest st in
      (result :: results, st)
  end.

(** A state fit for a run: the history can be saved and holds the three
    keys, with [used] for the videos. *)
Definition ready (used : list string) (st : state) : Prop :=
  write_error st = None
  /\ fst (_load_used_content st) !! "videos"%string = Some used
  /\ is_Some (fst (_load_used_content st) !! "reddit_posts"%string)
  /\ is_Some (fst (_load_used_content st) !! "music"%string).

End Tracking.

(** ** [rate_limit_check] (src/web_app.py, lines 105-114) *)

Module RateLimit.

(** The times that the session holds, by key. *)
Abbreviation session := (gmap string Q).

(** [current_time] is what [time.time()] answers. *)
Definition rate_limit_check (session_key : string) (current_time : Q)
    (s : session) : bool * session :=
  let last_request := default 0%Q (s !! session_key) in
  if TimeAgo.lt (current_time - last_request) 30 then (false, s)
  else (true, <[session_key := current_time]> s).

(** The requests of one session, at the times [times] in this order: the
    times of the requests that are let through, and the session at the
    end. *)
Fixpoint accepted (session_key : string) (times : list Q) (s : session)
  : list Q * session :=
  match times with
  | [] => ([], s)
  | current_time :: rest =>
      let '(ok, s) := rate_limit_check session_key current_time s in
      let '(others, s) := accepted session_key rest s in
      (if ok then current_time :: others else others, s)
  end.

End RateLimit.

(** ** [_detect_narrator_gender] (src/main.py, lines 965-1007) *)

Module Narrator.

Definition male_indicators : list string :=
  [ "\bmy wife\b"; "\bmy girlfriend\b"; "\bmy ex-wife\b";
    "\bmy ex-girlfriend\b"; "\bmy fiancee\b"; "\bmy bride\b";
    "\bshe dumped me\b"; "\bshe left me\b"; "\bshe cheated on me\b";
    "\bi\s+\(?\d*m\)?"; "\bm\d+\b";
    "\bas a man\b"; "\bas a guy\b"; "\bas a husband\b"; "\bas a father\b";
    "\bas a dad\b";
    "\bmy son\b"; "\bmy daughter\b"; "\bmy kids\b"; "\bmy children\b";
    "\bfather of\b"; "\bdad of\b" ]%string.

Definition female_indicators : list string :=
  [ "\bmy husband\b"; "\bmy boyfriend\b"; "\bmy ex-husband\b";
    "\bmy ex-boyfriend\b"; "\bmy fiance\b"; "\bmy groom\b";
    "\bhe dumped me\b"; "\bhe left me\b"; "\bhe cheated on me\b";
    "\bi\s+\(?\d*f\)?"; "\bf\d+\b";
    "\bas a woman\b"; "\bas a girl\b"; "\bas a wife\b"; "\bas a mother\b";
    "\bas a mom\b";
    "\bmy son\b"; "\bmy daughter\b"; "\bmy kids\b"; "\bmy children\b";
    "\bmother of\b"; "\bmom of\b"; "\bpregnant\b"; "\bpregnancy\b" ]%string.

(** [sum(1 for pattern in indicators if re.search(pattern, text))];
    [search pattern text] tells whether [re.search] finds the pattern. *)
Definition score (search : string -> string -> bool)
    (indicators : list string) (text : string) : nat :=
  List.length (List.filter (fun pattern => search pattern text) indicators).

Definition _detect_narrator_gender (search : string -> string -> bool)
    (text title : string) : string :=
  let combined_text := Tracking.lower (title +:+ " " +:+ text) in
  let male_score := score search male_indicators combined_text in
  let female_score := score search female_indicators combined_text in
  if (female_score <? male_score)%nat then "male"
  else if (male_score <? female_score)%nat then "female"
  else "male".

(** The indicators that are in one list only. *)
Definition only (mine others : list string) : list string :=
  List.filter (fun p => negb (Tracking.contains p others)) mine.

End Narrator.

(** ** [RedditScraper.get_reddit_story] (src/main.py, lines 167-292)

    A post is what the listing holds for it, with the values that the
    code reads: a key that the code reads with a default holds that
    default when the listing lacks it, and every post has its title, its
    text and its subreddit.  A request that fails for any reason (the
    network, the status, a body that is not the JSON expected) is a
    listing that is not there. *)

From Stdlib Require Import Sorted Permutation.

Module Scraper.

Record post : Type :=
  { title : string; selftext : string; score : Z; num_comments : Z;
    post_id : string; upvote_ratio : Q; over_18 : bool; stickied : bool;
    subreddit : string; author : string; created_utc : Q }.

(** What the scraper returns. *)
Record content : Type :=
  { c_title : string; c_story : string; c_hashtags : string;
    c_source : string; c_reddit_info : Card.reddit_info }.

(** The collaborators: the listing that the request number [request]
    gets for a subreddit, the draws of the generator at that request, the
    two cleaners (lines 294-329), and the clock. *)
Record world : Type :=
  { fetch : nat -> string -> option (list post);
    draw_subreddit : nat -> nat;
    draw_post : nat -> nat;
    _clean_reddit_title : string -> string;
    _clean_reddit_text : string -> string;
    now : Q }.

(** [sub in s] for two strings. *)
Fixpoint is_in (sub s : string) : bool :=
  String.prefix sub s
  || match s with
     | EmptyString => false
     | String _ rest => is_in sub rest
     end.

(** [topic and any(word in topic.lower() for word in words)]. *)
Definition mentions (words : list string) (topic : string) : bool :=
  negb (Py.is_empty topic)
  && existsb (fun word => is_in word (Tracking.lower topic)) words.

(** [self.subreddits] (lines 125-145). *)
Definition subreddits : list string := ["tifu"; "AmItheAsshole"]%string.

(** Lines 171-186: the subreddits among which the draw is made. *)
Definition subreddits_for (topic : string) : list string :=
  (if mentions ["scary"; "horror"; "ghost"; "creepy"; "paranormal"] topic
   then ["nosleep"; "TrueScaryStories"; "LetsNotMeet"; "paranormal";
         "creepyencounters"; "thetruthishere"]
   else if mentions ["relationship"; "love"; "dating"] topic
   then ["relationship_advice"; "trueoffmychest"]
   else if mentions ["confession"; "secret"; "admit"] topic
   then ["confession"; "trueoffmychest"]
   else if mentions ["revenge"; "justice"; "karma"] topic
   then ["prorevenge"; "maliciouscompliance"; "nuclearrevenge";
         "instantkarma"]
   else if mentions ["work"; "job"; "retail"; "customer"] topic
   then ["talesfromretail"; "talesfromtechsupport"; "idontworkherelady";
         "choosingbeggars"]
   else if mentions ["interesting"; "cool"; "amazing"; "facts"] topic
   then ["todayilearned"; "damnthatsinteresting"; "interestingasfuck";
         "BeAmazed"]
   else if mentions ["science"; "space"; "technology"; "future"] topic
   then ["science"; "space"; "futurology"; "technology"; "askscience"]
   else subreddits)%string.

(** Lines 212-214: the post is skipped as already used. *)
Definition used (avoid_repeats : bool) (used_posts_tracker : list string)
    (p : post) : bool :=
  avoid_repeats && Tracking.contains (post_id p) used_posts_tracker.

(** Lines 217-223. *)
Definition suitable (min_score : Z) (p : post) : bool :=
  (200 <? String.length (selftext p))%nat
  && (String.length (selftext p) <? 5000)%nat
  && (min_score <? score p)
  && (15 <? num_comments p)
  && Py.gt (upvote_ratio p) (84 # 100)
  && negb (over_18 p)
  && negb (stickied p)
  && negb (is_in "[removed]" (selftext p))
  && negb (is_in "[deleted]" (selftext p)).

Definition hooks : list string :=
  [ "secret"; "shocking"; "never"; "why"; "how"; "discovered";
    "truth"; "hidden"; "revealed"; "crazy"; "insane"; "unbelievable";
    "what happened"; "found out"; "ruined"; "saved"; "destroyed" ]%string.

(** Lines 226-234. *)
Definition engagement_score (p : post) : Q :=
  (inject_Z (score p) * 4
   + inject_Z (num_comments p) * 3
   + upvote_ratio p * 1000 * 2
   + (if existsb (fun hook => is_in hook (Tracking.lower (title p))) hooks
      then 1 else 0) * 500)%Q.

(** Lines 203-239: the posts that are kept, in the order of the listing;
    each goes with its [engagement_score]. *)
Definition scored_posts (avoid_repeats : bool)
    (used_posts_tracker : list string) (min_score : Z) (posts : list post)
  : list post :=
  List.filter
    (fun p => negb (used avoid_repeats used_posts_tracker p)
              && suitable min_score p)
    posts.

(** [l.sort(key=key, reverse=True)]: the larger keys first; the sort is
    stable, so that elements with the same key keep their order. *)
Fixpoint insert_desc {A : Type} (key : A -> Q) (x : A) (l : list A)
  : list A :=
  match l with
  | [] => [x]
  | y :: rest =>
      if Py.gt (key y) (key x) then y :: insert_desc key x rest
      else x :: l
  end.

Fixpoint sort_desc {A : Type} (key : A -> Q) (l : list A) : list A :=
  match l with
  | [] => []
  | x :: rest => insert_desc key x (sort_desc key rest)
  end.

(** Lines 253-254: the fifth of the posts with the best scores, one post
    at least. *)
Definition top_posts (scored : list post) : list post :=
  firstn (Nat.max 1 (List.length scored / 5))
    (sort_desc engagement_score scored).

(** [_generate_reddit_hashtags] (lines 331-342). *)
Definition hashtag_map : list (string * string) :=
  [ ("nosleep", "#horror #scary #stories");
    ("tifu", "#fail #funny #storytime");
    ("askreddit", "#askreddit #stories #real");
    ("todayilearned", "#facts #mindblown #education");
    ("letsnotmeet", "#creepy #truecrime #scary");
    ("glitch_in_the_matrix", "#glitch #paranormal #mystery") ]%string.

Definition _generate_reddit_hashtags (subreddit title story : string)
  : string :=
  match List.find (fun entry => String.eqb (fst entry)
                                  (Tracking.lower subreddit))
          hashtag_map with
  | Some entry => snd entry
  | None => "#reddit #stories #real"
  end.

(** Lines 260-288: the content made from the post selected. *)
Definition content_of (w : world) (selected_post : post) : content :=
  let original_title := title selected_post in
  let title := _clean_reddit_title w original_title in
  let story := _clean_reddit_text w (selftext selected_post) in
  let story := Story.truncate_story story in
  let hashtags :=
    _generate_reddit_hashtags (subreddit selected_post) title story in
  {| c_title := title;
     c_story := story;
     c_hashtags := hashtags;
     c_source := "r/" +:+ subreddit selected_post;
     c_reddit_info :=
       <["subreddit"%string := Py.VStr (subreddit selected_post)]>
       (<["author"%string := Py.VStr (author selected_post)]>
       (<["upvotes"%string := Py.VInt (score selected_post)]>
       (<["original_title"%string := Py.VStr original_title]>
       (<["post_id"%string := Py.VStr (post_id selected_post)]>
       (<["comments"%string := Py.VInt (num_comments selected_post)]>
       (<["time_ago"%string :=
            Py.VStr (TimeAgo._format_time_ago (now w)
                       (created_utc selected_post))]> ∅)))))) |}.

Definition failed : Py.outcome content :=
  Py.Raised (Py.OtherError "Reddit scraping failed. Please try again.").

(** [get_reddit_story], at the request number [request].  The function
    calls itself with a lower threshold, or without the avoidance of
    repeats; [fuel] bounds the depth of these calls, and [None] tells
    that it was too small. *)
Fixpoint get_reddit_story_from (fuel : nat) (w : world)
    (used_posts_tracker : list string) (topic : string)
    (avoid_repeats : bool) (min_score : Z) (request : nat)
  : option (Py.outcome content) :=
  match fuel with
  | O => None
  | S fuel =>
      let subreddit :=
        Tracking.choice (draw_subreddit w request) (subreddits_for topic) in
      match fetch w request subreddit with
      | None => Some failed
      | Some posts =>
          let scored :=
            scored_posts avoid_repeats used_posts_tracker min_score posts in
          match scored with
          | [] =>
              if 500 <? min_score then
                get_reddit_story_from fuel w used_posts_tracker topic
                  avoid_repeats (Z.max 500 (min_score / 2)) (S request)
              else if avoid_repeats
                      && negb (Nat.eqb (List.length used_posts_tracker) 0)
              then
                get_reddit_story_from fuel w used_posts_tracker topic
                  false 1000 (S request)
              else Some failed
          | _ =>
              match top_posts scored with
              | [] => Some failed
              | first :: _ =>
                  let top := top_posts scored in
                  let selected :=
                    nth (draw_post w request mod List.length top) top first in
                  Some (Py.Done (content_of w selected))
              end
          end
      end
  end.

(** A depth that is enough for the threshold [min_score]. *)
Definition depth (min_score : Z) : nat :=
  Z.to_nat (Z.log2_up (Z.max 1 min_score)) + 3.

Definition get_reddit_story (w : world) (used_posts_tracker : list string)
    (topic : string) (avoid_repeats : bool) (min_score : Z)
  : option (Py.outcome content) :=
  get_reddit_story_from (depth min_score) w used_posts_tracker topic
    avoid_repeats min_score 0.

End Scraper.

(** ** The comments of an ask post (src/main.py, lines 436-463 of
    [get_ask_post_with_comments] and 653-676 of
    [get_ai_recommended_reddit_post]) *)

Module Comments.

(** An entry of the listing of comments, with its kind; the body and the
    score hold the defaults of the code when the listing lacks them. *)
Record comment : Type :=
  { kind : string; body : string; score : Z; author : string }.

(** What is kept of a comment. *)
Record top_comment : Type :=
  { tc_text : string; tc_score : Z; tc_author : string }.

(** Lines 443-451. *)
Definition good (c : comment) : bool :=
  String.eqb (kind c) "t1"
  && (20 <? String.length (body c))%nat
  && (String.length (body c) <? 2000)%nat
  && (50 <? score c)
  && negb (Scraper.is_in "[removed]" (body c))
  && negb (Scraper.is_in "[deleted]" (body c)).

Definition kept (_clean_reddit_text : string -> string) (c : comment)
  : top_comment :=
  {| tc_text := _clean_reddit_text (body c);
     tc_score := score c;
     tc_author := author c |}.

(** Lines 436-460: the good comments, the best scores first, five at
    most. *)
Definition top_comments (_clean_reddit_text : string -> string)
    (comments_listing : list comment) : list top_comment :=
  let top_comments :=
    map (kept _clean_reddit_text) (List.filter good comments_listing) in
  let top_comments :=
    Scraper.sort_desc (fun c => inject_Z (tc_score c)) top_comments in
  firstn 5 top_comments.

(** Lines 436-484: from the listing to the story; [None] stands for the
    exception raised when no comment is good. *)
Definition story_of (_clean_reddit_text : string -> string)
    (comments_listing : list comment) : option string :=
  Story.ask_story
    (map tc_text (top_comments _clean_reddit_text comments_listing)).

End Comments.

(** ** More concrete inputs *)

Module MoreExamples.

(** [Examples.world_ok] with [_make_safe_filename] for the name of the
    output file. *)
Definition world_safe : Render.world :=
  {| Render.now := Render.now Examples.world_ok;
     Render.output_path := Render.output_path Examples.world_ok;
     Render.config_subtitle_style :=
       Render.config_subtitle_style Examples.world_ok;
     Render.probe_duration := Render.probe_duration Examples.world_ok;
     Render.probe_size := Render.probe_size Examples.world_ok;
     Render.uniform := Render.uniform Examples.world_ok;
     Render.make_safe_filename := SafeName._make_safe_filename;
     Render.transcribe := Render.transcribe Examples.world_ok;
     Render.draw := Render.draw Examples.world_ok;
     Render.writable := Render.writable Examples.world_ok;
     Render.written := Render.written Examples.world_ok;
     Render.run := Render.run Examples.world_ok |}.

Definition content_sky : Render.content :=
  {| Render.title := "Sky: the limit?"; Render.story := "hello big";
     Render.reddit_info := Some (Examples.info_of Examples.title5) |}.

(** A history that holds one video, in a file that can be written. *)
Definition history : Tracking.used_content :=
  <["videos"%string := ["a.mp4"%string]]> Tracking.default_structure.

Definition tracked : Tracking.state :=
  {| Tracking.file := Tracking.Stored history;
     Tracking.write_error := None;
     Tracking.log := [] |}.

(** The same history in a file that cannot be written. *)
Definition read_only : Tracking.state :=
  {| Tracking.file := Tracking.Stored history;
     Tracking.write_error := Some "Permission denied"%string;
     Tracking.log := [] |}.

(** A folder with two videos and a text file. *)
Definition folder : list string :=
  ["a.mp4"%string; "b.MOV"%string; "notes.txt"%string].

(** The history once both videos of [folder] have been used. *)
Definition history_full : Tracking.used_content :=
  <["videos"%string := ["a.mp4"%string; "b.MOV"%string]]>
    Tracking.default_structure.

Definition tracked_full : Tracking.state :=
  {| Tracking.file := Tracking.Stored history_full;
     Tracking.write_error := None;
     Tracking.log := [] |}.

(** A folder with three videos, a folder with one tune, and two runs:
    the first with a post of Reddit, the second with a generated
    story. *)
Definition folder3 : list string :=
  ["a.mp4"%string; "b.MOV"%string; "c.avi"%string; "notes.txt"%string].

Definition tunes : list string := ["s.mp3"%string].

Definition two_rounds : list Tracking.round :=
  [ {| Tracking.from_reddit := true;
       Tracking.post_id := Some "abc123"%string;
       Tracking.pick_video := 0; Tracking.pick_music := 0 |};
    {| Tracking.from_reddit := false;
       Tracking.post_id := None;
       Tracking.pick_video := 5; Tracking.pick_music := 1 |} ].

(** A text of 60 words and 299 characters. *)
Definition long_text : string := Py.join " " (repeat "word"%string 60).

Definition post_of (post_id title : string) (score : Z) : Scraper.post :=
  {| Scraper.title := title; Scraper.selftext := long_text;
     Scraper.score := score; Scraper.num_comments := 40;
     Scraper.post_id := post_id; Scraper.upvote_ratio := 95 # 100;
     Scraper.over_18 := false; Scraper.stickied := false;
     Scraper.subreddit := "tifu"; Scraper.author := "someone";
     Scraper.created_utc := 1000 |}.

(** The first listing has no post over 1000 points; the second has two
    posts over 500.  The cleaners change nothing. *)
Definition reddit : Scraper.world :=
  {| Scraper.fetch := fun request _ =>
       match request with
       | O => Some [post_of "p1" "TIFU by reading" 700]
       | S O => Some [post_of "p1" "TIFU by reading" 700;
                      post_of "p2" "TIFU by writing" 900]
       | _ => None
       end;
     Scraper.draw_subreddit := fun _ => 0%nat;
     Scraper.draw_post := fun _ => 7%nat;
     Scraper._clean_reddit_title := fun title => title;
     Scraper._clean_reddit_text := fun text => text;
     Scraper.now := 4600 |}.

End MoreExamples.

(** * Properties *)

(** ** Truncation *)

Section Truncation.

Local Open Scope Q_scope.

Lemma int_of_float_nonneg (x : Q) :
  0 <= x -> (0 <= Py.int_of_float x)%Z.
Proof.
  intros Hx. unfold Py.int_of_float.
  apply Z.quot_pos; [|lia].
  unfold Qle in Hx. simpl in Hx. lia.
Qed.

(** On a non-negative float, [int] is the floor. *)
Lemma int_of_float_floor (x : Q) :
  0 <= x ->
  inject_Z (Py.int_of_float x) <= x /\ x < inject_Z (Py.int_of_float x) + 1.
Proof.
  intros Hx. destruct x as [n d].
  assert (Hn : (0 <= n)%Z) by (unfold Qle in Hx; simpl in Hx; lia).
  unfold Py.int_of_float; simpl Qnum; simpl Qden.
  rewrite Z.quot_div_nonneg by lia.
  pose proof (Z.div_mod n (Z.pos d) ltac:(lia)) as E.
  pose proof (Z.mod_pos_bound n (Z.pos d) ltac:(lia)) as B.
  split.
  - unfold Qle, inject_Z; simpl. nia.
  - unfold Qlt, Qplus, inject_Z; simpl. nia.
Qed.

(** [int] is odd: it truncates toward zero on both sides. *)
Lemma int_of_float_opp (x : Q) :
  Py.int_of_float (- x) = (- Py.int_of_float x)%Z.
Proof.
  destruct x as [n d]. unfold Py.int_of_float, Qopp; simpl.
  apply Z.quot_opp_l. lia.
Qed.

(** Truncation moves a float by less than one. *)
Lemma int_of_float_close (x : Q) :
  Qabs.Qabs (x - inject_Z (Py.int_of_float x)) < 1.
Proof.
  destruct (Qlt_le_dec x 0) as [Hneg | Hpos].
  - assert (H0 : 0 <= - x).
    { apply (Qopp_le_compat x 0). apply Qlt_le_weak, Hneg. }
    destruct (int_of_float_floor (- x) H0) as [L U].
    rewrite int_of_float_opp in L, U.
    rewrite inject_Z_opp in L, U.
    apply Qabs.Qabs_Qlt_condition. split; Lqa.lra.
  - destruct (int_of_float_floor x Hpos) as [L U].
    apply Qabs.Qabs_Qlt_condition. split; Lqa.lra.
Qed.

Lemma int_of_float_whole (n : Z) : Py.int_of_float (inject_Z n) = n.
Proof. unfold Py.int_of_float; simpl. apply Z.quot_1_r. Qed.

End Truncation.

(** ** binary64 *)

Section FloatProperties.

Local Open Scope Q_scope.

Local Abbreviation eps := Py.machine_epsilon.

Lemma pow2_pos (q : Z) : 0 < 2 ^ q.
Proof. apply Qpower_0_lt. reflexivity. Qed.

Lemma pow2_plus (a b : Z) : 2 ^ (a + b) == 2 ^ a * 2 ^ b.
Proof. apply Qpower_plus. discriminate. Qed.

Lemma pow2_of_Z (a : Z) : (0 <= a)%Z -> inject_Z (2 ^ a) == 2 ^ a.
Proof. intros Ha. now rewrite Zpower_Qpower. Qed.

(** [ilog2] is not above the logarithm. *)
Lemma ilog2_le (x : Q) : 0 < x -> 2 ^ Py.ilog2 x <= x.
Proof.
  intros Hx. unfold Py.ilog2.
  set (a := Z.log2 (Qnum x)). set (b := Z.log2 (Z.pos (Qden x))).
  destruct (Qle_bool (2 ^ (a - b)) x) eqn:E; [now apply Qle_bool_iff|].
  assert (Hn : (0 < Qnum x)%Z).
  { destruct x as [n d]. unfold Qlt in Hx. cbn in *. lia. }
  destruct (Z.log2_spec (Qnum x) Hn) as [Ha _]. fold a in Ha.
  destruct (Z.log2_spec (Z.pos (Qden x)) ltac:(lia)) as [_ Hb]. fold b in Hb.
  assert (Ha0 : (0 <= a)%Z) by apply Z.log2_nonneg.
  assert (Hb0 : (0 <= b)%Z) by apply Z.log2_nonneg.
  replace (a - b - 1)%Z with (a + - (b + 1))%Z by lia.
  rewrite pow2_plus, Qpower_opp.
  rewrite <- (pow2_of_Z a) by lia. rewrite <- (pow2_of_Z (b + 1)) by lia.
  assert (Ex : x == inject_Z (Qnum x) / inject_Z (Z.pos (Qden x))).
  { destruct x as [n d]. cbn. apply Qmake_Qdiv. }
  rewrite Ex.
  assert (H1 : inject_Z (2 ^ a) <= inject_Z (Qnum x)) by now rewrite <- Zle_Qle.
  assert (H2 : inject_Z (Z.pos (Qden x)) <= inject_Z (2 ^ (b + 1))).
  { rewrite <- Zle_Qle. replace (b + 1)%Z with (Z.succ b) by lia. lia. }
  assert (H3 : 0 < inject_Z (Z.pos (Qden x))).
  { replace 0 with (inject_Z 0) by reflexivity. rewrite <- Zlt_Qlt. lia. }
  assert (H4 : 0 <= inject_Z (2 ^ a)).
  { replace 0 with (inject_Z 0) by reflexivity. rewrite <- Zle_Qle.
    apply Z.pow_nonneg. lia. }
  set (A := inject_Z (2 ^ a)) in *. set (N := inject_Z (Qnum x)) in *.
  set (D := inject_Z (Z.pos (Qden x))) in *.
  set (B := inject_Z (2 ^ (b + 1))) in *.
  assert (HB : 0 < B) by (eapply Qlt_le_trans; eassumption).
  apply Qle_shift_div_l; [exact H3|].
  apply Qle_trans with (A * / B * B).
  - apply Qmult_le_compat_nonneg.
    + split; [|apply Qle_refl].
      apply Qmult_le_0_compat; [exact H4|].
      apply Qlt_le_weak, Qinv_lt_0_compat, HB.
    + split; [now apply Qlt_le_weak|exact H2].
  - rewrite <- Qmult_assoc, (Qmult_comm (/ B)), Qmult_inv_r, Qmult_1_r;
      [exact H1|].
    intros E0. rewrite E0 in HB. discriminate.
Qed.

Lemma round_half_even_close (y : Q) :
  Qabs (inject_Z (Py.round_half_even y) - y) <= 1 # 2.
Proof.
  unfold Py.round_half_even.
  pose proof (Qfloor_le y) as L. pose proof (Qlt_floor y) as U.
  rewrite inject_Z_plus in U. change (inject_Z 1) with 1 in U.
  set (f := Qfloor y) in *.
  apply Qabs_Qle_condition.
  destruct (Qcompare_spec (y - inject_Z f) (1 # 2)) as [E|E|E].
  - destruct (Z.even f); [|rewrite inject_Z_plus; change (inject_Z 1) with 1];
      split; Lqa.lra.
  - split; Lqa.lra.
  - rewrite inject_Z_plus. change (inject_Z 1) with 1. split; Lqa.lra.
Qed.

Lemma round64_pos_close (x : Q) :
  0 < x ->
  Qabs (Py.round64_pos x - x) <= x * 2 ^ (-53) + 2 ^ (-1075).
Proof.
  intros Hx. unfold Py.round64_pos.
  set (q := Z.max (Py.ilog2 x - 52) (-1074)).
  pose proof (pow2_pos q) as Hu. set (ulp := 2 ^ q) in *.
  pose proof (round_half_even_close (x / ulp)) as Hm.
  set (m := inject_Z (Py.round_half_even (x / ulp))) in *.
  assert (Hhalf : Qabs (m * ulp - x) <= ulp * (1 # 2)).
  { assert (E : m * ulp - x == (m - x / ulp) * ulp).
    { field. intros E0. rewrite E0 in Hu. discriminate. }
    rewrite E, Qabs_Qmult, (Qabs_pos ulp) by now apply Qlt_le_weak.
    rewrite (Qmult_comm ulp).
    apply Qmult_le_compat_r; [exact Hm|now apply Qlt_le_weak]. }
  eapply Qle_trans; [exact Hhalf|].
  pose proof (pow2_pos (-1075)) as He. pose proof (pow2_pos (-53)) as Hd.
  assert (Hxe : 0 <= x * 2 ^ (-53)).
  { apply Qmult_le_0_compat; now apply Qlt_le_weak. }
  unfold ulp, q.
  destruct (Z.max_spec (Py.ilog2 x - 52) (-1074)) as [[_ ->]|[_ ->]].
  - change (2 ^ (-1074) * (1 # 2)) with (2 ^ (-1074) * 2 ^ (-1)).
    rewrite <- pow2_plus. change (-1074 + -1)%Z with (-1075)%Z. Lqa.lra.
  - change (1 # 2) with (2 ^ (-1)). rewrite <- pow2_plus.
    replace (Py.ilog2 x - 52 + -1)%Z with (Py.ilog2 x + -53)%Z by lia.
    rewrite pow2_plus.
    pose proof (ilog2_le x Hx) as Hl.
    assert (H : 2 ^ Py.ilog2 x * 2 ^ (-53) <= x * 2 ^ (-53)).
    { apply Qmult_le_compat_r; [exact Hl|now apply Qlt_le_weak]. }
    Lqa.lra.
Qed.

(** The rounding error of a double: half a unit in the last place. *)
Lemma round64_close (x : Q) :
  Qabs (Py.round64 x - x) <= Qabs x * 2 ^ (-53) + 2 ^ (-1075).
Proof.
  pose proof (pow2_pos (-1075)) as He. pose proof (pow2_pos (-53)) as Hd.
  unfold Py.round64. destruct x as [[|p|p] d].
  - cbn [Qnum]. apply Qle_trans with 0.
    + unfold Qle. cbn. lia.
    + pose proof (Qabs_nonneg (0 # d)) as Ha.
      assert (H : 0 <= Qabs (0 # d) * 2 ^ (-53)).
      { apply Qmult_le_0_compat; [exact Ha|now apply Qlt_le_weak]. }
      Lqa.lra.
  - cbn [Qnum]. rewrite Qred_correct.
    rewrite (Qabs_pos (Z.pos p # d)) by (unfold Qle; cbn; lia).
    apply round64_pos_close. reflexivity.
  - cbn [Qnum]. rewrite Qred_correct.
    assert (Hn : 0 < - (Z.neg p # d)) by reflexivity.
    pose proof (round64_pos_close _ Hn) as H.
    rewrite (Qabs_neg (Z.neg p # d)) by (unfold Qle; cbn; lia).
    assert (E : - Py.round64_pos (- (Z.neg p # d)) - (Z.neg p # d)
                == - (Py.round64_pos (- (Z.neg p # d)) - - (Z.neg p # d)))
      by ring.
    rewrite E, Qabs_opp. exact H.
Qed.

Lemma eps_small : 0 < eps /\ eps <= 1 # 1000.
Proof. split; [reflexivity|]. unfold Qle. vm_compute. discriminate. Qed.

Lemma pow2_le (a b : Z) : (a <= b)%Z -> 2 ^ a <= 2 ^ b.
Proof.
  intros H. replace b with (a + (b - a))%Z by lia. rewrite pow2_plus.
  rewrite <- (Qmult_1_r (2 ^ a)) at 1.
  apply Qmult_le_l; [apply pow2_pos|].
  apply Qpower_1_le; [discriminate|lia].
Qed.

(** The relative error of a double in the normal range. *)
Lemma round64_rel (x : Q) :
  2 ^ (-1022) <= x ->
  x * (1 - eps) <= Py.round64 x /\ Py.round64 x <= x * (1 + eps).
Proof.
  intros Hx. pose proof (pow2_pos (-1022)) as Hp.
  assert (H0 : 0 < x) by (eapply Qlt_le_trans; eassumption).
  pose proof (round64_close x) as H.
  rewrite (Qabs_pos x) in H by now apply Qlt_le_weak.
  assert (He : 2 ^ (-1075) <= x * 2 ^ (-53)).
  { change (-1075)%Z with (-1022 + -53)%Z. rewrite pow2_plus.
    apply Qmult_le_compat_r; [exact Hx|]. apply Qlt_le_weak, pow2_pos. }
  assert (E : x * eps == x * 2 ^ (-53) + x * 2 ^ (-53)).
  { unfold Py.machine_epsilon. change (-52)%Z with (-53 + 1)%Z.
    rewrite pow2_plus. change (2 ^ 1) with 2. ring. }
  apply Qabs_Qle_condition in H. destruct H as [L U].
  set (y := x * 2 ^ (-53)) in *. set (z := 2 ^ (-1075)) in *.
  set (xe := x * eps) in *.
  split.
  - assert (G : x * (1 - eps) == x - xe) by (unfold xe; ring).
    rewrite G. Lqa.lra.
  - assert (G : x * (1 + eps) == x + xe) by (unfold xe; ring).
    rewrite G. Lqa.lra.
Qed.

(** A quotient of two numbers known up to a factor. *)
Lemma quotient_rel (e a b fa fb : Q) :
  0 < e -> e <= 1 # 1000 -> 0 < a -> 0 < b ->
  a * (1 - e) <= fa -> fa <= a * (1 + e) ->
  b * (1 - e) <= fb -> fb <= b * (1 + e) ->
  0 < fb
  /\ a / b * (1 - 3 * e) <= fa / fb /\ fa / fb <= a / b * (1 + 3 * e).
Proof.
  intros He He' Ha Hb La Ua Lb Ub.
  assert (Hfb : 0 < fb).
  { eapply Qlt_le_trans; [|exact Lb].
    apply Qmult_lt_0_compat; [exact Hb|Lqa.lra]. }
  split; [exact Hfb|].
  assert (Hab : 0 < a / b).
  { apply Qlt_shift_div_l; [exact Hb|]. Lqa.lra. }
  assert (Eab : a / b * b == a).
  { field. intros E. rewrite E in Hb. discriminate. }
  set (x := a / b) in *.
  split.
  - apply Qle_shift_div_l; [exact Hfb|].
    (* x (1 - 3e) fb <= x (1 - 3e) b (1 + e) <= x b (1 - e) = a (1 - e) <= fa *)
    apply Qle_trans with (x * (1 - 3 * e) * (b * (1 + e))).
    + apply Qmult_le_l; [|exact Ub].
      apply Qmult_lt_0_compat; [exact Hab|Lqa.lra].
    + apply Qle_trans with (a * (1 - e)); [|exact La].
      rewrite <- Eab.
      assert (E : x * (1 - 3 * e) * (b * (1 + e))
                  == x * b * ((1 - 3 * e) * (1 + e))) by ring.
      rewrite E. apply Qmult_le_l.
      * apply Qmult_lt_0_compat; assumption.
      * assert (H : 0 <= e * e) by (apply Qmult_le_0_compat; Lqa.lra).
        set (ee := e * e) in *.
        assert (E2 : (1 - 3 * e) * (1 + e) == 1 - 2 * e - 3 * ee)
          by (unfold ee; ring).
        rewrite E2. Lqa.lra.
  - apply Qle_shift_div_r; [exact Hfb|].
    apply Qle_trans with (a * (1 + e)); [exact Ua|].
    apply Qle_trans with (x * (1 + 3 * e) * (b * (1 - e))).
    + rewrite <- Eab.
      assert (E : x * (1 + 3 * e) * (b * (1 - e))
                  == x * b * ((1 + 3 * e) * (1 - e))) by ring.
      rewrite E. apply Qmult_le_l.
      * apply Qmult_lt_0_compat; assumption.
      * assert (H : e * e <= e * (1 # 1000)).
        { apply Qmult_le_l; assumption. }
        set (ee := e * e) in *.
        assert (E2 : (1 + 3 * e) * (1 - e) == 1 + 2 * e - 3 * ee)
          by (unfold ee; ring).
        rewrite E2. Lqa.lra.
    + apply Qmult_le_l; [|exact Lb].
      apply Qmult_lt_0_compat; [exact Hab|Lqa.lra].
Qed.

(** The float quotient of two numbers of a moderate size, up to a
    factor. *)
Lemma fdiv_rel (a b : Q) :
  2 ^ (-500) <= a -> a <= 2 ^ 500 -> 2 ^ (-500) <= b -> b <= 2 ^ 500 ->
  a / b * (1 - 5 * eps) <= Py.fdiv a b
  /\ Py.fdiv a b <= a / b * (1 + 5 * eps).
Proof.
  intros La Ua Lb Ub. destruct eps_small as [He He'].
  pose proof (pow2_pos (-500)) as Hp.
  assert (Ha : 0 < a) by exact (Qlt_le_trans _ _ _ Hp La).
  assert (Hb : 0 < b) by exact (Qlt_le_trans _ _ _ Hp Lb).
  assert (Hs : 2 ^ (-1022) <= 2 ^ (-500)) by (apply pow2_le; lia).
  destruct (round64_rel a (Qle_trans _ _ _ Hs La)) as [La' Ua'].
  destruct (round64_rel b (Qle_trans _ _ _ Hs Lb)) as [Lb' Ub'].
  destruct (quotient_rel eps a b _ _ He He' Ha Hb La' Ua' Lb' Ub')
    as (Hfb & Lq & Uq).
  unfold Py.fdiv.
  set (r := Py.round64 a / Py.round64 b) in *.
  assert (Hab : 2 ^ (-1000) <= a / b).
  { apply Qle_shift_div_l; [exact Hb|].
    apply Qle_trans with (2 ^ (-1000) * 2 ^ 500).
    - apply Qmult_le_l; [apply pow2_pos|exact Ub].
    - rewrite <- pow2_plus. exact La. }
  pose proof (pow2_pos (-1000)) as Hp2.
  set (x := a / b) in *.
  assert (Hr : 2 ^ (-1022) <= r).
  { apply Qle_trans with (x * (1 - 3 * eps)); [|exact Lq].
    apply Qle_trans with (2 ^ (-1000) * (1 # 2)).
    - change (1 # 2) with (2 ^ (-1)). rewrite <- pow2_plus.
      apply pow2_le. lia.
    - apply Qle_trans with (x * (1 # 2)).
      + apply Qmult_le_compat_r; [exact Hab|discriminate].
      + apply Qmult_le_l; [Lqa.lra|Lqa.lra]. }
  destruct (round64_rel r Hr) as [L U].
  assert (Hx : 0 < x) by Lqa.lra.
  assert (Hee : 0 <= eps * eps) by (apply Qmult_le_0_compat; Lqa.lra).
  assert (Hee' : eps * eps <= eps * (1 # 1000))
    by (apply Qmult_le_l; assumption).
  split.
  - eapply Qle_trans; [|exact L].
    apply Qle_trans with (x * (1 - 3 * eps) * (1 - eps)).
    + assert (E : x * (1 - 3 * eps) * (1 - eps)
                  == x * ((1 - 3 * eps) * (1 - eps))) by ring.
      rewrite E. apply Qmult_le_l; [exact Hx|].
      assert (E2 : (1 - 3 * eps) * (1 - eps) == 1 - 4 * eps + 3 * (eps * eps))
        by ring.
      rewrite E2. set (ee := eps * eps) in *. Lqa.lra.
    + apply Qmult_le_compat_r; [exact Lq|Lqa.lra].
  - eapply Qle_trans; [exact U|].
    apply Qle_trans with (x * (1 + 3 * eps) * (1 + eps)).
    + apply Qmult_le_compat_r; [exact Uq|Lqa.lra].
    + assert (E : x * (1 + 3 * eps) * (1 + eps)
                  == x * ((1 + 3 * eps) * (1 + eps))) by ring.
      rewrite E. apply Qmult_le_l; [exact Hx|].
      assert (E2 : (1 + 3 * eps) * (1 + eps) == 1 + 4 * eps + 3 * (eps * eps))
        by ring.
      rewrite E2. set (ee := eps * eps) in *. Lqa.lra.
Qed.

Lemma fdiv_zero (b : Q) : Py.fdiv 0 b = 0.
Proof. reflexivity. Qed.

(** Two factors near one, one after the other. *)
Lemma factor_up (e al be x y z : Q) :
  0 < e -> e <= 1 # 1000 -> 0 <= al -> al <= 30 -> 0 <= be -> be <= 30 ->
  0 <= z ->
  x <= y * (1 + al * e) -> y <= z * (1 + be * e) ->
  x <= z * (1 + (al + be + 1) * e).
Proof.
  intros He He' Ha Ha' Hb Hb' Hz H1 H2.
  apply Qle_trans with (z * (1 + be * e) * (1 + al * e)).
  - eapply Qle_trans; [exact H1|].
    apply Qmult_le_compat_r; [exact H2|].
    assert (0 <= al * e) by (apply Qmult_le_0_compat; Lqa.lra). Lqa.lra.
  - assert (E : z * (1 + be * e) * (1 + al * e)
                == z * (1 + (al + be) * e + al * be * e * e)) by ring.
    rewrite E.
    assert (E2 : z * (1 + (al + be + 1) * e)
                 == z * (1 + (al + be) * e + e)) by ring.
    rewrite E2.
    assert (Hab : al * be <= 900).
    { apply Qle_trans with (30 * be).
      - apply Qmult_le_compat_r; assumption.
      - Lqa.lra. }
    assert (Hab0 : 0 <= al * be) by (apply Qmult_le_0_compat; assumption).
    assert (H : al * be * e * e <= e).
    { assert (H3 : al * be * e <= 900 * (1 # 1000)).
      { apply Qle_trans with (900 * e).
        - apply Qmult_le_compat_r; [exact Hab|Lqa.lra].
        - Lqa.lra. }
      assert (H4 : al * be * e * e <= (900 * (1 # 1000)) * e).
      { apply Qmult_le_compat_r; [exact H3|Lqa.lra]. }
      Lqa.lra. }
    destruct (Qle_lt_or_eq _ _ Hz) as [Hz'|Hz'].
    + apply Qmult_le_l; [exact Hz'|]. set (t := al * be * e * e) in *.
      Lqa.lra.
    + rewrite <- Hz'. Lqa.lra.
Qed.

Lemma factor_down (e al be x y z : Q) :
  0 < e -> e <= 1 # 1000 -> 0 <= al -> al <= 30 -> 0 <= be -> be <= 30 ->
  0 <= z ->
  y * (1 - al * e) <= x -> z * (1 - be * e) <= y ->
  z * (1 - (al + be) * e) <= x.
Proof.
  intros He He' Ha Ha' Hb Hb' Hz H1 H2.
  apply Qle_trans with (z * (1 - be * e) * (1 - al * e)).
  - assert (E : z * (1 - be * e) * (1 - al * e)
                == z * (1 - (al + be) * e + al * be * e * e)) by ring.
    rewrite E.
    assert (H : 0 <= al * be * e * e).
    { repeat apply Qmult_le_0_compat; Lqa.lra. }
    destruct (Qle_lt_or_eq _ _ Hz) as [Hz'|Hz'].
    + apply Qmult_le_l; [exact Hz'|]. set (t := al * be * e * e) in *.
      Lqa.lra.
    + rewrite <- Hz'. Lqa.lra.
  - eapply Qle_trans; [|exact H1].
    apply Qmult_le_compat_r; [exact H2|].
    assert (al * e <= 30 * (1 # 1000)).
    { apply Qle_trans with (30 * e).
      - apply Qmult_le_compat_r; Lqa.lra.
      - Lqa.lra. }
    Lqa.lra.
Qed.

(** Dividing by a number near [1 / S] is multiplying by a number near
    [S]. *)
Lemma inverse_rel (e S y c : Q) :
  0 < e -> e <= 1 # 1000 -> 0 < S -> 0 <= c ->
  1 / S * (1 - 5 * e) <= y -> y <= 1 / S * (1 + 5 * e) ->
  0 < y /\ c * S * (1 - 5 * e) <= c / y /\ c / y <= c * S * (1 + 10 * e).
Proof.
  intros He He' HS Hc Ly Uy.
  assert (HiS : 0 < 1 / S) by (apply Qlt_shift_div_l; [exact HS|Lqa.lra]).
  assert (Hy : 0 < y).
  { eapply Qlt_le_trans; [|exact Ly].
    apply Qmult_lt_0_compat; [exact HiS|Lqa.lra]. }
  assert (ES : S * (1 / S) == 1).
  { field. intros E. rewrite E in HS. discriminate. }
  assert (Hee : 0 <= e * e) by (apply Qmult_le_0_compat; Lqa.lra).
  assert (Hee' : e * e <= e * (1 # 1000)) by (apply Qmult_le_l; assumption).
  split; [exact Hy|]. split.
  - apply Qle_shift_div_l; [exact Hy|].
    apply Qle_trans with (c * S * (1 - 5 * e) * (1 / S * (1 + 5 * e))).
    + destruct (Qle_lt_or_eq _ _ Hc) as [Hc'|Hc'].
      * apply Qmult_le_l; [|exact Uy].
        apply Qmult_lt_0_compat; [|Lqa.lra].
        apply Qmult_lt_0_compat; assumption.
      * rewrite <- Hc'. Lqa.lra.
    + assert (E : c * S * (1 - 5 * e) * (1 / S * (1 + 5 * e))
                  == c * (S * (1 / S)) * (1 - 25 * (e * e))) by ring.
      rewrite E, ES. set (ee := e * e) in *.
      assert (E2 : c * 1 * (1 - 25 * ee) == c - c * (25 * ee)) by ring.
      rewrite E2.
      assert (0 <= c * (25 * ee)) by (apply Qmult_le_0_compat; Lqa.lra).
      Lqa.lra.
  - apply Qle_shift_div_r; [exact Hy|].
    apply Qle_trans with (c * S * (1 + 10 * e) * (1 / S * (1 - 5 * e))).
    + assert (E : c * S * (1 + 10 * e) * (1 / S * (1 - 5 * e))
                  == c * (S * (1 / S)) * (1 + 5 * e - 50 * (e * e))) by ring.
      rewrite E, ES. set (ee := e * e) in *.
      assert (E2 : c * 1 * (1 + 5 * e - 50 * ee)
                   == c + c * (5 * e - 50 * ee)) by ring.
      rewrite E2.
      assert (0 <= c * (5 * e - 50 * ee))
        by (apply Qmult_le_0_compat; Lqa.lra).
      Lqa.lra.
    + destruct (Qle_lt_or_eq _ _ Hc) as [Hc'|Hc'].
      * apply Qmult_le_l; [|exact Ly].
        apply Qmult_lt_0_compat; [|Lqa.lra].
        apply Qmult_lt_0_compat; assumption.
      * rewrite <- Hc'. Lqa.lra.
Qed.

End FloatProperties.

(** ** The centre crop *)

Section CropProperties.

Import Crop.

Lemma wide_iff (width height : Z) :
  (0 < height)%Z ->
  Py.gt (inject_Z width / inject_Z height) target_ratio = true
  <-> (target_ratio < inject_Z width / inject_Z height)%Q.
Proof.
  intros Hh. unfold Py.gt. rewrite Bool.negb_true_iff.
  split.
  - intros Hb. apply Qnot_le_lt. intros Hle.
    apply Qle_bool_iff in Hle. congruence.
  - intros Hlt. destruct (Qle_bool _ _) eqn:E; [|reflexivity].
    apply Qle_bool_iff in E. exfalso. apply (Qlt_not_le _ _ Hlt E).
Qed.

Lemma wide_cross (width height : Z) :
  (0 < height)%Z ->
  (target_ratio < inject_Z width / inject_Z height)%Q
  <-> (9 * height < 16 * width)%Z.
Proof.
  intros Hh. destruct height as [|p|p]; try lia.
  unfold target_ratio, Qlt, Qdiv, Qmult, Qinv, inject_Z; simpl.
  lia.
Qed.

Lemma new_width_floor (height : Z) :
  (0 <= height)%Z ->
  Py.int_of_float (inject_Z height * target_ratio) = (9 * height / 16)%Z.
Proof.
  intros Hh. unfold Py.int_of_float, target_ratio, Qmult, inject_Z; simpl.
  rewrite Z.quot_div_nonneg by lia. f_equal. lia.
Qed.

Lemma new_height_floor (width : Z) :
  (0 <= width)%Z ->
  Py.int_of_float (inject_Z width / target_ratio) = (16 * width / 9)%Z.
Proof.
  intros Hw.
  unfold Py.int_of_float, target_ratio, Qdiv, Qmult, Qinv, inject_Z; simpl.
  rewrite Z.quot_div_nonneg by lia. f_equal. lia.
Qed.

(** The claim as written fails on its own example: a 1920x1080 source is
    cropped to 607 columns, not to 1080 x 9/16 = 607.5, and the margins
    are 656 and 657. *)
Lemma crop_1920x1080_is_not_exact :
  exists c,
    crop_for 1920 1080 = Py.Done c
    /\ out_w c = 607
    /\ ~ (inject_Z (out_w c) == inject_Z 1080 * (9 # 16))%Q
    /\ left_margin c = 656 /\ right_margin 1920 c = 657
    /\ left_margin c <> right_margin 1920 c.
Proof.
  eexists. split; [vm_compute; reflexivity|].
  repeat split; try (vm_compute; congruence).
Qed.

(** C5 (amended).  For a source of width [W] and height [H]: when
    W/H > 9/16 the crop keeps the full height and a width of
    floor(H x 9/16), at x = floor((W - width)/2); otherwise it keeps the
    full width and a height of floor(W / (9/16)), at
    y = floor((H - height)/2).  The two margins differ by at most one
    pixel, the second never the smaller. *)
Theorem crop_is_floor_and_centered (W H : Z) :
  (0 < W)%Z -> (0 < H)%Z ->
  exists c,
    crop_for W H = Py.Done c
    /\ ((target_ratio < inject_Z W / inject_Z H)%Q ->
        out_h c = H /\ crop_y c = 0
        /\ (inject_Z (out_w c) <= inject_Z H * (9 # 16))%Q
        /\ (inject_Z H * (9 # 16) < inject_Z (out_w c) + 1)%Q
        /\ crop_x c = (W - out_w c) / 2
        /\ 0 <= left_margin c <= right_margin W c
        /\ right_margin W c <= left_margin c + 1)
    /\ (~ (target_ratio < inject_Z W / inject_Z H)%Q ->
        out_w c = W /\ crop_x c = 0
        /\ (inject_Z (out_h c) <= inject_Z W / (9 # 16))%Q
        /\ (inject_Z W / (9 # 16) < inject_Z (out_h c) + 1)%Q
        /\ crop_y c = (H - out_h c) / 2
        /\ 0 <= top_margin c <= bottom_margin H c
        /\ bottom_margin H c <= top_margin c + 1).
Proof.
  intros HW HH. unfold crop_for.
  destruct (H =? 0) eqn:E0; [apply Z.eqb_eq in E0; lia|].
  destruct (Py.gt (inject_Z W / inject_Z H) target_ratio) eqn:Eg.
  - apply wide_iff in Eg; [|exact HH].
    pose proof (proj1 (wide_cross W H HH) Eg) as Hc.
    eexists. split; [reflexivity|]. split; [|intros Hn; contradiction].
    intros _. unfold left_margin, right_margin; simpl.
    assert (H0 : (0 <= inject_Z H * (9 # 16))%Q).
    { unfold Qle, Qmult, inject_Z; simpl. lia. }
    destruct (int_of_float_floor _ H0) as [L U].
    fold target_ratio in L, U |- *.
    rewrite new_width_floor in * by lia.
    repeat split; try assumption; try reflexivity.
    all: pose proof (Z.div_mod (9 * H) 16 ltac:(lia));
         pose proof (Z.mod_pos_bound (9 * H) 16 ltac:(lia));
         pose proof (Z.div_mod (W - 9 * H / 16) 2 ltac:(lia));
         pose proof (Z.mod_pos_bound (W - 9 * H / 16) 2 ltac:(lia)); lia.
  - assert (Hn : ~ (target_ratio < inject_Z W / inject_Z H)%Q).
    { intros Hlt. apply wide_iff in Hlt; [congruence|exact HH]. }
    assert (Hc : (16 * W <= 9 * H)%Z).
    { destruct (Z_lt_le_dec (9 * H) (16 * W)) as [Hlt|Hle]; [|exact Hle].
      exfalso. apply Hn. apply wide_cross; assumption. }
    eexists. split; [reflexivity|]. split; [intros Hy; contradiction|].
    intros _. unfold top_margin, bottom_margin; simpl.
    assert (H0 : (0 <= inject_Z W / (9 # 16))%Q).
    { unfold Qle, Qdiv, Qmult, Qinv, inject_Z; simpl. lia. }
    destruct (int_of_float_floor _ H0) as [L U].
    fold target_ratio in L, U |- *.
    rewrite new_height_floor in * by lia.
    repeat split; try assumption; try reflexivity.
    all: pose proof (Z.div_mod (16 * W) 9 ltac:(lia));
         pose proof (Z.mod_pos_bound (16 * W) 9 ltac:(lia));
         pose proof (Z.div_mod (H - 16 * W / 9) 2 ltac:(lia));
         pose proof (Z.mod_pos_bound (H - 16 * W / 9) 2 ltac:(lia)); lia.
Qed.

Lemma crop_is_floor_and_centered_1920x1080 :
  exists c,
    crop_for 1920 1080 = Py.Done c
    /\ ((target_ratio < inject_Z 1920 / inject_Z 1080)%Q ->
        out_h c = 1080 /\ crop_y c = 0
        /\ (inject_Z (out_w c) <= inject_Z 1080 * (9 # 16))%Q
        /\ (inject_Z 1080 * (9 # 16) < inject_Z (out_w c) + 1)%Q
        /\ crop_x c = (1920 - out_w c) / 2
        /\ 0 <= left_margin c <= right_margin 1920 c
        /\ right_margin 1920 c <= left_margin c + 1)
    /\ (~ (target_ratio < inject_Z 1920 / inject_Z 1080)%Q ->
        out_w c = 1920 /\ crop_x c = 0
        /\ (inject_Z (out_h c) <= inject_Z 1920 / (9 # 16))%Q
        /\ (inject_Z 1920 / (9 # 16) < inject_Z (out_h c) + 1)%Q
        /\ crop_y c = (1080 - out_h c) / 2
        /\ 0 <= top_margin c <= bottom_margin 1080 c
        /\ bottom_margin 1080 c <= top_margin c + 1).
Proof.
  apply (crop_is_floor_and_centered 1920 1080); lia.
Defined.

End CropProperties.

(** ** The overlay card *)

Section CardProperties.

Import Card.

Lemma app_cons (c : ascii) (s t : string) :
  String c s +:+ t = String c (s +:+ t).
Proof. reflexivity. Qed.

Lemma app_nil_l (t : string) : EmptyString +:+ t = t.
Proof. reflexivity. Qed.

Lemma app_empty_r (s : string) : s +:+ EmptyString = s.
Proof.
  induction s as [|c s IH]; [reflexivity|]. now rewrite app_cons, IH.
Qed.

Lemma app_assoc_string (a b c : string) :
  (a +:+ b) +:+ c = a +:+ (b +:+ c).
Proof.
  induction a as [|x a IH]; [reflexivity|]. now rewrite !app_cons, IH.
Qed.

Lemma split_from_word (cur w rest : string) :
  (forall c, In c (list_ascii_of_string w) -> Py.isspace c = false) ->
  Py.split_from cur (w +:+ rest) = Py.split_from (cur +:+ w) rest.
Proof.
  revert cur. induction w as [|c w IH]; intros cur Hw.
  - rewrite app_empty_r. reflexivity.
  - rewrite app_cons. cbn [Py.split_from].
    rewrite (Hw c) by (simpl; auto).
    rewrite IH by (intros d Hd; apply Hw; simpl; auto).
    rewrite app_assoc_string. reflexivity.
Qed.

Lemma is_empty_false (s : string) :
  s <> EmptyString -> Py.is_empty s = false.
Proof. destruct s; [congruence|reflexivity]. Qed.

(** [split] recovers the words of a title written with single spaces, so
    the number of words of such a title is what [len(title.split())]
    counts. *)
Lemma split_join (ws : list string) :
  Forall Py.wordlike ws -> Py.split (Py.join " " ws) = ws.
Proof.
  unfold Py.split. induction 1 as [|w ws [Hne Hw] Hws IH]; [reflexivity|].
  destruct ws as [|w' ws].
  - cbn [Py.join]. rewrite <- (app_empty_r w) at 1.
    rewrite split_from_word by exact Hw. rewrite app_nil_l.
    cbn [Py.split_from]. now rewrite is_empty_false.
  - change (Py.join " " (w :: w' :: ws))
      with (w +:+ " " +:+ Py.join " " (w' :: ws)).
    rewrite split_from_word by exact Hw.
    rewrite app_nil_l, app_cons, app_nil_l. cbn [Py.split_from].
    change (Py.isspace " ") with true. cbn iota.
    rewrite is_empty_false by exact Hne.
    now rewrite IH.
Qed.

Lemma py_max_is_Qmax (a b : Q) : (Py.max a b == Qmax a b)%Q.
Proof.
  unfold Py.max, Py.gt. destruct (Qle_bool b a) eqn:E; simpl.
  - apply Qle_bool_iff in E. symmetry. now apply Q.max_l.
  - symmetry. apply Q.max_r. apply Qlt_le_weak, Qnot_le_lt.
    intros Hle. apply Qle_bool_iff in Hle. congruence.
Qed.

Lemma reading_time_of_spec (title : string) :
  let W := Z.of_nat (List.length (Py.split title)) in
  (reading_time_of title
   == Qmax 3 (inject_Z W / (25 # 10)) + (if 15 <? W then 1 else 0))%Q.
Proof.
  intros W. unfold reading_time_of. fold W.
  destruct (15 <? W); rewrite py_max_is_Qmax; [reflexivity|].
  now rewrite Qplus_0_r.
Qed.

Lemma card_body_done draw now info output_path card_style st title :
  info !! "original_title"%string = Some (Py.VStr title) ->
  draw info output_path card_style = Py.Done tt ->
  fst (_create_reddit_card draw now info output_path card_style st)
  = (Some (card_file output_path now), reading_time_of title).
Proof.
  intros Ht Hd. unfold _create_reddit_card, card_body, title_of, Os.bind,
    Os.lift, Os.effect, Os.ret.
  rewrite Ht, Hd. reflexivity.
Qed.

(** C1.  For a card whose rasterization completes, the reading time
    returned for a title of [W] words is max(3.0, W / 2.5), plus 1.0 when
    W > 15; a 5-word title gives 3.0 and a 20-word title gives 9.0. *)
Theorem reading_time_of_title
    draw now info output_path card_style st title :
  info !! "original_title"%string = Some (Py.VStr title) ->
  draw info output_path card_style = Py.Done tt ->
  let W := Z.of_nat (List.length (Py.split title)) in
  let readingTimeSeconds :=
    snd (fst (_create_reddit_card draw now info output_path card_style st)) in
  (readingTimeSeconds
   == Qmax 3 (inject_Z W / (25 # 10)) + (if 15 <? W then 1 else 0))%Q
  /\ (W = 5 -> (readingTimeSeconds == 3)%Q)
  /\ (W = 20 -> (readingTimeSeconds == 9)%Q).
Proof.
  intros Ht Hd W rt. unfold rt.
  rewrite (card_body_done _ _ _ _ _ _ _ Ht Hd). simpl snd.
  split; [apply reading_time_of_spec|].
  unfold reading_time_of. fold W.
  split; intros ->; vm_compute; reflexivity.
Qed.

End CardProperties.

(** ** Caption tracks *)

Section CaptionProperties.

Import Captions.

(** *** Single-word policy *)

Lemma single_word_events_map (r : whisper_result) :
  single_word_events r = map single_word_event (words_of r).
Proof.
  unfold single_word_events, words_of.
  induction r as [|seg r IH]; [reflexivity|].
  cbn [flat_map]. rewrite map_app, IH.
  destruct (words seg); reflexivity.
Qed.

(** The claim as written fails on a word whose times are not whole
    milliseconds: a word that starts at 1.5 ms gets an event that starts
    at 1 ms. *)
Lemma single_word_event_truncates :
  let w := {| word := " hello"; start := 15 # 10000; end_ := 5 # 10 |} in
  exists e,
    single_word_events [{| words := Some [w] |}] = [e]
    /\ (Py.fmul (start w) 1000 == 3 # 2)%Q
    /\ ev_start e = 1
    /\ ~ (inject_Z (ev_start e) == Py.fmul (start w) 1000)%Q.
Proof.
  eexists. split; [vm_compute; reflexivity|].
  repeat split; vm_compute; congruence.
Qed.

(** The times follow the doubles: for a word at 4.02 s the product is
    just under 4020, and the event starts at 4019 ms.  The text follows
    Latin-1: the e with an acute accent (233) becomes its capital
    (201). *)
Lemma single_word_event_at_4_02 :
  exists e,
    single_word_events Examples.late_word = [e]
    /\ (Py.fmul (402 # 100) 1000 < 4020)%Q
    /\ ev_start e = 4019 /\ ev_end e = 4500
    /\ ev_text e
       = "{\fscx92\fscy92}{\t(0,200,2,\fscx100\fscy100)}CAF"
           +:+ String (ascii_of_nat 201) EmptyString.
Proof.
  eexists. split; [vm_compute; reflexivity|].
  repeat split; vm_compute; reflexivity.
Qed.

(** C3 (amended).  The single-word policy emits exactly one event per
    word, in input order; with startMs and endMs the float products of
    the word's times by 1000, the event of a word starts and ends at
    startMs and endMs truncated toward zero to whole milliseconds (less
    than one millisecond away), and its text is the stripped,
    uppercased word (for a word whose capitals have one-byte characters)
    behind the scale tags, the 200 ms pop transform running from the
    event's start. *)
Theorem single_word_events_spec (r : whisper_result) :
  let ws := words_of r in
  let events := single_word_events r in
  List.length events = List.length ws
  /\ forall (i : nat) (w : word_info),
       ws !! i = Some w ->
       let startMs := Py.fmul (start w) 1000 in
       let endMs := Py.fmul (end_ w) 1000 in
       exists e,
         events !! i = Some e
         /\ ev_start e = Py.int_of_float startMs
         /\ ev_end e = Py.int_of_float endMs
         /\ (Qabs (startMs - inject_Z (ev_start e)) < 1)%Q
         /\ (Qabs (endMs - inject_Z (ev_end e)) < 1)%Q
         /\ (Py.upper_exact (word w) = true ->
             ev_text e
             = "{\fscx92\fscy92}{\t(0,200,2,\fscx100\fscy100)}"
                 +:+ Py.upper (Py.strip (word w))).
Proof.
  intros ws events. unfold events. rewrite single_word_events_map. fold ws.
  split; [apply length_map|].
  intros i w Hi. cbv zeta. exists (single_word_event w).
  split; [rewrite list_lookup_fmap, Hi; reflexivity|].
  repeat split; try apply int_of_float_close.
Qed.


(** *** Three-word grouped policy *)


Lemma range_from_done (fuel i stop : nat) :
  (stop <= i)%nat -> range_from fuel i stop 3 = [].
Proof.
  intros H. destruct fuel; [reflexivity|]. cbn [range_from].
  destruct (Nat.ltb_spec i stop); [lia|reflexivity].
Qed.

Lemma slice3_at (pre ws : list timed_word) :
  slice3 (pre ++ ws) (List.length pre) = firstn 3 ws.
Proof.
  unfold slice3. rewrite skipn_app, Nat.sub_diag, skipn_all. reflexivity.
Qed.

(** The index loop visits the groups of [chunks3]. *)
Lemma groups_from (n : nat) :
  forall (ws pre : list timed_word) (fuel : nat),
    (List.length ws <= n)%nat -> (List.length ws <= fuel)%nat ->
    map (slice3 (pre ++ ws))
        (range_from fuel (List.length pre) (List.length (pre ++ ws)) 3)
    = chunks3 ws.
Proof.
  induction n as [n IH] using lt_wf_ind.
  intros ws pre fuel Hn Hf.
  destruct ws as [|a [|b [|c rest]]].
  - rewrite range_from_done by (rewrite length_app; simpl; lia). reflexivity.
  - destruct fuel as [|fuel]; [simpl in Hf; lia|].
    cbn [range_from].
    destruct (Nat.ltb_spec (List.length pre) (List.length (pre ++ [a])))
      as [_|Hge]; [|rewrite length_app in Hge; simpl in Hge; lia].
    rewrite range_from_done by (rewrite length_app; simpl; lia).
    cbn [map chunks3]. now rewrite slice3_at.
  - destruct fuel as [|fuel]; [simpl in Hf; lia|].
    cbn [range_from].
    destruct (Nat.ltb_spec (List.length pre) (List.length (pre ++ [a; b])))
      as [_|Hge]; [|rewrite length_app in Hge; simpl in Hge; lia].
    rewrite range_from_done by (rewrite length_app; simpl; lia).
    cbn [map chunks3]. now rewrite slice3_at.
  - destruct fuel as [|fuel]; [simpl in Hf; lia|].
    cbn [range_from].
    destruct (Nat.ltb_spec (List.length pre)
                (List.length (pre ++ a :: b :: c :: rest)))
      as [_|Hge]; [|rewrite length_app in Hge; simpl in Hge; lia].
    cbn [map chunks3]. rewrite slice3_at. cbn [firstn]. f_equal.
    replace (pre ++ a :: b :: c :: rest) with ((pre ++ [a; b; c]) ++ rest)
      by (rewrite <- app_assoc; reflexivity).
    replace (List.length pre + 3)%nat with (List.length (pre ++ [a; b; c]))
      by (rewrite length_app; reflexivity).
    apply (IH (List.length rest)); simpl in *; lia.
Qed.

Lemma groups_chunks3 (ws : list timed_word) : groups ws = chunks3 ws.
Proof.
  unfold groups, range.
  apply (groups_from (List.length ws) ws [] (List.length ws)); lia.
Qed.

(** Lists, three elements at a time. *)
Lemma list_ind3 {A : Type} (P : list A -> Prop) :
  P [] -> (forall a, P [a]) -> (forall a b, P [a; b]) ->
  (forall a b c rest, P rest -> P (a :: b :: c :: rest)) ->
  forall l, P l.
Proof.
  intros H0 H1 H2 H3.
  fix rec 1.
  intros [|a [|b [|c rest]]];
    [exact H0 | apply H1 | apply H2 | apply H3, rec].
Qed.

Lemma chunks3_length (ws : list timed_word) :
  List.length (chunks3 ws) = ((List.length ws + 2) / 3)%nat.
Proof.
  induction ws as [| a | a b | a b c rest IH] using list_ind3;
    try reflexivity.
  cbn [chunks3 List.length]. rewrite IH.
  replace (S (S (S (List.length rest))) + 2)%nat
    with ((List.length rest + 2) + 1 * 3)%nat by lia.
  rewrite Nat.div_add by lia. lia.
Qed.

Lemma three_word_events_chunks (ws : list timed_word) :
  three_word_events_of ws = flat_map group_step (chunks3 ws).
Proof. unfold three_word_events_of. now rewrite groups_chunks3. Qed.

Lemma three_word_events_step (a b c : timed_word) rest :
  three_word_events_of (a :: b :: c :: rest)
  = group_events [a; b; c] ++ three_word_events_of rest.
Proof. rewrite !three_word_events_chunks. reflexivity. Qed.

Lemma three_word_events_1 (a : timed_word) :
  three_word_events_of [a] = group_events (pad 3 [a]).
Proof. rewrite three_word_events_chunks. cbn. apply app_nil_r. Qed.

Lemma three_word_events_2 (a b : timed_word) :
  three_word_events_of [a; b] = group_events (pad 3 [a; b]).
Proof. rewrite three_word_events_chunks. cbn. apply app_nil_r. Qed.

Lemma group_events_3 (a b c : timed_word) :
  text a <> EmptyString -> text b <> EmptyString -> text c <> EmptyString ->
  exists t1 t2 t3,
    group_events [a; b; c]
    = [mk (start_ms a) (start_ms b) t1;
       mk (start_ms b) (start_ms c) t2;
       mk (start_ms c) (end_ms c) t3].
Proof.
  intros Ha Hb Hc. apply is_empty_false in Ha, Hb, Hc.
  do 3 eexists. unfold group_events, enumerate. cbn.
  rewrite Ha, Hb, Hc. cbn. reflexivity.
Qed.

Lemma group_events_2 (a b : timed_word) :
  text a <> EmptyString -> text b <> EmptyString ->
  exists t1 t2,
    group_events (pad 3 [a; b])
    = [mk (start_ms a) (start_ms b) t1; mk (start_ms b) (end_ms b) t2].
Proof.
  intros Ha Hb. apply is_empty_false in Ha, Hb.
  do 2 eexists. unfold group_events, enumerate. cbn.
  rewrite Ha, Hb. cbn. reflexivity.
Qed.

Lemma group_events_1 (a : timed_word) :
  text a <> EmptyString ->
  exists t1, group_events (pad 3 [a]) = [mk (start_ms a) (end_ms a) t1].
Proof.
  intros Ha. apply is_empty_false in Ha.
  eexists. unfold group_events, enumerate. cbn.
  rewrite Ha. cbn. reflexivity.
Qed.

Lemma group_events_count (g : list timed_word) :
  (1 <= List.length g <= 3)%nat ->
  List.length (group_events (pad 3 g)) = List.length (spoken g).
Proof.
  intros Hg. destruct g as [|a [|b [|c [|d g]]]]; simpl in Hg; try lia;
    unfold group_events, enumerate, spoken; cbn.
  - destruct (Py.is_empty (text a)); reflexivity.
  - destruct (Py.is_empty (text a)), (Py.is_empty (text b)); reflexivity.
  - destruct (Py.is_empty (text a)), (Py.is_empty (text b)),
      (Py.is_empty (text c)); reflexivity.
Qed.

Lemma three_word_events_count (ws : list timed_word) :
  List.length (three_word_events_of ws) = List.length (spoken ws).
Proof.
  induction ws as [| a | a b | a b c rest IH] using list_ind3.
  - reflexivity.
  - rewrite three_word_events_1. apply group_events_count. simpl; lia.
  - rewrite three_word_events_2. apply group_events_count. simpl; lia.
  - rewrite three_word_events_step, length_app, IH.
    change [a; b; c] with (pad 3 [a; b; c]).
    rewrite group_events_count by (simpl; lia).
    change (a :: b :: c :: rest) with ([a; b; c] ++ rest).
    unfold spoken. rewrite List.filter_app, length_app. reflexivity.
Qed.

Lemma spoken_all (ws : list timed_word) :
  Forall (fun w => text w <> EmptyString) ws -> spoken ws = ws.
Proof.
  induction 1 as [|w ws Hw _ IH]; [reflexivity|].
  unfold spoken in *. cbn [List.filter].
  rewrite (is_empty_false _ Hw). cbn. now rewrite IH.
Qed.

Lemma three_word_windows (ws : list timed_word) :
  Forall (fun w => text w <> EmptyString) ws ->
  forall (i : nat) (w : timed_word),
    ws !! i = Some w ->
    exists e,
      three_word_events_of ws !! i = Some e
      /\ window e = window_spec ws i w.
Proof.
  induction ws as [| a | a b | a b c rest IH] using list_ind3; intros Hall.
  - intros i w Hi. discriminate.
  - inversion Hall as [|? ? Ha _]; subst.
    destruct (group_events_1 a Ha) as [t1 E].
    rewrite three_word_events_1, E.
    intros [|i] w Hi; [|discriminate].
    injection Hi as <-. eexists. split; reflexivity.
  - inversion Hall as [|? ? Ha Hall']; subst.
    inversion Hall' as [|? ? Hb _]; subst.
    destruct (group_events_2 a b Ha Hb) as (t1 & t2 & E).
    rewrite three_word_events_2, E.
    intros [|[|i]] w Hi; try discriminate;
      injection Hi as <-; eexists; split; reflexivity.
  - inversion Hall as [|? ? Ha Hall1]; subst.
    inversion Hall1 as [|? ? Hb Hall2]; subst.
    inversion Hall2 as [|? ? Hc Hall3]; subst.
    destruct (group_events_3 a b c Ha Hb Hc) as (t1 & t2 & t3 & E).
    rewrite three_word_events_step, E.
    intros [|[|[|i]]] w Hi.
    + injection Hi as <-. eexists. split; reflexivity.
    + injection Hi as <-. eexists. split; reflexivity.
    + injection Hi as <-. eexists. split; [reflexivity|].
      unfold window_spec, window. cbn. destruct rest; reflexivity.
    + change ((a :: b :: c :: rest) !! S (S (S i))) with (rest !! i) in Hi.
      destruct (IH Hall3 i w Hi) as (e & He & Hw).
      exists e. split; [exact He|].
      rewrite Hw. unfold window_spec.
      change ((a :: b :: c :: rest) !! S (S (S (S i))))
        with (rest !! S i).
      replace (S (S (S i)) mod 3)%nat with (i mod 3)%nat; [reflexivity|].
      replace (S (S (S i))) with (i + 1 * 3)%nat by lia.
      now rewrite Nat.Div0.mod_add.
Qed.

(** The claim as written fails on a sequence with a blank word and a
    fractional time: three words give two events, the first word's window
    runs to the end of the group instead of to the next word's start,
    and the last word's event starts at 200 ms, not at 200.5 ms. *)
Lemma three_word_blank_and_fraction :
  let ws := all_words Examples.blank_middle in
  exists e1 e2,
    List.length ws = 3%nat
    /\ three_word_events Examples.blank_middle = [e1; e2]
    /\ window e1 = (0, 300)
    /\ (exists next, ws !! 1%nat = Some next
                   /\ ev_end e1 <> Py.int_of_float (start_ms next))
    /\ (exists w, ws !! 2%nat = Some w
                /\ (start_ms w == 401 # 2)%Q
                /\ ev_start e2 = 200
                /\ ~ (inject_Z (ev_start e2) == start_ms w)%Q).
Proof.
  do 2 eexists. split; [reflexivity|].
  split; [vm_compute; reflexivity|].
  split; [reflexivity|].
  split; eexists; (split; [reflexivity|]).
  - vm_compute. congruence.
  - repeat split; vm_compute; congruence.
Qed.

(** C2 (amended).  The grouped policy cuts a sequence of N words into
    ceil(N/3) groups and emits one event per word that has text, so
    exactly N events when no word is blank.  In that case the event of the
    word at index i starts at the word's start and ends at the next
    word's start, or at the word's own end when the word closes its
    group; all times are truncated to whole milliseconds.  Inside a
    group each event therefore ends where the next one starts, and the
    group's events run from its first word's start to its last word's
    end. *)
Theorem three_word_policy_spec (ws : list timed_word) :
  let N := List.length ws in
  let events := three_word_events_of ws in
  List.length (groups ws) = ((N + 2) / 3)%nat
  /\ (N <= 3 * List.length (groups ws) < N + 3)%nat
  /\ List.length events = List.length (spoken ws)
  /\ (Forall (fun w => text w <> EmptyString) ws ->
      List.length events = N
      /\ (forall (i : nat) (w : timed_word),
            ws !! i = Some w ->
            exists e, events !! i = Some e
                      /\ window e = window_spec ws i w)
      /\ (forall (i : nat) (w : timed_word) (e : SSAEvent),
            ws !! i = Some w -> events !! i = Some e ->
            ev_start e = Py.int_of_float (start_ms w)
            /\ ((i mod 3 = 2)%nat \/ ws !! S i = None ->
                ev_end e = Py.int_of_float (end_ms w)))
      /\ (forall (i : nat) (e e' : SSAEvent),
            (i mod 3 <> 2)%nat ->
            events !! i = Some e -> events !! S i = Some e' ->
            ev_end e = ev_start e')).
Proof.
  intros N events.
  assert (HG : List.length (groups ws) = ((N + 2) / 3)%nat).
  { rewrite groups_chunks3. apply chunks3_length. }
  split; [exact HG|]. split.
  { rewrite HG.
    pose proof (Nat.div_mod_eq (N + 2) 3).
    pose proof (Nat.mod_upper_bound (N + 2) 3). lia. }
  split; [apply three_word_events_count|].
  intros Hall.
  assert (HN : List.length events = N).
  { unfold events. rewrite three_word_events_count.
    now rewrite spoken_all. }
  pose proof (three_word_windows ws Hall) as HW.
  split; [exact HN|]. split; [exact HW|]. split.
  - intros i w e Hi He.
    destruct (HW i w Hi) as (e0 & He0 & Hw).
    fold events in He0. rewrite He in He0. injection He0 as <-.
    unfold window, window_spec in Hw.
    pose proof (f_equal fst Hw) as Hs. pose proof (f_equal snd Hw) as Hend.
    cbn [fst snd] in Hs, Hend.
    split; [exact Hs|].
    intros [Hmod | Hnone].
    + rewrite Hend. destruct (ws !! S i); [|reflexivity].
      apply Nat.eqb_eq in Hmod. now rewrite Hmod.
    + rewrite Hend, Hnone. reflexivity.
  - intros i e e' Hmod He He'.
    assert (Hlt : (S i < N)%nat).
    { rewrite <- HN. apply lookup_lt_Some in He'.
      now rewrite length_is_length in He' || exact He'. }
    destruct (lookup_lt_is_Some_2 ws i) as [w Hi];
      [rewrite ?length_is_length; fold N; lia|].
    destruct (lookup_lt_is_Some_2 ws (S i)) as [w' Hi'];
      [rewrite ?length_is_length; fold N; lia|].
    destruct (HW i w Hi) as (e0 & He0 & Hw).
    fold events in He0. rewrite He in He0. injection He0 as <-.
    destruct (HW (S i) w' Hi') as (e1 & He1 & Hw').
    fold events in He1. rewrite He' in He1. injection He1 as <-.
    unfold window, window_spec in Hw, Hw'.
    pose proof (f_equal snd Hw) as Hend. pose proof (f_equal fst Hw') as Hs'.
    cbn [fst snd] in Hs', Hend.
    rewrite Hend, Hi', Hs'.
    apply Nat.eqb_neq in Hmod. now rewrite Hmod.
Qed.

Lemma three_word_policy_four_words :
  let events := three_word_events_of Examples.four_words in
  List.length events = 4%nat
  /\ map window events = [(0, 350); (350, 600); (600, 900); (1200, 1500)].
Proof.
  destruct (three_word_policy_spec Examples.four_words)
    as (_ & _ & _ & H).
  destruct H as (HN & _).
  - repeat constructor; discriminate.
  - split; [exact HN|reflexivity].
Defined.

(** The second word of two, from 0.5 s to 0.7 s. *)
Lemma single_word_events_hello_big :
  exists e,
    single_word_events Examples.hello_big !! 1%nat = Some e
    /\ ev_start e = 500 /\ ev_end e = 700
    /\ ev_text e = "{\fscx92\fscy92}{\t(0,200,2,\fscx100\fscy100)}BIG".
Proof.
  destruct (single_word_events_spec Examples.hello_big) as (_ & H).
  destruct (H 1%nat {| word := " big"; start := 5 # 10; end_ := 7 # 10 |}
              eq_refl) as (e & He & Hs & Hend & _ & _ & Ht).
  exists e. split; [exact He|]. split; [exact Hs|].
  split; [exact Hend|]. exact (Ht eq_refl).
Defined.

End CaptionProperties.

(** ** The time-rescale *)

Section RoundTrip.

Import Rescale.

Local Open Scope Q_scope.

(** A timestamp after the rescale: the quotient, up to the rounding of
    the floats and the truncation. *)
Lemma rescale_time_near (S : Q) (t : Z) :
  1 # 1024 <= S -> S <= 1024 -> (0 <= t <= 2 ^ 40)%Z ->
  inject_Z t / S * (1 - 5 * Py.machine_epsilon) - 1
  < inject_Z (rescale_time S t)
  /\ inject_Z (rescale_time S t)
     <= inject_Z t / S * (1 + 5 * Py.machine_epsilon).
Proof.
  intros LS US [Ht0 Ht1]. destruct eps_small as [He He'].
  assert (HS : 0 < S) by Lqa.lra.
  unfold rescale_time.
  destruct (Z.eq_dec t 0%Z) as [->|Hne].
  { change (Py.fdiv (inject_Z 0) S) with 0.
    change (Py.int_of_float 0) with 0%Z. change (inject_Z 0) with 0.
    assert (E : 0 / S == 0) by (unfold Qdiv; ring).
    rewrite E. split; Lqa.lra. }
  set (a := inject_Z t).
  assert (La : 1 <= a).
  { change 1 with (inject_Z 1). unfold a. rewrite <- Zle_Qle. lia. }
  assert (Ua : a <= 2 ^ 40).
  { rewrite <- (pow2_of_Z 40) by lia. unfold a. now rewrite <- Zle_Qle. }
  assert (R1 : 2 ^ (-500) <= 1) by (change 1 with (2 ^ 0); apply pow2_le; lia).
  assert (R2 : 2 ^ 40 <= 2 ^ 500) by (apply pow2_le; lia).
  assert (R3 : 2 ^ (-500) <= 1 # 1024)
    by (change (1 # 1024) with (2 ^ (-10)); apply pow2_le; lia).
  assert (R4 : 1024 <= 2 ^ 500)
    by (change 1024 with (2 ^ 10); apply pow2_le; lia).
  destruct (fdiv_rel a S) as [L1 U1]; try Lqa.lra.
  assert (HX : 0 < a / S) by (apply Qlt_shift_div_l; [exact HS|Lqa.lra]).
  set (X := a / S) in *. set (q := Py.fdiv a S) in *.
  assert (Hq : 0 <= q).
  { eapply Qle_trans; [|exact L1]. apply Qmult_le_0_compat; Lqa.lra. }
  destruct (int_of_float_floor q Hq) as [Lu Uu].
  set (lo := X * (1 - 5 * Py.machine_epsilon)) in *.
  set (hi := X * (1 + 5 * Py.machine_epsilon)) in *.
  split; Lqa.lra.
Qed.

(** By [S] and back by [1 / S], all in doubles: never later than the
    original, and earlier by less than [S + 2] milliseconds. *)
Lemma round_trip_bound (S : Q) (t : Z) :
  1 # 1024 <= S -> S <= 1024 -> (0 <= t <= 2 ^ 40)%Z ->
  inject_Z t - S - 2 < inject_Z (round_trip S t)
  /\ inject_Z (round_trip S t) <= inject_Z t.
Proof.
  intros LS US [Ht0 Ht1]. destruct eps_small as [He He'].
  assert (HS : 0 < S) by Lqa.lra.
  unfold round_trip, rescale_time.
  destruct (Z.eq_dec t 0%Z) as [->|Hne].
  { change (Py.fdiv (inject_Z 0) S) with 0.
    change (Py.int_of_float 0) with 0%Z.
    change (Py.fdiv (inject_Z 0) (Py.fdiv 1 S)) with 0.
    change (Py.int_of_float 0) with 0%Z. change (inject_Z 0) with 0.
    split; Lqa.lra. }
  set (a := inject_Z t).
  assert (La : 1 <= a).
  { change 1 with (inject_Z 1). unfold a. rewrite <- Zle_Qle. lia. }
  assert (Ua : a <= 2 ^ 40).
  { rewrite <- (pow2_of_Z 40) by lia. unfold a. now rewrite <- Zle_Qle. }
  assert (R1 : 2 ^ (-500) <= 1) by (change 1 with (2 ^ 0); apply pow2_le; lia).
  assert (R2 : 2 ^ 40 <= 2 ^ 500) by (apply pow2_le; lia).
  assert (R3 : 2 ^ (-500) <= 1 # 1024)
    by (change (1 # 1024) with (2 ^ (-10)); apply pow2_le; lia).
  assert (R4 : 1024 <= 2 ^ 500)
    by (change 1024 with (2 ^ 10); apply pow2_le; lia).
  assert (R5 : 1 <= 2 ^ 500) by (change 1 with (2 ^ 0); apply pow2_le; lia).
  destruct (fdiv_rel a S) as [L1 U1]; try Lqa.lra.
  destruct (fdiv_rel 1 S) as [L2 U2]; try Lqa.lra.
  set (q1 := Py.fdiv a S) in *. set (speed2 := Py.fdiv 1 S) in *.
  assert (EX : a / S * S == a).
  { field. intros E. rewrite E in HS. discriminate. }
  assert (HX : 0 < a / S) by (apply Qlt_shift_div_l; [exact HS|Lqa.lra]).
  assert (UX : a / S <= 2 ^ 50).
  { apply Qle_shift_div_r; [exact HS|].
    apply Qle_trans with (2 ^ 50 * (1 # 1024)).
    - change (1 # 1024) with (2 ^ (-10)). rewrite <- pow2_plus. exact Ua.
    - apply Qmult_le_l; [apply pow2_pos|exact LS]. }
  set (X := a / S) in *.
  assert (Hea : Py.machine_epsilon * a <= 1 # 4096).
  { apply Qle_trans with (Py.machine_epsilon * 2 ^ 40).
    - apply Qmult_le_l; [exact He|exact Ua].
    - unfold Qle. vm_compute. discriminate. }
  assert (Hq1 : 0 <= q1).
  { eapply Qle_trans; [|exact L1].
    apply Qmult_le_0_compat; Lqa.lra. }
  destruct (int_of_float_floor q1 Hq1) as [Lu Uu].
  set (u := Py.int_of_float q1) in *.
  (* q1 * S is near a *)
  assert (Lq1S : a * (1 - 5 * Py.machine_epsilon) <= q1 * S).
  { rewrite <- EX at 1.
    assert (E : X * S * (1 - 5 * Py.machine_epsilon) == X * (1 - 5 * Py.machine_epsilon) * S) by ring.
    rewrite E. apply Qmult_le_compat_r; [exact L1|Lqa.lra]. }
  assert (Uq1S : q1 * S <= a * (1 + 5 * Py.machine_epsilon)).
  { rewrite <- EX at 1.
    assert (E : X * S * (1 + 5 * Py.machine_epsilon) == X * (1 + 5 * Py.machine_epsilon) * S) by ring.
    rewrite E. apply Qmult_le_compat_r; [exact U1|Lqa.lra]. }
  destruct (Z.eq_dec u 0%Z) as [Eu|Hu].
  { rewrite Eu in *.
    change (Py.fdiv (inject_Z 0) speed2) with 0.
    change (Py.int_of_float 0) with 0%Z. change (inject_Z 0) with 0 in *.
    assert (H1 : q1 * S < 1 * S).
    { apply Qmult_lt_compat_r; [exact HS|Lqa.lra]. }
    assert (E : a * (1 - 5 * Py.machine_epsilon) == a - 5 * (Py.machine_epsilon * a)) by ring.
    rewrite E in Lq1S. set (ea := Py.machine_epsilon * a) in *.
    split; Lqa.lra. }
  assert (Hu1 : (1 <= u)%Z).
  { assert (H : inject_Z (-1) < inject_Z u).
    { change (inject_Z (-1)) with (-1). Lqa.lra. }
    rewrite <- Zlt_Qlt in H. lia. }
  set (ub := inject_Z u) in *.
  assert (Lub : 1 <= ub).
  { change 1 with (inject_Z 1). unfold ub. rewrite <- Zle_Qle. lia. }
  assert (Uub : ub <= 2 ^ 500).
  { apply Qle_trans with q1; [exact Lu|].
    eapply Qle_trans; [exact U1|].
    apply Qle_trans with (2 ^ 50 * 2).
    - apply Qle_trans with (X * 2).
      + apply Qmult_le_l; [exact HX|Lqa.lra].
      + apply Qmult_le_compat_r; [exact UX|discriminate].
    - change 2 with (2 ^ 1) at 2. rewrite <- pow2_plus. apply pow2_le. lia. }
  assert (HiS : 0 < 1 / S) by (apply Qlt_shift_div_l; [exact HS|Lqa.lra]).
  assert (LiS : 1 # 1024 <= 1 / S).
  { apply Qle_shift_div_l; [exact HS|]. Lqa.lra. }
  assert (UiS : 1 / S <= 1024).
  { apply Qle_shift_div_r; [exact HS|]. Lqa.lra. }
  destruct (inverse_rel Py.machine_epsilon S speed2 ub He He' HS ltac:(Lqa.lra) L2 U2)
    as (Hs2 & Lw & Uw).
  assert (Ls2 : 2 ^ (-500) <= speed2).
  { eapply Qle_trans; [|exact L2].
    apply Qle_trans with ((1 # 1024) * (1 # 2)).
    - change ((1 # 1024) * (1 # 2)) with (2 ^ (-11)). apply pow2_le. lia.
    - apply Qle_trans with (1 / S * (1 # 2)).
      + apply Qmult_le_compat_r; [exact LiS|discriminate].
      + apply Qmult_le_l; [exact HiS|Lqa.lra]. }
  assert (Us2 : speed2 <= 2 ^ 500).
  { eapply Qle_trans; [exact U2|].
    apply Qle_trans with (1024 * 2).
    - apply Qle_trans with (1 / S * 2).
      + apply Qmult_le_l; [exact HiS|Lqa.lra].
      + apply Qmult_le_compat_r; [exact UiS|discriminate].
    - change (1024 * 2) with (2 ^ 11). apply pow2_le. lia. }
  destruct (fdiv_rel ub speed2) as [L3 U3]; try assumption; try Lqa.lra.
  set (w := ub / speed2) in *. set (q2 := Py.fdiv ub speed2) in *.
  assert (HubS : 0 <= ub * S) by (apply Qmult_le_0_compat; Lqa.lra).
  assert (Hw : 0 <= w).
  { eapply Qle_trans; [|exact Lw].
    apply Qmult_le_0_compat; [exact HubS|Lqa.lra]. }
  assert (Hq2 : 0 <= q2).
  { eapply Qle_trans; [|exact L3].
    apply Qmult_le_0_compat; [exact Hw|Lqa.lra]. }
  destruct (int_of_float_floor q2 Hq2) as [Lv Uv].
  set (v := Py.int_of_float q2) in *.
  (* q2 is near ub * S *)
  assert (Uq2 : q2 <= ub * S * (1 + (5 + 10 + 1) * Py.machine_epsilon)).
  { apply (factor_up Py.machine_epsilon 5 10 q2 w (ub * S)); try Lqa.lra; assumption. }
  assert (Lq2 : ub * S * (1 - (5 + 5) * Py.machine_epsilon) <= q2).
  { apply (factor_down Py.machine_epsilon 5 5 q2 w (ub * S)); try Lqa.lra; assumption. }
  assert (UubS : ub * S <= q1 * S).
  { apply Qmult_le_compat_r; [exact Lu|Lqa.lra]. }
  assert (LubS : q1 * S - S < ub * S).
  { assert (E : q1 * S - S == (q1 - 1) * S) by ring. rewrite E.
    apply Qmult_lt_compat_r; [exact HS|Lqa.lra]. }
  split.
  - (* the lower bound *)
    assert (H1 : (a * (1 - 5 * Py.machine_epsilon) - S) * (1 - 10 * Py.machine_epsilon)
                 <= ub * S * (1 - 10 * Py.machine_epsilon)).
    { apply Qmult_le_compat_r; Lqa.lra. }
    assert (E1 : (a * (1 - 5 * Py.machine_epsilon) - S) * (1 - 10 * Py.machine_epsilon)
                 == a - 15 * (Py.machine_epsilon * a) + 50 * (Py.machine_epsilon * (Py.machine_epsilon * a))
                    - S + 10 * (Py.machine_epsilon * S)) by ring.
    assert (E2 : ub * S * (1 - (5 + 5) * Py.machine_epsilon) == ub * S * (1 - 10 * Py.machine_epsilon))
      by ring.
    rewrite E1 in H1. rewrite E2 in Lq2.
    assert (H2 : 0 <= Py.machine_epsilon * (Py.machine_epsilon * a)).
    { apply Qmult_le_0_compat; [Lqa.lra|].
      apply Qmult_le_0_compat; Lqa.lra. }
    assert (H3 : 0 <= Py.machine_epsilon * S) by (apply Qmult_le_0_compat; Lqa.lra).
    set (ea := Py.machine_epsilon * a) in *. set (eea := Py.machine_epsilon * ea) in *.
    set (eS := Py.machine_epsilon * S) in *. set (ubS := ub * S * (1 - 10 * Py.machine_epsilon)) in *.
    Lqa.lra.
  - (* the upper bound *)
    assert (H1 : q2 <= a * (1 + (16 + 5 + 1) * Py.machine_epsilon)).
    { apply (factor_up Py.machine_epsilon 16 5 q2 (ub * S) a); Lqa.lra. }
    assert (E1 : a * (1 + (16 + 5 + 1) * Py.machine_epsilon) == a + 22 * (Py.machine_epsilon * a)) by ring.
    rewrite E1 in H1. set (ea := Py.machine_epsilon * a) in *.
    assert (H : inject_Z v < inject_Z (t + 1)).
    { rewrite inject_Z_plus. change (inject_Z 1) with 1. fold a. Lqa.lra. }
    rewrite <- Zlt_Qlt in H. unfold a. rewrite <- Zle_Qle. lia.
Qed.


(** The float [1 / S] is not zero. *)
Lemma inverse_speed_positive (S : Q) :
  1 # 1024 <= S -> S <= 1024 -> 0 < Py.round64 (Py.fdiv 1 S).
Proof.
  intros LS US. destruct eps_small as [He He'].
  assert (HS : 0 < S) by Lqa.lra.
  assert (R1 : 2 ^ (-500) <= 1) by (change 1 with (2 ^ 0); apply pow2_le; lia).
  assert (R3 : 2 ^ (-500) <= 1 # 1024)
    by (change (1 # 1024) with (2 ^ (-10)); apply pow2_le; lia).
  assert (R4 : 1024 <= 2 ^ 500)
    by (change 1024 with (2 ^ 10); apply pow2_le; lia).
  assert (R5 : 1 <= 2 ^ 500) by (change 1 with (2 ^ 0); apply pow2_le; lia).
  destruct (fdiv_rel 1 S) as [L2 _]; try Lqa.lra.
  assert (HiS : 0 < 1 / S) by (apply Qlt_shift_div_l; [exact HS|Lqa.lra]).
  assert (LiS : 1 # 1024 <= 1 / S).
  { apply Qle_shift_div_l; [exact HS|]. Lqa.lra. }
  set (y := Py.fdiv 1 S) in *.
  assert (Ly : 2 ^ (-1022) <= y).
  { eapply Qle_trans; [|exact L2].
    apply Qle_trans with ((1 # 1024) * (1 # 2)).
    - change ((1 # 1024) * (1 # 2)) with (2 ^ (-11)). apply pow2_le. lia.
    - apply Qle_trans with (1 / S * (1 # 2)).
      + apply Qmult_le_compat_r; [exact LiS|discriminate].
      + apply Qmult_le_l; [exact HiS|Lqa.lra]. }
  destruct (round64_rel y Ly) as [L _].
  pose proof (pow2_pos (-1022)) as Hp.
  eapply Qlt_le_trans; [|exact L].
  apply Qmult_lt_0_compat; Lqa.lra.
Qed.

Lemma speed_positive (S : Q) :
  1 # 1024 <= S -> S <= 1024 -> 0 < Py.round64 S.
Proof.
  intros LS US. destruct eps_small as [He He'].
  assert (Ly : 2 ^ (-1022) <= S).
  { apply Qle_trans with (1 # 1024); [|exact LS].
    change (1 # 1024) with (2 ^ (-10)). apply pow2_le. lia. }
  destruct (round64_rel S Ly) as [L _].
  eapply Qlt_le_trans; [|exact L].
  apply Qmult_lt_0_compat; Lqa.lra.
Qed.

End RoundTrip.

Section RescaleProperties.

Import Captions Rescale.

Lemma rescale_track_done (S : Q) (track : list SSAEvent) :
  ~ (Py.round64 S == 0)%Q ->
  rescale_track S track = Py.Done (map (rescale_event S) track).
Proof.
  intros HS. unfold rescale_track. destruct track as [|e track];
    [reflexivity|].
  destruct (Qeq_bool (Py.round64 S) 0) eqn:E; [|reflexivity].
  apply Qeq_bool_iff in E. contradiction.
Qed.

Lemma adjust_body_done writable written subtitle_file speed st track :
  ~ (Py.round64 (value speed) == 0)%Q ->
  Os.fs st !! subtitle_file = Some (Os.Subtitles track) ->
  writable (adjusted_name subtitle_file speed) = true ->
  exists st',
    adjust_body writable written subtitle_file speed st
    = (Py.Done (adjusted_name subtitle_file speed), st')
    /\ Os.fs st'
       = <[adjusted_name subtitle_file speed
           := Os.Subtitles
                (written (adjusted_name subtitle_file speed)
                   (map (rescale_event (value speed)) track))]>
           (Os.fs st).
Proof.
  intros HS Hf Hw. eexists.
  unfold adjust_body, Os.bind, Os.lift, Os.effect, Os.ret, load, save.
  rewrite Hf, (rescale_track_done _ _ HS), Hw. split; reflexivity.
Qed.



Lemma adjust_body_raised_keeps_files
    writable written subtitle_file speed st e st' :
  adjust_body writable written subtitle_file speed st = (Py.Raised e, st') ->
  st' = st.
Proof.
  unfold adjust_body, Os.bind, Os.lift, Os.effect, Os.ret, load, save.
  destruct (Os.fs st !! subtitle_file) as [[track| |]|];
    try (intros [= _ <-]; reflexivity).
  destruct (rescale_track (value speed) track);
    try (intros [= _ <-]; reflexivity).
  destruct (writable (adjusted_name subtitle_file speed));
    [discriminate|].
  intros [= _ <-]; reflexivity.
Qed.

Lemma adjust_speed_raised writable written subtitle_file speed st e st' :
  adjust_body writable written subtitle_file speed st = (Py.Raised e, st') ->
  fst (_adjust_subtitle_speed writable written subtitle_file speed st)
  = subtitle_file
  /\ Os.fs (snd (_adjust_subtitle_speed writable written subtitle_file
                   speed st))
     = Os.fs st.
Proof.
  intros E.
  pose proof (adjust_body_raised_keeps_files _ _ _ _ _ _ _ E) as ->.
  unfold _adjust_subtitle_speed. rewrite E. split; reflexivity.
Qed.

End RescaleProperties.

(** ** Strings: the last character under [replace] *)

Section StringProperties.

Lemma app_nonempty_r (a b : string) :
  b <> EmptyString -> a +:+ b <> EmptyString.
Proof. intros Hb. destruct a; [exact Hb|discriminate]. Qed.

Lemma app_nonempty_l (a b : string) :
  a <> EmptyString -> a +:+ b <> EmptyString.
Proof. intros Ha. destruct a; [congruence|discriminate]. Qed.

Lemma last_char_cons (c : ascii) (s : string) :
  s <> EmptyString -> Py.last_char (String c s) = Py.last_char s.
Proof. destruct s; [congruence|reflexivity]. Qed.

Lemma last_char_app (a b : string) :
  b <> EmptyString -> Py.last_char (a +:+ b) = Py.last_char b.
Proof.
  intros Hb. induction a as [|c a IH]; [reflexivity|].
  rewrite app_cons, last_char_cons; [exact IH|].
  now apply app_nonempty_r.
Qed.

Lemma last_char_some (s : string) :
  s <> EmptyString -> exists c, Py.last_char s = Some c.
Proof.
  induction s as [|c s IH]; [congruence|]. intros _.
  destruct s as [|d s]; [exists c; reflexivity|].
  rewrite last_char_cons by discriminate. apply IH. discriminate.
Qed.

Lemma substring_all (s : string) : substring 0 (String.length s) s = s.
Proof. induction s as [|c s IH]; [reflexivity|]. simpl. now rewrite IH. Qed.

Lemma prefix_split (old s : string) :
  String.prefix old s = true ->
  s = old +:+ substring (String.length old)
                (String.length s - String.length old) s.
Proof.
  revert s. induction old as [|a old IH]; intros s H.
  - rewrite app_nil_l. simpl. rewrite Nat.sub_0_r.
    symmetry. apply substring_all.
  - destruct s as [|b s]; [discriminate|]. simpl in H.
    destruct (ascii_dec a b) as [->|]; [|discriminate].
    rewrite app_cons. f_equal. simpl. apply IH, H.
Qed.

Lemma replace_fuel_empty (fuel : nat) (old new : string) :
  Py.replace_fuel fuel old new EmptyString = EmptyString.
Proof. destruct fuel; reflexivity. Qed.

Lemma replace_fuel_nonempty (fuel : nat) (old new s : string) :
  new <> EmptyString -> s <> EmptyString ->
  Py.replace_fuel fuel old new s <> EmptyString.
Proof.
  intros Hn Hs. destruct fuel as [|fuel]; [exact Hs|].
  destruct s as [|c s]; [congruence|]. cbn [Py.replace_fuel].
  destruct (String.prefix old (String c s)).
  - now apply app_nonempty_l.
  - discriminate.
Qed.

(** A replacement whose text ends like the text it replaces leaves the
    last character of the string as it was. *)
Lemma replace_fuel_last_char (old new : string) :
  old <> EmptyString -> Py.last_char new = Py.last_char old ->
  forall (fuel : nat) (s : string),
    Py.last_char (Py.replace_fuel fuel old new s) = Py.last_char s.
Proof.
  intros Ho Hl.
  assert (Hn : new <> EmptyString).
  { intros ->. destruct (last_char_some old Ho) as [c Hc].
    rewrite Hc in Hl. discriminate. }
  induction fuel as [|fuel IH]; intros s; [reflexivity|].
  destruct s as [|c s]; [reflexivity|]. cbn [Py.replace_fuel].
  destruct (String.prefix old (String c s)) eqn:Hp.
  - pose proof (prefix_split _ _ Hp) as Hs.
    set (tail := substring (String.length old)
                   (String.length (String c s) - String.length old)
                   (String c s)) in *.
    destruct tail as [|d tl].
    + rewrite replace_fuel_empty, app_empty_r.
      rewrite Hs, app_empty_r. exact Hl.
    + rewrite last_char_app
        by (apply replace_fuel_nonempty; [exact Hn|discriminate]).
      rewrite IH, Hs.
      now rewrite last_char_app by discriminate.
  - destruct s as [|d s].
    + rewrite replace_fuel_empty. reflexivity.
    + rewrite (last_char_cons c (String d s)) by discriminate.
      rewrite last_char_cons
        by (apply replace_fuel_nonempty; [exact Hn|discriminate]).
      apply IH.
Qed.

Lemma replace_last_char (s old new : string) :
  old <> EmptyString -> Py.last_char new = Py.last_char old ->
  Py.last_char (Py.replace s old new) = Py.last_char s.
Proof. intros Ho Hl. now apply replace_fuel_last_char. Qed.

Lemma path_join_last_char (directory name : string) :
  name <> EmptyString ->
  Py.last_char (Os.path_join directory name) = Py.last_char name.
Proof.
  intros Hn. unfold Os.path_join.
  destruct (Py.is_empty directory); [reflexivity|].
  destruct (Py.endswith directory "/").
  - now apply last_char_app.
  - rewrite last_char_app by (now apply app_nonempty_r).
    now apply last_char_app.
Qed.

End StringProperties.

(** ** The render driver *)

Section RenderProperties.

Import Render.

(** *** What [gather] hands over *)

Lemma create_srt_subtitles_name w audio_path subtitle_style st :
  let r := _create_srt_subtitles w audio_path subtitle_style st in
  fst r = None \/ fst r = Some (subtitle_path w).
Proof.
  unfold _create_srt_subtitles, Os.bind, Os.lift.
  destruct (transcribe w audio_path) as [result|e]; [|left; reflexivity].
  unfold _create_three_word_highlight_subtitles,
    _create_single_word_subtitles, Os.bind, Os.ret, Rescale.save.
  destruct (String.eqb _ _), (writable w (subtitle_path w)); cbn;
    auto.
Qed.

Lemma card_step_result w content card_style st :
  exists r st',
    card_step w content card_style st = (Py.Done r, st')
    /\ (fst r = None /\ snd r = 3%Q
        \/ fst r = Some (Card.card_file (output_path w) (now w))
           /\ Os.fs st' !! Card.card_file (output_path w) (now w)
              = Some Os.Image).
Proof.
  unfold card_step.
  destruct (reddit_info content) as [info|];
    [|do 2 eexists; split; [reflexivity|left; split; reflexivity]].
  destruct (bool_decide (info = ∅));
    [do 2 eexists; split; [reflexivity|left; split; reflexivity]|].
  unfold Card._create_reddit_card, Card.card_body, Os.bind, Os.lift,
    Os.effect, Os.ret.
  destruct (Card.title_of info) as [title|e]; cbn;
    [|do 2 eexists; split; [reflexivity|left; split; reflexivity]].
  destruct (draw w info (output_path w) card_style) as [[]|e]; cbn;
    [|do 2 eexists; split; [reflexivity|left; split; reflexivity]].
  do 2 eexists. split; [reflexivity|]. right. split; [reflexivity|].
  unfold Os.print, Os.write. cbn. apply lookup_insert_eq.
Qed.

(** When the rasterizer raises, the card step hands over no card and
    the default reading time. *)
Lemma card_step_draw_raised w content card_style st info e :
  reddit_info content = Some info ->
  draw w info (output_path w) card_style = Py.Raised e ->
  exists st', card_step w content card_style st = (Py.Done (None, 3%Q), st')
              /\ Os.fs st' = Os.fs st.
Proof.
  intros Hi Hd. unfold card_step. rewrite Hi.
  destruct (bool_decide (info = ∅));
    [eexists; split; reflexivity|].
  unfold Card._create_reddit_card, Card.card_body, Os.bind, Os.lift.
  destruct (Card.title_of info) as [title|e']; cbn;
    [|eexists; split; reflexivity].
  rewrite Hd. cbn. eexists; split; reflexivity.
Qed.

Lemma gather_inv w content audio_path background_path subtitle_style
    card_style st g st1 :
  gather w content audio_path background_path subtitle_style card_style st
  = (Py.Done g, st1) ->
  exists sf st_a card,
    _create_srt_subtitles w audio_path subtitle_style st = (sf, st_a)
    /\ card_step w content card_style st_a = (Py.Done card, st1)
    /\ subtitle_file g = sf
    /\ reddit_card_path g = fst card
    /\ card_reading_time g = snd card.
Proof.
  unfold gather, Os.bind, Os.lift, Os.ret.
  destruct (probe_duration w audio_path) as [ad|]; [|discriminate].
  destruct (probe_duration w background_path) as [vd|]; [|discriminate].
  destruct (_create_srt_subtitles w audio_path subtitle_style st)
    as [sf st_a].
  destruct (card_step_result w content card_style st_a)
    as (card & st_b & Hc & _).
  rewrite Hc.
  destruct (probe_size w background_path) as [size|]; [|discriminate].
  destruct (Crop.crop_for size.1 size.2) as [crop|]; [|discriminate].
  intros [= <- <-]. exists sf, st_a, card. repeat split; reflexivity || exact Hc.
Qed.

(** *** What [compose] builds *)

Lemma compose_done w g audio_path background_path card_animation st :
  exists c st2,
    compose w g audio_path background_path card_animation st
    = (Py.Done c, st2)
    /\ card_path c = reddit_card_path g
    /\ g_output (render_graph c) = output_file g
    /\ burned_subtitle_file c
       = match subtitle_file g with
         | Some f =>
             Some (fst (Rescale._adjust_subtitle_speed
                          (writable w) (written w) f speed_1_15 st))
         | None => None
         end
    /\ Os.fs st2
       = match subtitle_file g with
         | Some f =>
             Os.fs (snd (Rescale._adjust_subtitle_speed
                           (writable w) (written w) f speed_1_15 st))
         | None => Os.fs st
         end
    /\ exists overlay,
         g_filters (render_graph c)
         = [FCrop (crop g); FScale 1080 1920; FSetpts "PTS/1.15"]
             ++ subtitle_filters (burned_subtitle_file c) ++ overlay
         /\ (reddit_card_path g = None -> overlay = []).
Proof.
  unfold compose, Os.bind, Os.ret.
  destruct (subtitle_file g) as [f|].
  - destruct (Rescale._adjust_subtitle_speed (writable w) (written w) f speed_1_15 st)
      as [f' st'] eqn:E.
    do 2 eexists. split; [reflexivity|]. cbn.
    repeat split; try reflexivity.
    + destruct (overlay_filters g card_animation st'); reflexivity.
    + eexists. split; [reflexivity|].
      intros Hn. unfold overlay_filters. now rewrite Hn.
  - do 2 eexists. split; [reflexivity|]. cbn.
    repeat split; try reflexivity.
    + destruct (overlay_filters g card_animation st); reflexivity.
    + eexists. split; [reflexivity|].
      intros Hn. unfold overlay_filters. now rewrite Hn.
Qed.


Lemma subtitle_filters_no_overlay (sf : option string) :
  List.filter is_overlay (subtitle_filters sf) = [].
Proof.
  destruct sf as [f|]; [|reflexivity]. unfold subtitle_filters.
  destruct (Py.endswith f ".ass"); reflexivity.
Qed.

Lemma subtitle_filters_some (f : string) :
  subtitle_filters (Some f) = [FSubtitlesAss (escaped f)]
  \/ subtitle_filters (Some f) = [FSubtitlesSrt f force_style].
Proof.
  unfold subtitle_filters. destruct (Py.endswith f ".ass"); auto.
Qed.

(** C7.  When the rasterization of the card raises, [_create_reddit_card]
    returns (None, 3.0) and leaves the files alone; the driver then has
    no card path, composes a graph without an overlay filter and goes on
    to the encode. *)
Theorem card_failure_is_contained
    w content audio_path background_path subtitle_style card_style
    card_animation st info e :
  reddit_info content = Some info ->
  draw w info (output_path w) card_style = Py.Raised e ->
  (forall st0,
     let r := Card._create_reddit_card (draw w) (now w) info
                (output_path w) card_style st0 in
     fst r = (None, 3%Q) /\ Os.fs (snd r) = Os.fs st0)
  /\ forall g st1,
       gather w content audio_path background_path subtitle_style
         card_style st = (Py.Done g, st1) ->
       reddit_card_path g = None
       /\ card_reading_time g = 3%Q
       /\ exists c st2,
            compose w g audio_path background_path card_animation st1
            = (Py.Done c, st2)
            /\ card_path c = None
            /\ List.filter is_overlay (g_filters (render_graph c)) = []
            /\ render_body w content audio_path background_path
                 subtitle_style card_style card_animation st
               = finish w c st2.
Proof.
  intros Hi Hd. split.
  - intros st0. unfold Card._create_reddit_card, Card.card_body, Os.bind,
      Os.lift. cbn zeta.
    destruct (Card.title_of info) as [title|e']; cbn;
      [rewrite Hd; cbn|]; split; reflexivity.
  - intros g st1 Hg.
    destruct (gather_inv _ _ _ _ _ _ _ _ _ Hg)
      as (sf & st_a & card & _ & Hc & _ & Hp & Ht).
    destruct (card_step_draw_raised w content card_style st_a info e Hi Hd)
      as (st' & Hc' & _).
    rewrite Hc' in Hc. injection Hc as Ecard _.
    rewrite <- Ecard in Hp, Ht. cbn in Hp, Ht. split; [exact Hp|]. split; [exact Ht|].
    destruct (compose_done w g audio_path background_path card_animation
                st1)
      as (c & st2 & Hcomp & Hcp & _ & _ & _ & overlay & Hf & Hov).
    exists c, st2. split; [exact Hcomp|].
    split; [now rewrite Hcp|].
    split.
    + rewrite Hf, (Hov Hp), app_nil_r. cbn [app List.filter is_overlay].
      apply subtitle_filters_no_overlay.
    + unfold render_body, Os.bind. now rewrite Hg, Hcomp.
Qed.

(** C10.  When the body of the time-rescale raises, whatever the cause,
    [_adjust_subtitle_speed] returns the path it was given and no file has
    changed; the driver does not abort: it composes the graph with the
    subtitles filter on that original file. *)
Theorem rescale_failure_keeps_original
    w g audio_path background_path card_animation
    subtitle_file speed st e st' :
  Rescale.adjust_body (writable w) (written w) subtitle_file speed st
  = (Py.Raised e, st') ->
  let r := Rescale._adjust_subtitle_speed (writable w) (written w)
             subtitle_file speed st in
  fst r = subtitle_file
  /\ Os.fs (snd r) = Os.fs st
  /\ (speed = speed_1_15 ->
      Render.subtitle_file g = Some subtitle_file ->
      exists c st2 overlay,
        compose w g audio_path background_path card_animation st
        = (Py.Done c, st2)
        /\ burned_subtitle_file c = Some subtitle_file
        /\ Os.fs st2 = Os.fs st
        /\ g_filters (render_graph c)
           = [FCrop (crop g); FScale 1080 1920; FSetpts "PTS/1.15"]
               ++ subtitle_filters (Some subtitle_file) ++ overlay
        /\ (subtitle_filters (Some subtitle_file)
            = [FSubtitlesAss (escaped subtitle_file)]
            \/ subtitle_filters (Some subtitle_file)
               = [FSubtitlesSrt subtitle_file force_style])).
Proof.
  intros E r.
  destruct (adjust_speed_raised _ _ _ _ _ _ _ E) as [Hp Hfs].
  split; [exact Hp|]. split; [exact Hfs|].
  intros -> Hsf.
  destruct (compose_done w g audio_path background_path card_animation st)
    as (c & st2 & Hcomp & _ & _ & Hb & Hfs2 & overlay & Hf & _).
  rewrite Hsf in Hb, Hfs2. rewrite Hp in Hb.
  exists c, st2, overlay. split; [exact Hcomp|]. split; [exact Hb|].
  split; [now rewrite Hfs2|].
  split; [now rewrite Hf, Hb|]. apply subtitle_filters_some.
Qed.


(** *** Cleanup *)

Lemma remove_if_exists_lookup (path q : string) (st : Os.state) :
  Os.fs (if Os.exists_ path st then Os.remove path st else st) !! q
  = if decide (path = q) then None else Os.fs st !! q.
Proof.
  unfold Os.exists_, Os.remove.
  destruct (decide (path = q)) as [->|Hne].
  - destruct (Os.fs st !! q) eqn:E; cbn; [apply lookup_delete_eq|exact E].
  - destruct (Os.fs st !! path); cbn; [now apply lookup_delete_ne|reflexivity].
Qed.

Lemma cleanup_log (sf : option string) (st : Os.state) :
  Os.log (cleanup sf st) = Os.log st.
Proof.
  unfold cleanup. destruct sf as [f|]; [|reflexivity].
  destruct (Os.exists_ f st); [|reflexivity]. cbn.
  repeat match goal with
         | |- context [if Os.exists_ ?p ?s then _ else _] =>
             destruct (Os.exists_ p s)
         end; reflexivity.
Qed.

(** After the cleanup the file it was given is gone. *)
Lemma cleanup_removes (f : string) (st : Os.state) :
  Os.fs (cleanup (Some f) st) !! f = None.
Proof.
  unfold cleanup. destruct (Os.exists_ f st) eqn:E.
  - cbn [fold_left]. rewrite !remove_if_exists_lookup.
    repeat case_decide; try reflexivity.
    unfold Os.remove. cbn. apply lookup_delete_eq.
  - unfold Os.exists_ in E. destruct (Os.fs st !! f); [discriminate|reflexivity].
Qed.

(** The cleanup touches three paths at most. *)
Lemma cleanup_frame (sf : option string) (st : Os.state) (q : string) :
  (forall f, sf = Some f ->
             q <> f
             /\ q <> Py.replace f ".srt" ("_speed1.15" +:+ ".srt")
             /\ q <> Py.replace f ".ass" ("_speed1.15" +:+ ".ass")) ->
  Os.fs (cleanup sf st) !! q = Os.fs st !! q.
Proof.
  intros H. unfold cleanup. destruct sf as [f|]; [|reflexivity].
  destruct (H f eq_refl) as (H1 & H2 & H3).
  destruct (Os.exists_ f st); [|reflexivity].
  cbn [fold_left]. rewrite !remove_if_exists_lookup.
  repeat case_decide; try congruence.
  unfold Os.remove. cbn. now apply lookup_delete_ne.
Qed.

(** Removed paths end like the caption file does. *)
Lemma cleanup_keeps_other_endings (sf : option string) (st : Os.state)
    (q : string) :
  (forall f, sf = Some f -> Py.last_char f <> Py.last_char q) ->
  Os.fs (cleanup sf st) !! q = Os.fs st !! q.
Proof.
  intros H. apply cleanup_frame. intros f Hf. specialize (H f Hf).
  repeat split; intros ->; apply H.
  - reflexivity.
  - symmetry. apply replace_last_char; [discriminate|reflexivity].
  - symmetry. apply replace_last_char; [discriminate|reflexivity].
Qed.

(** *** The encode and what follows *)

Lemma finish_done w c st :
  run w (render_graph c) = Py.Done tt ->
  exists st',
    finish w c st = (Py.Done (g_output (render_graph c)), st')
    /\ Os.fs st'
       = Os.fs (cleanup (burned_subtitle_file c)
                  (Os.write (g_output (render_graph c)) Os.Video st)).
Proof.
  intros Hr. unfold finish, encode, Os.bind, Os.effect, Os.ret.
  rewrite Hr. eexists. split; [reflexivity|]. cbn.
  destruct (card_path c) as [p|]; [|reflexivity].
  destruct (Os.exists_ p _); reflexivity.
Qed.

Lemma finish_raised w c st e :
  run w (render_graph c) = Py.Raised e ->
  exists st',
    finish w c st = (Py.Raised e, st')
    /\ Os.fs st' = Os.fs st
    /\ Os.log st' = Os.log st ++ stderr_lines e.
Proof.
  intros Hr. unfold finish, encode, Os.bind. rewrite Hr.
  destruct e; eexists; (split; [reflexivity|]); split; try reflexivity;
    cbn; rewrite ?app_nil_r, <- ?app_assoc; reflexivity.
Qed.

Lemma adjust_speed_name writable written f speed st :
  fst (Rescale._adjust_subtitle_speed writable written f speed st) = f
  \/ fst (Rescale._adjust_subtitle_speed writable written f speed st)
     = Rescale.adjusted_name f speed.
Proof.
  unfold Rescale._adjust_subtitle_speed, Rescale.adjust_body, Os.bind,
    Os.lift, Os.effect, Os.ret, Rescale.save.
  destruct (Rescale.load f st); [|left; reflexivity].
  destruct (Rescale.rescale_track _ _); [|left; reflexivity].
  destruct (writable _); [right|left]; reflexivity.
Qed.

Lemma adjusted_name_last_char f speed :
  Py.last_char (Rescale.adjusted_name f speed) = Py.last_char f.
Proof.
  unfold Rescale.adjusted_name.
  destruct (Py.endswith f ".ass"); apply replace_last_char;
    try discriminate;
    rewrite !last_char_app by (try apply app_nonempty_r; discriminate);
    reflexivity.
Qed.

(** The rescale writes one file at most, and it ends like the file it
    read. *)
Lemma adjust_speed_keeps_other_endings writable written f speed st p :
  Py.last_char f <> Py.last_char p ->
  Os.fs (snd (Rescale._adjust_subtitle_speed writable written f speed st)) !! p
  = Os.fs st !! p.
Proof.
  intros Hp.
  unfold Rescale._adjust_subtitle_speed, Rescale.adjust_body, Os.bind,
    Os.lift, Os.effect, Os.ret, Rescale.save.
  destruct (Rescale.load f st); [|reflexivity].
  destruct (Rescale.rescale_track _ _); [|reflexivity].
  destruct (writable _); [|reflexivity].
  cbn. apply lookup_insert_ne. intros Heq. apply Hp.
  rewrite <- Heq. symmetry. apply adjusted_name_last_char.
Qed.

Lemma subtitle_path_last_char w :
  Py.last_char (subtitle_path w) = Some "s"%char.
Proof.
  unfold subtitle_path.
  rewrite path_join_last_char by (apply app_nonempty_l; discriminate).
  rewrite !last_char_app by (try apply app_nonempty_r; discriminate).
  reflexivity.
Qed.

Lemma card_file_last_char output_path now :
  Py.last_char (Card.card_file output_path now) = Some "g"%char.
Proof.
  unfold Card.card_file.
  rewrite path_join_last_char by (apply app_nonempty_l; discriminate).
  rewrite !last_char_app by (try apply app_nonempty_r; discriminate).
  reflexivity.
Qed.

Lemma output_file_last_char w content audio_path background_path
    subtitle_style card_style st g st1 :
  gather w content audio_path background_path subtitle_style card_style st
  = (Py.Done g, st1) ->
  Py.last_char (output_file g) = Some "4"%char.
Proof.
  unfold gather, Os.bind, Os.lift, Os.ret.
  destruct (probe_duration w audio_path) as [ad|]; [|discriminate].
  destruct (probe_duration w background_path) as [vd|]; [|discriminate].
  destruct (_create_srt_subtitles w audio_path subtitle_style st)
    as [sf st_a].
  destruct (card_step w content card_style st_a) as [[card|] st_b];
    [|discriminate].
  destruct (probe_size w background_path) as [size|]; [|discriminate].
  destruct (Crop.crop_for size.1 size.2) as [crop|]; [|discriminate].
  intros [= <- _]. cbn [output_file].
  rewrite path_join_last_char
    by (apply (app_nonempty_r (make_safe_filename w (title content)));
        discriminate).
  rewrite (last_char_app (make_safe_filename w (title content)))
    by discriminate.
  rewrite (last_char_app "_") by (apply app_nonempty_r; discriminate).
  rewrite last_char_app by discriminate.
  reflexivity.
Qed.

(** When the encode fails the driver returns without deleting
    anything, and both caption files are still there. *)
Lemma encode_failure_leaves_caption_files :
  let r := Examples.render Examples.world_encode_fails in
  fst r = None
  /\ Os.exists_ "out/temp_subtitles_17.ass" (snd r) = true
  /\ Os.exists_ "out/temp_subtitles_17_speed1.15.ass" (snd r) = true.
Proof. vm_compute. repeat split. Qed.

(** Even a successful render leaves the caption file it started from:
    the cleanup only knows the rescaled one. *)
Lemma successful_render_leaves_first_caption_file :
  let r := Examples.render Examples.world_ok in
  fst r = Some "out/Sky_17.mp4"%string
  /\ Os.exists_ "out/temp_subtitles_17.ass" (snd r) = true
  /\ Os.exists_ "out/temp_subtitles_17_speed1.15.ass" (snd r) = false
  /\ Os.exists_ "out/reddit_card_link_17.png" (snd r) = true.
Proof. vm_compute. repeat split. Qed.

(** What the cleanup does in general.  When the encode succeeds,
    [create_video_ffmpeg] returns the output path after deleting the
    caption file it burned in (the rescaled file, or the original one
    when the rescale failed), and the overlay card image is still there,
    unchanged.  When the encode fails it returns [None] and has deleted
    nothing. *)
Lemma cleanup_follows_the_encode
    w content audio_path background_path subtitle_style card_style
    card_animation st g st1 c st2 :
  gather w content audio_path background_path subtitle_style card_style st
  = (Py.Done g, st1) ->
  compose w g audio_path background_path card_animation st1
  = (Py.Done c, st2) ->
  let r := create_video_ffmpeg w content audio_path background_path
             subtitle_style card_style card_animation st in
  (run w (render_graph c) = Py.Done tt ->
   fst r = Some (output_file g)
   /\ (forall f, burned_subtitle_file c = Some f ->
                 Os.fs (snd r) !! f = None)
   /\ (forall p, card_path c = Some p ->
                 Os.fs (snd r) !! p = Some Os.Image))
  /\ (forall e, run w (render_graph c) = Py.Raised e ->
                fst r = None /\ Os.fs (snd r) = Os.fs st2).
Proof.
  intros Hg Hcomp r.
  assert (Hbody : render_body w content audio_path background_path
                    subtitle_style card_style card_animation st
                  = finish w c st2).
  { unfold render_body, Os.bind. now rewrite Hg, Hcomp. }
  destruct (gather_inv _ _ _ _ _ _ _ _ _ Hg)
    as (sf & st_a & card & Hsubs & Hcard & Hsf & Hp & _).
  destruct (compose_done w g audio_path background_path card_animation st1)
    as (c' & st2' & Hcomp' & Hcp & Hout & Hb & Hfs2 & _).
  rewrite Hcomp in Hcomp'. injection Hcomp' as <- <-.
  assert (Hname : forall f0, subtitle_file g = Some f0 ->
                             Py.last_char f0 = Some "s"%char).
  { intros f0 Hf0. rewrite Hsf in Hf0.
    pose proof (create_srt_subtitles_name w audio_path subtitle_style st)
      as Hn. cbn zeta in Hn. rewrite Hsubs in Hn. cbn [fst] in Hn.
    destruct Hn as [Hn|Hn]; [congruence|].
    rewrite Hn in Hf0. injection Hf0 as <-.
    apply subtitle_path_last_char. }
  assert (Hburned : forall f, burned_subtitle_file c = Some f ->
                              Py.last_char f = Some "s"%char).
  { intros f Hf. rewrite Hb in Hf.
    destruct (subtitle_file g) as [f0|] eqn:Hf0; [|discriminate].
    injection Hf as <-.
    destruct (adjust_speed_name (writable w) (written w) f0 speed_1_15 st1)
      as [-> | ->]; [|rewrite adjusted_name_last_char]; now apply Hname. }
  split.
  - intros Hr. destruct (finish_done w c st2 Hr) as (st' & Hfin & Hfs).
    unfold r, create_video_ffmpeg. rewrite Hbody, Hfin. cbn [fst snd].
    split; [now rewrite Hout|]. split.
    + intros f Hf. rewrite Hfs, Hf. apply cleanup_removes.
    + intros p Hcp'. rewrite Hcp, Hp in Hcp'.
      destruct (card_step_result w content card_style st_a)
        as (card' & st_b & Hcard' & Hcases).
      rewrite Hcard in Hcard'. injection Hcard' as <- <-.
      destruct Hcases as [[Hnone _] | [Hsome Himg]]; [congruence|].
      rewrite Hsome in Hcp'. injection Hcp' as <-.
      set (p := Card.card_file (output_path w) (now w)) in *.
      assert (Hlast : Py.last_char p = Some "g"%char)
        by apply card_file_last_char.
      rewrite Hfs, cleanup_keeps_other_endings
        by (intros f Hf; rewrite (Hburned f Hf), Hlast; discriminate).
      unfold Os.write. cbn. rewrite lookup_insert_ne.
      2:{ rewrite Hout. intros Heq.
          pose proof (output_file_last_char _ _ _ _ _ _ _ _ _ Hg) as H4.
          rewrite Heq, Hlast in H4. discriminate. }
      rewrite Hfs2. destruct (subtitle_file g) as [f0|] eqn:Hf0;
        [|exact Himg].
      rewrite adjust_speed_keeps_other_endings; [exact Himg|].
      rewrite (Hname f0 eq_refl), Hlast. discriminate.
  - intros e Hr.
    destruct (finish_raised w c st2 e Hr) as (st' & Hfin & Hfs & _).
    unfold r, create_video_ffmpeg. rewrite Hbody, Hfin. cbn [fst snd].
    split; [reflexivity|exact Hfs].
Qed.

(** C8.  The code at two renders of the same content.  When the encode
    succeeds, the rescaled caption file is deleted and the caption file
    it was made from is still there: the cleanup is given the name of
    the rescaled file, and its loop, which its comment says removes the
    speed-adjusted file as well, looks for a name with the suffix twice.
    When the encode fails, the cleanup is skipped and both caption files
    are still there.  The card image is kept both times. *)
Theorem caption_files_outlive_the_render :
  let done := Examples.render Examples.world_ok in
  let failed := Examples.render Examples.world_encode_fails in
  fst done = Some "out/Sky_17.mp4"%string
  /\ Os.exists_ "out/temp_subtitles_17.ass" (snd done) = true
  /\ Os.exists_ "out/temp_subtitles_17_speed1.15.ass" (snd done) = false
  /\ Os.exists_ "out/reddit_card_link_17.png" (snd done) = true
  /\ Py.replace "out/temp_subtitles_17_speed1.15.ass" ".ass"
       ("_speed1.15" +:+ ".ass")
     = "out/temp_subtitles_17_speed1.15_speed1.15.ass"%string
  /\ fst failed = None
  /\ Os.exists_ "out/temp_subtitles_17.ass" (snd failed) = true
  /\ Os.exists_ "out/temp_subtitles_17_speed1.15.ass" (snd failed) = true
  /\ Os.exists_ "out/reddit_card_link_17.png" (snd failed) = true.
Proof. vm_compute. repeat split. Qed.

(** The claim as written fails: an encode failure and a failure to probe
    the narration come back to the caller as the same [None]; nothing is
    raised and no error kind is attached. *)
Lemma encode_failure_looks_like_any_failure :
  (forall graph,
     run Examples.world_encode_fails graph
     = Py.Raised (Py.FfmpegError "No such filter: 'subtitles'"))
  /\ probe_duration Examples.world_probe_fails "voice.mp3"
     = Py.Raised (Py.OtherError "ffprobe error")
  /\ fst (Examples.render Examples.world_encode_fails) = None
  /\ fst (Examples.render Examples.world_probe_fails) = None
  /\ fst (Examples.render Examples.world_encode_fails)
     = fst (Examples.render Examples.world_probe_fails).
Proof.
  split; [intros graph; reflexivity|].
  repeat split; vm_compute; reflexivity.
Qed.

(** C9 (amended).  When the encode raises an [ffmpeg.Error], the driver
    prints a line for the command, which names none since the error
    carries none, and then, between two marker lines, the text of the
    encoder's stderr as it was decoded; it then returns [None], which is
    what it returns for every exception raised anywhere in its body. *)
Theorem encode_failure_is_printed_then_flattened
    w content audio_path background_path subtitle_style card_style
    card_animation st g st1 c st2 stderr :
  gather w content audio_path background_path subtitle_style card_style st
  = (Py.Done g, st1) ->
  compose w g audio_path background_path card_animation st1
  = (Py.Done c, st2) ->
  run w (render_graph c) = Py.Raised (Py.FfmpegError stderr) ->
  let r := create_video_ffmpeg w content audio_path background_path
             subtitle_style card_style card_animation st in
  fst r = None
  /\ Os.log (snd r)
     = Os.log st2
         ++ ["❌ FFmpeg failed. Command: ";
             "── FFmpeg stderr (start) ──";
             stderr;
             "── FFmpeg stderr (end) ──";
             "❌ FFmpeg processing failed: ffmpeg error (see stderr output for detail)"]
  /\ forall w' content' audio' background' style' card_style' animation'
            st0 e st',
       render_body w' content' audio' background' style' card_style'
         animation' st0 = (Py.Raised e, st') ->
       fst (create_video_ffmpeg w' content' audio' background' style'
              card_style' animation' st0) = None.
Proof.
  intros Hg Hcomp Hr r.
  assert (Hbody : render_body w content audio_path background_path
                    subtitle_style card_style card_animation st
                  = finish w c st2).
  { unfold render_body, Os.bind. now rewrite Hg, Hcomp. }
  destruct (finish_raised w c st2 _ Hr) as (st' & Hfin & _ & Hlog).
  unfold r, create_video_ffmpeg. rewrite Hbody, Hfin. cbn [fst snd].
  split; [reflexivity|]. split.
  - unfold Os.print. cbn [Os.log]. rewrite Hlog. cbn [stderr_lines].
    rewrite <- app_assoc. reflexivity.
  - intros w' content' audio' background' style' card_style' animation'
      st0 e st'' Hb.
    unfold create_video_ffmpeg. now rewrite Hb.
Qed.

End RenderProperties.

(** ** The slide animation *)

Section SlideProperties.

Import Slide.
Local Open Scope R_scope.

Lemma continuity_pt_eps (f : R -> R) (x : R) :
  continuity_pt f x
  <-> forall eps, 0 < eps ->
        exists delta, 0 < delta
          /\ forall t, Rabs (t - x) < delta -> Rabs (f t - f x) < eps.
Proof.
  split.
  - intros Hc eps He. destruct (Hc eps He) as (delta & Hd & H).
    exists delta. split; [exact Hd|]. intros t Ht.
    destruct (Req_dec x t) as [<-|Hne].
    + replace (f x - f x) with 0 by ring. rewrite Rabs_R0. exact He.
    + apply (H t). split; [|exact Ht]. split; [exact I|exact Hne].
  - intros H eps He. destruct (H eps He) as (delta & Hd & Hb).
    exists delta. split; [exact Hd|]. intros t [_ Ht]. apply Hb, Ht.
Qed.

(** Two continuous pieces that agree where they meet. *)
Lemma continuity_glue (f g h : R -> R) (a : R) :
  continuity f -> continuity g -> f a = g a ->
  (forall t, t < a -> h t = f t) ->
  (forall t, a < t -> h t = g t) ->
  h a = f a ->
  continuity h.
Proof.
  intros Hf Hg Hfg Hl Hr Ha x. apply continuity_pt_eps. intros eps He.
  destruct (Rtotal_order x a) as [Hx | [-> | Hx]].
  - destruct (proj1 (continuity_pt_eps f x) (Hf x) eps He)
      as (d & Hd & Hb).
    exists (Rmin d (a - x)). split; [apply Rmin_glb_lt; lra|].
    intros t Ht.
    assert (Rabs (t - x) < d) by (eapply Rlt_le_trans; [exact Ht|apply Rmin_l]).
    assert (Rabs (t - x) < a - x) by (eapply Rlt_le_trans; [exact Ht|apply Rmin_r]).
    assert (t < a) by (apply Rabs_def2 in H0; lra).
    rewrite (Hl t), (Hl x) by assumption. now apply Hb.
  - destruct (proj1 (continuity_pt_eps f a) (Hf a) eps He)
      as (d1 & Hd1 & Hb1).
    destruct (proj1 (continuity_pt_eps g a) (Hg a) eps He)
      as (d2 & Hd2 & Hb2).
    exists (Rmin d1 d2). split; [apply Rmin_glb_lt; lra|].
    intros t Ht.
    assert (Rabs (t - a) < d1) by (eapply Rlt_le_trans; [exact Ht|apply Rmin_l]).
    assert (Rabs (t - a) < d2) by (eapply Rlt_le_trans; [exact Ht|apply Rmin_r]).
    destruct (Rtotal_order t a) as [Ht' | [-> | Ht']].
    + rewrite (Hl t Ht'), Ha. now apply Hb1.
    + replace (h a - h a) with 0 by ring. now rewrite Rabs_R0.
    + rewrite (Hr t Ht'), Ha, Hfg. now apply Hb2.
  - destruct (proj1 (continuity_pt_eps g x) (Hg x) eps He)
      as (d & Hd & Hb).
    exists (Rmin d (x - a)). split; [apply Rmin_glb_lt; lra|].
    intros t Ht.
    assert (Rabs (t - x) < d) by (eapply Rlt_le_trans; [exact Ht|apply Rmin_l]).
    assert (Rabs (t - x) < x - a) by (eapply Rlt_le_trans; [exact Ht|apply Rmin_r]).
    assert (a < t) by (apply Rabs_def2 in H0; lra).
    rewrite (Hr t), (Hr x) by assumption. now apply Hb.
Qed.

Lemma wobble_wave_continuous : continuity wobble_wave.
Proof.
  unfold wobble_wave, wobble_t, wobble_amplitude, wobble_decay,
    wobble_freq, wobble_start. reg.
Qed.


Lemma wobble_eq_before (t : R) : t <= wobble_start -> wobble t = 0.
Proof.
  intros Ht. unfold wobble, ff_if, ff_gt.
  destruct (Rlt_dec wobble_start t); [lra|reflexivity].
Qed.

Lemma wobble_eq_after (t : R) : wobble_start < t -> wobble t = wobble_wave t.
Proof.
  intros Ht. unfold wobble, ff_if, ff_gt.
  destruct (Rlt_dec wobble_start t); [reflexivity|lra].
Qed.

(** The sinusoid starts from zero. *)
Lemma wobble_wave_at_start : wobble_wave wobble_start = 0.
Proof.
  unfold wobble_wave, wobble_t.
  replace (2 * PI * wobble_freq * (wobble_start - wobble_start)) with 0
    by ring.
  rewrite sin_0. ring.
Qed.

(** At the freeze time the sinusoid has made one and a half turns and is
    back at zero. *)
Lemma wobble_wave_at_freeze : wobble_wave freeze_t = 0.
Proof.
  unfold wobble_wave, wobble_t, wobble_freq, freeze_t, wobble_start.
  replace (2 * PI * (25 / 10) * (14 / 10 - 8 / 10)) with (PI + 2 * INR 1 * PI)
    by (simpl; field).
  rewrite sin_period, sin_PI. ring.
Qed.

Lemma wobble_continuous : continuity wobble.
Proof.
  apply (continuity_glue (fun _ => 0) wobble_wave wobble wobble_start).
  - intros x. apply continuity_pt_const. intros a b; reflexivity.
  - apply wobble_wave_continuous.
  - symmetry. apply wobble_wave_at_start.
  - intros t Ht. apply wobble_eq_before. lra.
  - intros t Ht. now apply wobble_eq_after.
  - apply wobble_eq_before. lra.
Qed.

Lemma slide_progress_before (t : R) :
  t <= slide_duration -> slide_progress t = t / slide_duration.
Proof.
  intros Ht. unfold slide_progress, ff_min, slide_duration in *.
  apply Rmin_left. lra.
Qed.

Lemma slide_progress_after (t : R) :
  slide_duration <= t -> slide_progress t = 1.
Proof.
  intros Ht. unfold slide_progress, ff_min, slide_duration in *.
  apply Rmin_right. lra.
Qed.

Lemma slide_progress_continuous : continuity slide_progress.
Proof.
  apply (continuity_glue (fun t => t / slide_duration) (fun _ => 1)
           slide_progress slide_duration).
  - unfold slide_duration. reg.
  - intros x. apply continuity_pt_const. intros a b; reflexivity.
  - unfold slide_duration. field.
  - intros t Ht. apply slide_progress_before. lra.
  - intros t Ht. apply slide_progress_after. lra.
  - apply slide_progress_before. lra.
Qed.

Lemma animated_expr_continuous (H h : R) : continuity (animated_expr H h).
Proof.
  intros x. unfold animated_expr.
  apply (continuity_pt_plus (slide_y H h) wobble).
  - unfold slide_y.
    apply (continuity_pt_minus (fun _ => H)
             (fun t => (H - overlay_y_target H h) * eased t)).
    + apply continuity_pt_const. intros a b; reflexivity.
    + apply (continuity_pt_mult (fun _ => H - overlay_y_target H h) eased).
      * apply continuity_pt_const. intros a b; reflexivity.
      * unfold eased.
        apply (continuity_pt_minus (fun _ => 1)
                 (fun t => (1 - slide_progress t) ^ 3)).
        -- apply continuity_pt_const. intros a b; reflexivity.
        -- apply (continuity_pt_comp (fun t => 1 - slide_progress t)
                    (fun u => u ^ 3)).
           ++ apply (continuity_pt_minus (fun _ => 1) slide_progress).
              ** apply continuity_pt_const. intros a b; reflexivity.
              ** apply slide_progress_continuous.
           ++ reg.
  - apply wobble_continuous.
Qed.

Lemma animated_expr_at_freeze (H h : R) :
  animated_expr H h freeze_t = overlay_y_target H h.
Proof.
  unfold animated_expr, slide_y, eased.
  rewrite slide_progress_after by (unfold slide_duration, freeze_t; lra).
  rewrite wobble_eq_after by (unfold wobble_start, freeze_t; lra).
  rewrite wobble_wave_at_freeze. ring.
Qed.

Lemma y_expr_before (H h t : R) :
  t < freeze_t -> y_expr H h t = animated_expr H h t.
Proof.
  intros Ht. unfold y_expr, ff_if, ff_lt.
  destruct (Rlt_dec t freeze_t); [reflexivity|lra].
Qed.

Lemma y_expr_after (H h t : R) :
  freeze_t <= t -> y_expr H h t = overlay_y_target H h.
Proof.
  intros Ht. unfold y_expr, ff_if, ff_lt.
  destruct (Rlt_dec t freeze_t); [lra|reflexivity].
Qed.

Lemma y_expr_continuous (H h : R) : continuity (y_expr H h).
Proof.
  apply (continuity_glue (animated_expr H h)
           (fun _ => overlay_y_target H h) (y_expr H h) freeze_t).
  - apply animated_expr_continuous.
  - intros x. apply continuity_pt_const. intros a b; reflexivity.
  - apply animated_expr_at_freeze.
  - intros t Ht. now apply y_expr_before.
  - intros t Ht. apply y_expr_after. lra.
  - rewrite y_expr_after by lra. symmetry. apply animated_expr_at_freeze.
Qed.

(** C6.  With [H] the frame height (the off-screen bottom) and the target
    (H - h)/2 - 150: the position is [H] at t = 0; during the slide it is
    target + (1 - eased) x (H - target) with the cubic ease-out; at
    t = 0.8 it is the target, the wobble term being 0 there; between 0.8 s
    and 1.4 s it is the target plus 40 x exp(-6 (t - 0.8)) x
    sin(2 pi 2.5 (t - 0.8)); from 1.4 s on it is the target; and it is a
    continuous function of t, so there is no jump where the slide hands
    over to the wobble or the wobble to the freeze. *)
Theorem slide_animation_spec (H h : R) :
  let target := overlay_y_target H h in
  y_expr H h 0 = H
  /\ (forall t, 0 <= t <= 8 / 10 ->
        y_expr H h t
        = target + (1 - (1 - (1 - t / (8 / 10)) ^ 3)) * (H - target))
  /\ y_expr H h (8 / 10) = target
  /\ wobble (8 / 10) = 0
  /\ wobble_wave (8 / 10) = 0
  /\ (forall t, 8 / 10 < t < 14 / 10 ->
        y_expr H h t
        = target
          + 40 * exp (- 6 * (t - 8 / 10))
            * sin (2 * PI * (25 / 10) * (t - 8 / 10)))
  /\ (forall t, 14 / 10 <= t -> y_expr H h t = target)
  /\ continuity (y_expr H h).
Proof.
  intros target.
  assert (Hslide : forall t, 0 <= t <= 8 / 10 ->
            y_expr H h t
            = target + (1 - (1 - (1 - t / (8 / 10)) ^ 3)) * (H - target)).
  { intros t Ht.
    rewrite y_expr_before by (unfold freeze_t; lra).
    unfold animated_expr, slide_y, eased.
    rewrite slide_progress_before by (unfold slide_duration; lra).
    rewrite wobble_eq_before by (unfold wobble_start; lra).
    unfold slide_duration. fold target. ring. }
  split; [rewrite Hslide by lra; field|].
  split; [exact Hslide|].
  split; [rewrite Hslide by lra; field|].
  split; [apply (wobble_eq_before (8 / 10)); unfold wobble_start; lra|].
  split; [exact wobble_wave_at_start|].
  split.
  { intros t Ht.
    rewrite y_expr_before by (unfold freeze_t; lra).
    unfold animated_expr, slide_y, eased.
    rewrite slide_progress_after by (unfold slide_duration; lra).
    rewrite wobble_eq_after by (unfold wobble_start; lra).
    unfold wobble_wave, wobble_t, wobble_amplitude, wobble_decay,
      wobble_freq, wobble_start. fold target.
    replace (Ropp 6 * (t - 8 / 10)) with (-6 * (t - 8 / 10)) by lra.
    ring. }
  split; [intros t Ht; apply y_expr_after; unfold freeze_t; lra|].
  apply y_expr_continuous.
Qed.

End SlideProperties.

(** * The properties at concrete inputs *)

Section Instances.

Import Captions Render.

(** A 20-word title on a card that is drawn: 20 / 2.5 + 1 = 9 seconds. *)
Lemma reading_time_of_title_20_words :
  Z.of_nat (List.length (Py.split Examples.title20)) = 20
  /\ (snd (fst (Card._create_reddit_card Examples.draw_ok 17
                  (Examples.info_of Examples.title20) "out" "white"
                  Examples.st0)) == 9)%Q.
Proof.
  split; [reflexivity|].
  apply (reading_time_of_title Examples.draw_ok 17
           (Examples.info_of Examples.title20) "out" "white" Examples.st0
           Examples.title20); reflexivity.
Defined.


(** One second into the animation of a 400-pixel card on a 1920-pixel
    frame: the wobble phase. *)
Lemma slide_animation_at_one_second :
  Slide.y_expr 1920 400 1
  = (Slide.overlay_y_target 1920 400
     + 40 * exp (- 6 * (1 - 8 / 10))
       * sin (2 * PI * (25 / 10) * (1 - 8 / 10)))%R.
Proof.
  destruct (slide_animation_spec 1920 400) as (_ & _ & _ & _ & _ & Hw & _).
  apply Hw. lra.
Defined.

(** A render whose card cannot be drawn. *)
Lemma card_failure_is_contained_example :
  fst (Card._create_reddit_card Examples.draw_fails 17
         (Examples.info_of Examples.title5) "out" "white" Examples.st0)
  = (None, 3%Q)
  /\ fst (Examples.render Examples.world_card_fails)
     = Some "out/Sky_17.mp4"%string.
Proof.
  destruct (card_failure_is_contained Examples.world_card_fails
              Examples.content0 "voice.mp3" "bg.mp4" None "white" "slide"
              Examples.st0 (Examples.info_of Examples.title5)
              (Py.IOError "cannot write mode RGBA as PNG")
              eq_refl eq_refl) as [Hcard _].
  split; [apply (Hcard Examples.st0)|reflexivity].
Defined.

(** A render whose rescaled caption file cannot be written. *)
Lemma rescale_failure_keeps_original_example :
  fst (Rescale._adjust_subtitle_speed
         (fun p => negb (String.eqb p "out/temp_speed1.15.ass"))
         Examples.centiseconds "out/temp.ass" speed_1_15
         Examples.st_captions)
  = "out/temp.ass"%string.
Proof.
  edestruct (rescale_failure_keeps_original
               (Examples.world_with Examples.draw_ok
                  (fun p => negb (String.eqb p "out/temp_speed1.15.ass"))
                  Examples.run_ok)
               {| audio_duration := 42; output_file := "out/Sky_17.mp4";
                  start_time := 0; subtitle_file := Some "out/temp.ass"%string;
                  reddit_card_path := None; card_reading_time := 3;
                  crop := {| Crop.out_w := 607; Crop.out_h := 1080;
                             Crop.crop_x := 656; Crop.crop_y := 0 |} |}
               "voice.mp3" "bg.mp4" "slide" "out/temp.ass" speed_1_15
               Examples.st_captions) as (Hp & _).
  - reflexivity.
  - exact Hp.
Defined.

(** A render whose encode succeeds. *)
Lemma cleanup_follows_the_encode_example :
  let r := Examples.render Examples.world_ok in
  fst r = Some "out/Sky_17.mp4"%string
  /\ Os.fs (snd r) !! "out/temp_subtitles_17_speed1.15.ass"%string = None
  /\ Os.fs (snd r) !! "out/reddit_card_link_17.png"%string
     = Some Os.Image.
Proof.
  edestruct (cleanup_follows_the_encode Examples.world_ok
               Examples.content0 "voice.mp3" "bg.mp4" None "white" "slide"
               Examples.st0) as [Hs _].
  - vm_compute. reflexivity.
  - vm_compute. reflexivity.
  - destruct (Hs eq_refl) as (H1 & H2 & H3).
    split; [exact H1|]. split.
    + apply (H2 "out/temp_subtitles_17_speed1.15.ass"%string). reflexivity.
    + apply (H3 "out/reddit_card_link_17.png"%string). reflexivity.
Defined.

(** A render whose encode fails. *)
Lemma encode_failure_is_printed_example :
  let r := Examples.render Examples.world_encode_fails in
  fst r = None
  /\ In "No such filter: 'subtitles'"%string (Os.log (snd r)).
Proof.
  edestruct (encode_failure_is_printed_then_flattened
               Examples.world_encode_fails
               Examples.content0 "voice.mp3" "bg.mp4" None "white" "slide"
               Examples.st0) as (H1 & H2 & _).
  - vm_compute. reflexivity.
  - vm_compute. reflexivity.
  - reflexivity.
  - split; [exact H1|]. unfold Examples.render. rewrite H2.
    apply in_or_app. right. simpl. auto.
Defined.

End Instances.

(** ** Words, safe names and sanitized topics *)

Section TextProperties.

Lemma chars_app (a b : string) :
  list_ascii_of_string (a +:+ b)
  = (list_ascii_of_string a ++ list_ascii_of_string b)%list.
Proof.
  induction a as [|c a IH]; [reflexivity|].
  rewrite app_cons. simpl. now rewrite IH.
Qed.

Lemma string_length_app (a b : string) :
  String.length (a +:+ b) = (String.length a + String.length b)%nat.
Proof.
  induction a as [|c a IH]; [reflexivity|].
  rewrite app_cons. simpl. now rewrite IH.
Qed.

Lemma all_app (cls : ascii -> bool) (a b : string) :
  Text.all cls (a +:+ b) = Text.all cls a && Text.all cls b.
Proof. unfold Text.all. now rewrite chars_app, forallb_app. Qed.

Lemma all_cons (cls : ascii -> bool) (c : ascii) (s : string) :
  Text.all cls (String c s) = cls c && Text.all cls s.
Proof. reflexivity. Qed.

Lemma all_weaken (p q : ascii -> bool) (s : string) :
  (forall c, p c = true -> q c = true) ->
  Text.all p s = true -> Text.all q s = true.
Proof.
  intros Hpq. induction s as [|c s IH]; [reflexivity|].
  rewrite !all_cons, !andb_true_iff. intros [Hc Hs]. auto.
Qed.

Lemma all_spaceless (w : string) :
  Text.all (fun c => negb (Py.isspace c)) w = true <->
  (forall c, In c (list_ascii_of_string w) -> Py.isspace c = false).
Proof.
  unfold Text.all. rewrite forallb_forall. split; intros H c Hc.
  - apply negb_true_iff. now apply H.
  - apply negb_true_iff. now apply H.
Qed.

(** *** [split] *)

Lemma split_from_spaceless (cur s : string) :
  (forall c, In c (list_ascii_of_string cur) -> Py.isspace c = false) ->
  Py.split_from cur s = Py.split (cur +:+ s).
Proof.
  intros H. unfold Py.split. now rewrite split_from_word, app_nil_l.
Qed.

Lemma split_from_wordlike (s cur : string) :
  (forall c, In c (list_ascii_of_string cur) -> Py.isspace c = false) ->
  Forall Py.wordlike (Py.split_from cur s).
Proof.
  revert cur. induction s as [|c s IH]; intros cur Hcur; cbn [Py.split_from].
  - destruct cur as [|x cur]; cbn [Py.is_empty]; constructor; [|constructor].
    split; [discriminate|exact Hcur].
  - destruct (Py.isspace c) eqn:Hc.
    + assert (He : Forall Py.wordlike (Py.split_from EmptyString s))
        by (apply IH; intros ? []).
      destruct cur as [|x cur]; cbn [Py.is_empty]; [exact He|].
      constructor; [|exact He]. split; [discriminate|exact Hcur].
    + apply IH. intros d Hd. rewrite chars_app in Hd.
      apply in_app_or in Hd. destruct Hd as [Hd|[<-|[]]]; auto.
Qed.

(** The words [split] returns are words: not empty, without a
    separator. *)
Lemma split_wordlike (s : string) : Forall Py.wordlike (Py.split s).
Proof. apply split_from_wordlike. intros ? []. Qed.

Lemma split_from_empty (cur : string) :
  Py.split_from cur EmptyString
  = if Py.is_empty cur then [] else [cur].
Proof. reflexivity. Qed.

(** A separator between two texts separates their words. *)
Lemma split_from_app_sep (sep : ascii) (a b cur : string) :
  Py.isspace sep = true ->
  Py.split_from cur (a +:+ String sep b)
  = (Py.split_from cur a ++ Py.split b)%list.
Proof.
  intros Hsep. revert cur. induction a as [|c a IH]; intros cur.
  - rewrite app_nil_l. cbn [Py.split_from]. rewrite Hsep.
    destruct (Py.is_empty cur); reflexivity.
  - rewrite app_cons. cbn [Py.split_from].
    destruct (Py.isspace c); [|apply IH].
    destruct (Py.is_empty cur); now rewrite IH.
Qed.

Lemma split_app_space (a b : string) :
  Py.split (a +:+ " " +:+ b) = (Py.split a ++ Py.split b)%list.
Proof. apply (split_from_app_sep " " a b EmptyString). reflexivity. Qed.

Lemma split_word (w : string) : Py.wordlike w -> Py.split w = [w].
Proof.
  intros Hw. change w with (Py.join " " [w]) at 1.
  apply split_join. now constructor.
Qed.

Lemma split_join_parts (parts : list string) :
  Py.split (Py.join " " parts) = concat (map Py.split parts).
Proof.
  induction parts as [|p parts IH]; [reflexivity|].
  destruct parts as [|q parts].
  - cbn [Py.join map concat]. now rewrite app_nil_r.
  - change (Py.join " " (p :: q :: parts))
      with (p +:+ " " +:+ Py.join " " (q :: parts)).
    rewrite split_app_space, IH. reflexivity.
Qed.

(** The characters of the words are characters of the text. *)
Lemma split_from_chars (cls : ascii -> bool) (s cur : string) :
  Text.all cls cur = true -> Text.all cls s = true ->
  Forall (fun w => Text.all cls w = true) (Py.split_from cur s).
Proof.
  revert cur. induction s as [|c s IH]; intros cur Hcur Hs;
    cbn [Py.split_from].
  - destruct (Py.is_empty cur); repeat constructor. exact Hcur.
  - rewrite all_cons in Hs. apply andb_true_iff in Hs as [Hc Hs].
    destruct (Py.isspace c).
    + destruct (Py.is_empty cur); [|constructor; [exact Hcur|]];
        now apply IH.
    + apply IH; [|exact Hs]. rewrite all_app, Hcur. cbn. now rewrite Hc.
Qed.

Lemma join_chars (cls : ascii -> bool) (ws : list string) :
  cls " "%char = true ->
  Forall (fun w => Text.all cls w = true) ws ->
  Text.all cls (Py.join " " ws) = true.
Proof.
  intros Hsp. induction 1 as [|w ws Hw Hws IH]; [reflexivity|].
  destruct ws as [|w' ws]; [exact Hw|].
  change (Py.join " " (w :: w' :: ws))
    with (w +:+ " " +:+ Py.join " " (w' :: ws)).
  rewrite !all_app, Hw, IH. cbn. now rewrite Hsp.
Qed.

(** Joining the words of a text with single spaces does not make it
    longer. *)
Lemma join_split_from_length (s cur : string) :
  (String.length (Py.join " " (Py.split_from cur s))
   <= String.length cur + String.length s)%nat.
Proof.
  revert cur. induction s as [|c s IH]; intros cur; cbn [Py.split_from].
  - destruct cur; cbn; lia.
  - destruct (Py.isspace c).
    + specialize (IH EmptyString). cbn [String.length] in IH |- *.
      destruct cur as [|x cur]; cbn [Py.is_empty]; [lia|].
      destruct (Py.split_from EmptyString s) as [|w ws]; [cbn; lia|].
      change (Py.join " " (String x cur :: w :: ws))
        with (String x cur +:+ " " +:+ Py.join " " (w :: ws)).
      rewrite !string_length_app. cbn [String.length] in *. lia.
    + specialize (IH (cur +:+ String c EmptyString)).
      rewrite string_length_app in IH. cbn [String.length] in *. lia.
Qed.

Lemma join_split_length (s : string) :
  (String.length (Py.join " " (Py.split s)) <= String.length s)%nat.
Proof. apply (join_split_from_length s EmptyString). Qed.

(** *** Slices and the [re] substitutions *)

Lemma take_length (n : nat) (s : string) :
  (String.length (Text.take n s) <= n)%nat.
Proof.
  unfold Text.take. revert s. induction n as [|n IH]; intros [|c s];
    cbn; try lia. specialize (IH s). lia.
Qed.

Lemma take_all (n : nat) (s : string) :
  (String.length s <= n)%nat -> Text.take n s = s.
Proof.
  unfold Text.take. revert s. induction n as [|n IH]; intros [|c s] H;
    cbn in *; try reflexivity; try lia. f_equal. apply IH. lia.
Qed.

Lemma take_chars (cls : ascii -> bool) (n : nat) (s : string) :
  Text.all cls s = true -> Text.all cls (Text.take n s) = true.
Proof.
  unfold Text.take. revert s. induction n as [|n IH]; intros [|c s] H;
    try reflexivity.
  rewrite all_cons in H. apply andb_true_iff in H as [Hc Hs].
  cbn [substring]. rewrite all_cons, Hc. now apply IH.
Qed.

Lemma remove_chars (cls : ascii -> bool) (s : string) :
  Text.all (fun c => negb (cls c)) (Text.remove cls s) = true.
Proof.
  induction s as [|c s IH]; [reflexivity|]. cbn [Text.remove].
  destruct (cls c) eqn:Hc; [exact IH|]. now rewrite all_cons, Hc.
Qed.

Lemma remove_none (cls : ascii -> bool) (s : string) :
  Text.all (fun c => negb (cls c)) s = true -> Text.remove cls s = s.
Proof.
  induction s as [|c s IH]; [reflexivity|]. rewrite all_cons.
  intros [Hc Hs]%andb_true_iff. cbn [Text.remove].
  apply negb_true_iff in Hc. rewrite Hc. f_equal. now apply IH.
Qed.

Lemma remove_length (cls : ascii -> bool) (s : string) :
  (String.length (Text.remove cls s) <= String.length s)%nat.
Proof.
  induction s as [|c s IH]; [reflexivity|]. cbn [Text.remove].
  destruct (cls c); cbn [String.length]; lia.
Qed.

Lemma squeeze_from_chars (p cls : ascii -> bool) (rep s : string) :
  Text.all p rep = true ->
  Text.all (fun c => cls c || p c) s = true ->
  forall in_run, Text.all p (Text.squeeze_from in_run cls rep s) = true.
Proof.
  intros Hrep. induction s as [|c s IH]; [reflexivity|].
  rewrite all_cons. intros [Hc Hs]%andb_true_iff in_run.
  cbn [Text.squeeze_from]. destruct (cls c) eqn:Ec.
  - destruct in_run; [now apply IH|]. rewrite all_app, Hrep. now apply IH.
  - cbn in Hc. rewrite all_cons, Hc. now apply IH.
Qed.

Lemma squeeze_from_none (cls : ascii -> bool) (rep s : string) :
  Text.all (fun c => negb (cls c)) s = true ->
  forall in_run, Text.squeeze_from in_run cls rep s = s.
Proof.
  induction s as [|c s IH]; [reflexivity|]. rewrite all_cons.
  intros [Hc Hs]%andb_true_iff in_run. cbn [Text.squeeze_from].
  apply negb_true_iff in Hc. rewrite Hc. f_equal. now apply IH.
Qed.

End TextProperties.

Section SafeNameProperties.

Import SafeName.

Lemma word_not_separator (c : ascii) :
  Text.is_word c = true -> separator c = false.
Proof.
  destruct c as [[] [] [] [] [] [] [] []]; vm_compute;
    intros H; (reflexivity || discriminate H).
Qed.

Lemma kept_is_word_or_separator (c : ascii) :
  negb (unsafe c) = true -> separator c || Text.is_word c = true.
Proof.
  unfold unsafe, separator. rewrite negb_involutive.
  destruct (Text.is_word c), (Py.isspace c), (Text.is_dash c);
    intros H; (reflexivity || discriminate H).
Qed.

Lemma safe_filename_words (title : string) :
  Text.all Text.is_word (_make_safe_filename title) = true.
Proof.
  unfold _make_safe_filename, Text.squeeze.
  apply take_chars, squeeze_from_chars; [reflexivity|].
  generalize (remove_chars unsafe title).
  apply all_weaken, kept_is_word_or_separator.
Qed.

Lemma safe_filename_fixpoint (s : string) :
  Text.all Text.is_word s = true -> (String.length s <= 30)%nat ->
  _make_safe_filename s = s.
Proof.
  intros Hw Hl. unfold _make_safe_filename, Text.squeeze.
  rewrite remove_none.
  - rewrite squeeze_from_none; [now apply take_all|].
    revert Hw. apply all_weaken. intros c Hc.
    now rewrite word_not_separator.
  - revert Hw. apply all_weaken. intros c Hc. unfold unsafe.
    now rewrite Hc.
Qed.

(** X1.  The name made from a title consists of word characters only
    (letters, digits, underscore) and has at most 30 characters: dashes
    and white space have become underscores, everything else is gone. *)
Theorem safe_filename_is_a_short_word (title : string) :
  Text.all Text.is_word (_make_safe_filename title) = true
  /\ (String.length (_make_safe_filename title) <= 30)%nat.
Proof. split; [apply safe_filename_words|apply take_length]. Qed.

(** X2.  Making a safe name from a safe name changes nothing. *)
Theorem safe_filename_idempotent (title : string) :
  _make_safe_filename (_make_safe_filename title)
  = _make_safe_filename title.
Proof.
  apply safe_filename_fixpoint;
    [apply safe_filename_words|apply take_length].
Qed.

Lemma string_of_uint_digits (d : Decimal.uint) :
  Text.all Text.is_digit (NilEmpty.string_of_uint d) = true.
Proof. induction d; cbn [NilEmpty.string_of_uint]; try reflexivity;
  rewrite all_cons; exact IHd. Qed.

Lemma str_of_nat_digits (n : nat) :
  Text.all Text.is_digit (Py.str_of_nat n) = true.
Proof. apply string_of_uint_digits. Qed.

Lemma digit_is_word (c : ascii) :
  Text.is_digit c = true -> Text.is_word c = true.
Proof.
  destruct c as [[] [] [] [] [] [] [] []]; vm_compute;
    intros H; (reflexivity || discriminate H).
Qed.

Lemma digit_not_space (c : ascii) :
  Text.is_digit c = true -> Py.isspace c = false.
Proof.
  destruct c as [[] [] [] [] [] [] [] []]; vm_compute;
    intros H; (reflexivity || discriminate H).
Qed.

(** X3.  With [_make_safe_filename] in its place, the video lands
    directly in the output folder whatever the title: the file name
    that is joined to the folder is made of word characters and dots,
    so it holds no path separator. *)
Theorem output_file_is_in_the_output_folder
    (w : Render.world) content audio_path background_path
    subtitle_style card_style st g st1 :
  Render.make_safe_filename w = _make_safe_filename ->
  Render.gather w content audio_path background_path subtitle_style
    card_style st = (Py.Done g, st1) ->
  exists name,
    Render.output_file g = Os.path_join (Render.output_path w) name
    /\ Text.all (fun c => Text.is_word c || Ascii.eqb c ".") name = true.
Proof.
  intros Hsafe.
  unfold Render.gather, Os.bind, Os.lift, Os.ret.
  destruct (Render.probe_duration w audio_path) as [ad|]; [|discriminate].
  destruct (Render.probe_duration w background_path) as [vd|];
    [|discriminate].
  destruct (Render._create_srt_subtitles w audio_path subtitle_style st)
    as [sf st_a].
  destruct (Render.card_step w content card_style st_a) as [[card|] st_b];
    [|discriminate].
  destruct (Render.probe_size w background_path) as [size|];
    [|discriminate].
  destruct (Crop.crop_for size.1 size.2) as [crop|]; [|discriminate].
  intros [= <- _]. cbn [Render.output_file]. eexists. split; [reflexivity|].
  rewrite Hsafe, !all_app. repeat (apply andb_true_iff; split);
    try reflexivity.
  - generalize (safe_filename_words (Render.title content)).
    apply all_weaken. now intros c ->.
  - generalize (str_of_nat_digits (Render.now w)).
    apply all_weaken. intros c Hc. now rewrite digit_is_word.
Qed.

End SafeNameProperties.

Section TopicProperties.

Import Web.

Lemma sanitized_form (s : string) :
  Text.all (fun c => negb (dangerous c)) s = true ->
  (String.length s <= 100)%nat ->
  let r := Py.join " " (Py.split s) in
  Text.all (fun c => negb (dangerous c)) r = true
  /\ (String.length r <= 100)%nat
  /\ Py.split r = Py.split s.
Proof.
  intros Hs Hl r. split; [|split].
  - apply join_chars; [reflexivity|].
    now apply (split_from_chars _ s EmptyString).
  - pose proof (join_split_length s). unfold r. lia.
  - apply split_join, split_wordlike.
Qed.

Lemma sanitize_topic_cases (topic : string) :
  exists s, Text.all (fun c => negb (dangerous c)) s = true
            /\ (String.length s <= 100)%nat
            /\ sanitize_topic topic = Py.join " " (Py.split s).
Proof.
  unfold sanitize_topic. destruct (Py.is_empty topic).
  - exists EmptyString. repeat split. cbn. lia.
  - eexists. split; [|split; [|reflexivity]].
    + apply take_chars, remove_chars.
    + apply take_length.
Qed.

(** X4.  A sanitized topic holds none of the removed characters, has at
    most 100 characters, and is written with single spaces: it is its
    own words joined by one space each, so it neither starts nor ends
    with white space. *)
Theorem sanitize_topic_is_clean (topic : string) :
  let r := sanitize_topic topic in
  Text.all (fun c => negb (dangerous c)) r = true
  /\ (String.length r <= 100)%nat
  /\ r = Py.join " " (Py.split r).
Proof.
  destruct (sanitize_topic_cases topic) as (s & Hs & Hl & ->).
  destruct (sanitized_form s Hs Hl) as (H1 & H2 & H3).
  cbv zeta. now rewrite H3.
Qed.

(** X5.  Sanitizing twice is sanitizing once. *)
Theorem sanitize_topic_idempotent (topic : string) :
  sanitize_topic (sanitize_topic topic) = sanitize_topic topic.
Proof.
  destruct (sanitize_topic_cases topic) as (s & Hs & Hl & ->).
  destruct (sanitized_form s Hs Hl) as (H1 & H2 & H3).
  unfold sanitize_topic at 1.
  destruct (Py.is_empty (Py.join " " (Py.split s))) eqn:He.
  - destruct (Py.join " " (Py.split s)); [reflexivity|discriminate].
  - now rewrite remove_none, take_all, H3.
Qed.

End TopicProperties.

Section StoryProperties.

Import Story.

Lemma join_snoc_suffix (ws : list string) (w suffix : string) :
  Py.join " " (ws ++ [w]) +:+ suffix = Py.join " " (ws ++ [w +:+ suffix]).
Proof.
  induction ws as [|x ws IH]; [reflexivity|].
  destruct ws as [|y ws].
  - cbn [List.app Py.join]. now rewrite !app_assoc_string.
  - change (Py.join " " ((x :: y :: ws) ++ [w]))
      with (x +:+ " " +:+ Py.join " " ((y :: ws) ++ [w])).
    change (Py.join " " ((x :: y :: ws) ++ [w +:+ suffix]))
      with (x +:+ " " +:+ Py.join " " ((y :: ws) ++ [w +:+ suffix])).
    now rewrite !app_assoc_string, IH.
Qed.

Lemma wordlike_suffix (w suffix : string) :
  Py.wordlike w ->
  (forall c, In c (list_ascii_of_string suffix) -> Py.isspace c = false) ->
  Py.wordlike (w +:+ suffix).
Proof.
  intros [Hne Hw] Hs. split; [now apply app_nonempty_l|].
  intros c Hc. rewrite chars_app in Hc.
  apply in_app_or in Hc as [Hc|Hc]; auto.
Qed.

Lemma firstn_snoc {A : Type} (d : A) (n : nat) (l : list A) :
  (n < List.length l)%nat ->
  firstn (S n) l = (firstn n l ++ [nth n l d])%list.
Proof.
  revert l. induction n as [|n IH]; intros [|x l] H; cbn in *; try lia.
  - reflexivity.
  - f_equal. apply IH. lia.
Qed.

(** The words of a text after the cut. *)
Lemma truncate_words_split (limit : nat) (text : string) :
  (0 < limit)%nat ->
  Py.split (truncate_words limit text) = capped limit (Py.split text).
Proof.
  intros Hpos. unfold truncate_words, capped.
  destruct (limit <? List.length (Py.split text))%nat eqn:E; [|reflexivity].
  apply Nat.ltb_lt in E.
  pose proof (split_wordlike text) as Hw.
  set (ws := Py.split text) in *.
  destruct limit as [|n]; [lia|].
  rewrite (firstn_snoc EmptyString) by lia.
  replace (S n - 1)%nat with n by lia.
  rewrite join_snoc_suffix. apply split_join.
  rewrite List.Forall_forall in Hw.
  apply List.Forall_app. split.
  - apply List.Forall_forall. intros x Hx. apply Hw.
    rewrite <- (firstn_skipn n ws). apply in_or_app. now left.
  - constructor; [|constructor]. apply wordlike_suffix.
    + apply Hw, nth_In. lia.
    + intros c [<-|[<-|[<-|[]]]]; reflexivity.
Qed.

Lemma capped_length (limit : nat) (ws : list string) :
  (0 < limit)%nat ->
  List.length (capped limit ws) = Nat.min limit (List.length ws).
Proof.
  intros Hpos. unfold capped.
  destruct (limit <? List.length ws)%nat eqn:E.
  - apply Nat.ltb_lt in E.
    rewrite List.length_app, length_firstn. cbn. lia.
  - apply Nat.ltb_ge in E. lia.
Qed.

Lemma capped_firstn (limit k : nat) (ws : list string) :
  (k < limit)%nat -> firstn k (capped limit ws) = firstn k ws.
Proof.
  intros Hk. unfold capped.
  destruct (limit <? List.length ws)%nat eqn:E; [|reflexivity].
  apply Nat.ltb_lt in E.
  rewrite firstn_app, firstn_firstn, length_firstn.
  replace (Nat.min k (limit - 1)) with k by lia.
  replace (k - Nat.min (limit - 1) (List.length ws))%nat with 0%nat by lia.
  cbn. apply app_nil_r.
Qed.

(** X6.  A story of more than 400 words is cut to exactly 400: the
    first 399 words are the story's, and the 400th is the story's 400th
    followed by three dots.  A shorter story keeps its words. *)
Theorem truncate_story_spec (story : string) :
  let words := Py.split story in
  let cut := Py.split (truncate_story story) in
  List.length cut = Nat.min 400 (List.length words)
  /\ firstn 399 cut = firstn 399 words
  /\ nth 399 cut EmptyString
     = (if (400 <? List.length words)%nat
        then nth 399 words EmptyString +:+ "..."
        else nth 399 words EmptyString).
Proof.
  intros words cut. unfold cut, truncate_story.
  rewrite truncate_words_split by lia. fold words.
  split; [apply capped_length; lia|].
  split; [apply capped_firstn; lia|].
  unfold capped. destruct (400 <? List.length words)%nat eqn:H;
    [|reflexivity].
  apply Nat.ltb_lt in H.
  rewrite app_nth2; rewrite length_firstn; [|lia].
  replace (399 - Nat.min (400 - 1) (List.length words))%nat
    with 0%nat by lia.
  reflexivity.
Qed.

Lemma number_wordlike (i : nat) : Py.wordlike (Py.str_of_nat i +:+ ".").
Proof.
  split; [apply app_nonempty_r; discriminate|].
  intros c Hc. rewrite chars_app in Hc.
  apply in_app_or in Hc as [Hc|[<-|[]]]; [|reflexivity].
  apply digit_not_space.
  pose proof (str_of_nat_digits i) as Hd. unfold Text.all in Hd.
  rewrite forallb_forall in Hd. now apply Hd.
Qed.

Lemma story_part_split (i : nat) (c : string) :
  Py.split (story_part i c) = answer_words i c.
Proof.
  unfold story_part, answer_words.
  replace (Py.str_of_nat i +:+ ". " +:+ truncate_words 80 c)
    with ((Py.str_of_nat i +:+ ".") +:+ " " +:+ truncate_words 80 c)
    by (now rewrite app_assoc_string).
  rewrite split_app_space, split_word by apply number_wordlike.
  now rewrite truncate_words_split by lia.
Qed.

Lemma story_parts_split (cs : list string) (i : nat) :
  concat (map Py.split (story_parts_from i cs)) = answers_from i cs.
Proof.
  revert i. induction cs as [|c cs IH]; intros i; [reflexivity|].
  cbn [story_parts_from map concat answers_from].
  now rewrite story_part_split, IH.
Qed.

Lemma answers_from_app (a b : list string) (i : nat) :
  answers_from i (a ++ b)
  = (answers_from i a ++ answers_from (i + List.length a) b)%list.
Proof.
  revert i. induction a as [|c a IH]; intros i.
  - cbn. now rewrite Nat.add_0_r.
  - cbn [List.app answers_from List.length]. rewrite IH, <- app_assoc.
    now replace (S i + List.length a)%nat with (i + S (List.length a))%nat
      by lia.
Qed.

Lemma answers_from_length (cs : list string) (i : nat) :
  (List.length (answers_from i cs) <= 81 * List.length cs)%nat.
Proof.
  revert i. induction cs as [|c cs IH]; intros i; [cbn; lia|].
  cbn [answers_from List.length]. rewrite List.length_app.
  specialize (IH (S i)). unfold answer_words. cbn [List.length].
  rewrite capped_length by lia. lia.
Qed.

Lemma firstn_succ_split {A : Type} (n : nat) (l : list A) :
  firstn (S n) l = (firstn n l ++ firstn 1 (skipn n l))%list.
Proof.
  revert l. induction n as [|n IH]; intros [|x l]; try reflexivity.
  cbn [firstn skipn List.app]. f_equal. apply IH.
Qed.

(** X7.  The spoken answer to an ask post is made of the five best
    comments at most, numbered from 1 and capped at 80 words each, and
    has at most 400 words in all.  Four answers come to 324 words at
    most, so the last cut can only shorten the fifth: the first four
    answers are always read out whole.  Without a comment there is no
    story. *)
Theorem ask_story_words (comments : list string) :
  match ask_story comments with
  | None => comments = []
  | Some story =>
      let answers := answers_from 1 (firstn 5 comments) in
      let four := answers_from 1 (firstn 4 comments) in
      Py.split story = capped 400 answers
      /\ (List.length (Py.split story) <= 400)%nat
      /\ firstn (List.length four) (Py.split story) = four
  end.
Proof.
  unfold ask_story.
  destruct (firstn 5 comments) as [|c cs] eqn:E.
  - destruct comments; [reflexivity|discriminate].
  - rewrite <- E. clear c cs E. cbv zeta.
    unfold truncate_story. rewrite truncate_words_split by lia.
    rewrite split_join_parts, story_parts_split.
    split; [reflexivity|]. split.
    + rewrite capped_length by lia. lia.
    + pose proof (answers_from_length (firstn 4 comments) 1) as Hl.
      pose proof (length_firstn 4 comments) as H4.
      rewrite capped_firstn by lia.
      rewrite (firstn_succ_split 4), answers_from_app.
      rewrite firstn_app, Nat.sub_diag, firstn_all. cbn [firstn].
      now rewrite app_nil_r.
Qed.

End StoryProperties.

Section TimeAgoProperties.

Import TimeAgo.
Local Open Scope Q_scope.

Ltac qlra :=
  unfold Qdiv in *;
  change (/ 60) with (1 # 60) in *; change (/ 3600) with (1 # 3600) in *;
  change (/ 86400) with (1 # 86400) in *; change (/ 24) with (1 # 24) in *;
  Lqa.lra.

Lemma int_of_float_is_floor (x : Q) :
  0 <= x -> Py.int_of_float x = Qfloor x.
Proof.
  intros Hx. destruct x as [n d]. unfold Py.int_of_float. cbn.
  apply Z.quot_div_nonneg; [|lia]. unfold Qle in Hx. cbn in Hx. lia.
Qed.

Lemma Qfloor_unique (z : Z) (x : Q) :
  inject_Z z <= x -> x < inject_Z z + 1 -> Qfloor x = z.
Proof.
  intros L U.
  pose proof (Qfloor_le x) as L'. pose proof (Qlt_floor x) as U'.
  assert (H1 : inject_Z z < inject_Z (Qfloor x + 1)).
  { eapply Qle_lt_trans; [exact L|exact U']. }
  assert (H2 : inject_Z (Qfloor x) < inject_Z (z + 1)).
  { rewrite inject_Z_plus. eapply Qle_lt_trans; [exact L'|exact U]. }
  rewrite <- Zlt_Qlt in H1, H2. lia.
Qed.

Lemma lt_true (a b : Q) : lt a b = true <-> a < b.
Proof.
  unfold lt. rewrite negb_true_iff. split.
  - intros H. apply Qnot_le_lt. intros Hle.
    apply Qle_bool_iff in Hle. congruence.
  - intros H. destruct (Qle_bool b a) eqn:E; [|reflexivity].
    apply Qle_bool_iff in E. exfalso. apply (Qlt_not_le _ _ H E).
Qed.

Lemma lt_false (a b : Q) : lt a b = false <-> b <= a.
Proof.
  unfold lt. rewrite negb_false_iff. apply Qle_bool_iff.
Qed.

Lemma int_of_float_below_one (x : Q) : x < 1 -> (Py.int_of_float x < 1)%Z.
Proof.
  intros Hx. destruct (Qlt_le_dec x 0) as [Hneg|Hpos].
  - assert (H0 : 0 <= - x) by qlra.
    pose proof (int_of_float_nonneg _ H0) as H.
    rewrite int_of_float_opp in H. lia.
  - destruct (int_of_float_floor x Hpos) as [L _].
    assert (H : inject_Z (Py.int_of_float x) < inject_Z 1)
      by (eapply Qle_lt_trans; [exact L|exact Hx]).
    now rewrite <- Zlt_Qlt in H.
Qed.

Lemma floor_ge (z : Z) (x : Q) : inject_Z z <= x -> (z <= Qfloor x)%Z.
Proof.
  intros H. pose proof (Qlt_floor x) as U.
  assert (H1 : inject_Z z < inject_Z (Qfloor x + 1))
    by (eapply Qle_lt_trans; [exact H|exact U]).
  rewrite <- Zlt_Qlt in H1. lia.
Qed.

Lemma floor_lt (z : Z) (x : Q) : x < inject_Z z -> (Qfloor x < z)%Z.
Proof.
  intros H. pose proof (Qfloor_le x) as L.
  assert (H1 : inject_Z (Qfloor x) < inject_Z z)
    by (eapply Qle_lt_trans; [exact L|exact H]).
  now rewrite <- Zlt_Qlt in H1.
Qed.

(** Whole days out of whole hours are the whole days of the age. *)
Lemma days_of_hours (age : Q) :
  0 <= age ->
  Qfloor (inject_Z (Qfloor (age / 3600)) / 24) = Qfloor (age / 86400).
Proof.
  intros Hage. symmetry. apply Qfloor_unique.
  - set (h := Qfloor (age / 3600)).
    pose proof (Qfloor_le (inject_Z h / 24)) as L.
    pose proof (Qfloor_le (age / 3600)) as Lh. fold h in Lh.
    qlra.
  - set (h := Qfloor (age / 3600)).
    set (D := Qfloor (inject_Z h / 24)).
    pose proof (Qlt_floor (inject_Z h / 24)) as U. fold D in U.
    pose proof (Qlt_floor (age / 3600)) as Uh. fold h in Uh.
    assert (Hz : (h + 1 <= 24 * (D + 1))%Z).
    { assert (H : inject_Z h < inject_Z (24 * (D + 1))).
      { rewrite inject_Z_mult. rewrite inject_Z_plus in U.
        change (inject_Z 24) with 24. change (inject_Z 1) with 1 in *.
        rewrite inject_Z_plus. change (inject_Z 1) with 1. qlra. }
      rewrite <- Zlt_Qlt in H. lia. }
    rewrite Zle_Qle in Hz.
    rewrite inject_Z_plus, inject_Z_mult, !inject_Z_plus in *.
    change (inject_Z 24) with 24 in Hz. change (inject_Z 1) with 1 in *.
    qlra.
Qed.

(** X8.  The age label of a post.  A timestamp of zero (the default for
    a post without one) reads "recently".  Otherwise an age under a
    minute, or a timestamp in the future, reads "just now"; under an
    hour the whole minutes (1 to 59); under a day the whole hours (1 to
    23); from there on the whole days, which the code computes from the
    whole hours. *)
Theorem format_time_ago_by_age (current_time created_utc : Q) :
  _format_time_ago current_time created_utc
  = if Qeq_bool created_utc 0 then "recently"%string
    else age_label (current_time - created_utc).
Proof.
  unfold _format_time_ago, age_label.
  destruct (Qeq_bool created_utc 0); [reflexivity|].
  set (age := current_time - created_utc).
  destruct (lt age 60) eqn:E60.
  - apply lt_true in E60.
    assert (H1 : (Py.int_of_float (age / 3600) < 1)%Z)
      by (apply int_of_float_below_one; qlra).
    assert (H2 : (Py.int_of_float (age / 60) < 1)%Z)
      by (apply int_of_float_below_one; qlra).
    apply Z.ltb_lt in H1. rewrite H1.
    destruct (0 <? Py.int_of_float (age / 60))%Z eqn:E; [|reflexivity].
    apply Z.ltb_lt in E. lia.
  - apply lt_false in E60.
    rewrite !int_of_float_is_floor by qlra.
    destruct (lt age 3600) eqn:E3600.
    + apply lt_true in E3600.
      assert (H1 : (Qfloor (age / 3600) < 1)%Z)
        by (apply floor_lt; change (inject_Z 1) with 1; qlra).
      apply Z.ltb_lt in H1. rewrite H1.
      assert (H2 : (1 <= Qfloor (age / 60))%Z)
        by (apply floor_ge; change (inject_Z 1) with 1; qlra).
      assert (H3 : (0 <? Qfloor (age / 60))%Z = true)
        by (apply Z.ltb_lt; lia).
      now rewrite H3.
    + apply lt_false in E3600.
      assert (H1 : (1 <= Qfloor (age / 3600))%Z)
        by (apply floor_ge; change (inject_Z 1) with 1; qlra).
      assert (H2 : (Qfloor (age / 3600) <? 1)%Z = false)
        by (apply Z.ltb_ge; lia).
      rewrite H2.
      destruct (lt age 86400) eqn:Eday.
      * apply lt_true in Eday.
        assert (H3 : (Qfloor (age / 3600) < 24)%Z)
          by (apply floor_lt; change (inject_Z 24) with 24; qlra).
        apply Z.ltb_lt in H3. now rewrite H3.
      * apply lt_false in Eday.
        assert (H3 : (24 <= Qfloor (age / 3600))%Z)
          by (apply floor_ge; change (inject_Z 24) with 24; qlra).
        assert (H4 : (Qfloor (age / 3600) <? 24)%Z = false)
          by (apply Z.ltb_ge; lia).
        rewrite H4.
        rewrite int_of_float_is_floor.
        -- now rewrite days_of_hours by qlra.
        -- assert (H5 : 0 <= inject_Z (Qfloor (age / 3600))).
           { change 0 with (inject_Z 0). rewrite <- Zle_Qle. lia. }
           qlra.
Qed.

End TimeAgoProperties.

Section LayoutProperties.

Import Layout.

Lemma rstrip_spaceless (w : string) :
  (forall c, In c (list_ascii_of_string w) -> Py.isspace c = false) ->
  Py.rstrip w = w.
Proof.
  induction w as [|c w IH]; intros H; [reflexivity|].
  cbn [Py.rstrip]. rewrite (H c) by (simpl; auto). cbn.
  rewrite IH; [reflexivity|]. intros d Hd. apply H. simpl. auto.
Qed.

Lemma rstrip_app_word (a w : string) :
  Py.wordlike w -> Py.rstrip (a +:+ w) = a +:+ w.
Proof.
  intros [Hne Hw]. induction a as [|c a IH].
  - rewrite app_nil_l. now apply rstrip_spaceless.
  - rewrite app_cons. cbn [Py.rstrip]. rewrite IH.
    rewrite (is_empty_false (a +:+ w)) by (now apply app_nonempty_r).
    now rewrite andb_false_r.
Qed.

Lemma rstrip_app_space (s : string) : Py.rstrip (s +:+ " ") = Py.rstrip s.
Proof.
  induction s as [|c s IH]; [reflexivity|].
  rewrite app_cons. cbn [Py.rstrip]. now rewrite IH.
Qed.

Lemma lstrip_word_app (w b : string) :
  Py.wordlike w -> Py.lstrip (w +:+ b) = w +:+ b.
Proof.
  intros [Hne Hw]. destruct w as [|c w]; [congruence|].
  rewrite app_cons. cbn [Py.lstrip].
  now rewrite (Hw c) by (simpl; auto).
Qed.

Lemma join_last_word (ws : list string) (w : string) :
  exists a, Py.join " " (ws ++ [w]) = a +:+ w.
Proof.
  induction ws as [|x ws [a IH]].
  - exists EmptyString. reflexivity.
  - exists (x +:+ " " +:+ a).
    destruct ws as [|y ws].
    + cbn [List.app Py.join] in *. cbn [List.app Py.join].
      rewrite !app_assoc_string. do 2 f_equal. exact IH.
    + change (Py.join " " ((x :: y :: ws) ++ [w]))
        with (x +:+ " " +:+ Py.join " " ((y :: ws) ++ [w])).
      rewrite IH. now rewrite !app_assoc_string.
Qed.

Lemma join_first_word (w : string) (ws : list string) :
  exists b, Py.join " " (w :: ws) = w +:+ b.
Proof.
  destruct ws as [|y ws].
  - exists EmptyString. cbn. now rewrite app_empty_r.
  - eexists. reflexivity.
Qed.

Lemma snoc_cases {A : Type} (l : list A) :
  l = [] \/ exists l' x, l = (l' ++ [x])%list.
Proof.
  induction l as [|a l IH] using rev_ind; [now left|right; eauto].
Qed.

(** Stripping a line of words gives the words with single spaces. *)
Lemma strip_join (ws : list string) :
  Forall Py.wordlike ws -> Py.strip (Py.join " " ws) = Py.join " " ws.
Proof.
  intros Hws. unfold Py.strip.
  destruct ws as [|w ws]; [reflexivity|].
  destruct (join_first_word w ws) as [b Eb].
  rewrite Eb, lstrip_word_app by (now inversion Hws). rewrite <- Eb.
  destruct (snoc_cases (w :: ws)) as [E|(l' & x & E)]; [discriminate|].
  rewrite E in *. destruct (join_last_word l' x) as [a Ea].
  rewrite Ea. apply rstrip_app_word.
  rewrite List.Forall_forall in Hws. apply Hws, in_or_app. right.
  now left.
Qed.

Lemma rstrip_join (ws : list string) :
  Forall Py.wordlike ws -> Py.rstrip (Py.join " " ws) = Py.join " " ws.
Proof.
  intros Hws.
  destruct (snoc_cases ws) as [->|(l' & x & E)]; [reflexivity|].
  rewrite E in *. destruct (join_last_word l' x) as [a Ea].
  rewrite Ea. apply rstrip_app_word.
  rewrite List.Forall_forall in Hws. apply Hws, in_or_app. right.
  now left.
Qed.

Lemma strip_line_of (ws : list string) :
  Forall Py.wordlike ws -> Py.strip (line_of ws) = Py.join " " ws.
Proof.
  intros Hws. destruct ws as [|w ws]; [reflexivity|].
  cbn [line_of]. unfold Py.strip.
  destruct (join_first_word w ws) as [b Eb].
  rewrite Eb, app_assoc_string, lstrip_word_app by (now inversion Hws).
  rewrite <- app_assoc_string, <- Eb, rstrip_app_space.
  now apply rstrip_join.
Qed.

Lemma join_snoc (ws : list string) (w : string) :
  ws <> [] -> Py.join " " (ws ++ [w]) = Py.join " " ws +:+ " " +:+ w.
Proof.
  induction ws as [|x ws IH]; [congruence|]. intros _.
  destruct ws as [|y ws]; [reflexivity|].
  change (Py.join " " ((x :: y :: ws) ++ [w]))
    with (x +:+ " " +:+ Py.join " " ((y :: ws) ++ [w])).
  rewrite IH by discriminate.
  change (Py.join " " (x :: y :: ws))
    with (x +:+ " " +:+ Py.join " " (y :: ws)).
  now rewrite !app_assoc_string.
Qed.

Lemma line_of_snoc (ws : list string) (w : string) :
  line_of ws +:+ w +:+ " " = line_of (ws ++ [w]).
Proof.
  destruct ws as [|x ws]; [reflexivity|].
  transitivity (Py.join " " ((x :: ws) ++ [w]) +:+ " ").
  - rewrite join_snoc by discriminate. cbn [line_of].
    now rewrite !app_assoc_string.
  - reflexivity.
Qed.

Lemma rstrip_line_of (ws : list string) :
  Forall Py.wordlike ws -> Py.rstrip (line_of ws) = Py.join " " ws.
Proof.
  intros Hws. destruct ws as [|w ws]; [reflexivity|].
  cbn [line_of]. rewrite rstrip_app_space. now apply rstrip_join.
Qed.

Variable width : string -> Q.
Variable max_width : Q.

Lemma wrap_loop_words (words cur lines : list string) :
  Forall Py.wordlike words -> Forall Py.wordlike cur ->
  concat (map Py.split (wrap_loop width max_width words (line_of cur) lines))
  = (concat (map Py.split lines) ++ cur ++ words)%list.
Proof.
  intros Hwords. revert cur lines.
  induction Hwords as [|w words Hw Hwords IH]; intros cur lines Hcur;
    cbn [wrap_loop].
  - rewrite map_app, concat_app. cbn [map concat].
    rewrite strip_line_of, split_join by exact Hcur.
    now rewrite !app_nil_r.
  - rewrite line_of_snoc.
    destruct (Qle_bool _ max_width).
    + rewrite IH by (apply List.Forall_app; split; [exact Hcur|now constructor]).
      now rewrite <- app_assoc.
    + change (w +:+ " ") with (line_of [w]).
      rewrite IH by (now constructor).
      rewrite map_app, concat_app. cbn [map concat].
      rewrite strip_line_of, split_join by exact Hcur.
      now rewrite app_nil_r, <- app_assoc.
Qed.

(** X9.  Wrapping loses no word and adds none: the words of the lines,
    read in order, are the words of the text. *)
Theorem wrap_text_keeps_the_words (text : string) :
  concat (map Py.split (wrap_text width max_width text)) = Py.split text.
Proof.
  unfold wrap_text.
  pose proof (wrap_loop_words (Py.split text) [] [] (split_wordlike text)
                (List.Forall_nil _)) as H.
  exact H.
Qed.

Lemma wrap_loop_fits (words cur lines : list string) :
  let ok := fun l => (1 < List.length (Py.split l))%nat ->
                     Qle_bool (width l) max_width = true in
  Forall Py.wordlike words -> Forall Py.wordlike cur ->
  ok (Py.join " " cur) -> Forall ok lines ->
  Forall ok (wrap_loop width max_width words (line_of cur) lines).
Proof.
  intros ok Hwords. revert cur lines.
  induction Hwords as [|w words Hw Hwords IH]; intros cur lines Hcur Hok Hl;
    cbn [wrap_loop].
  - apply List.Forall_app. split; [exact Hl|].
    constructor; [|constructor]. now rewrite strip_line_of.
  - assert (Hcw : Forall Py.wordlike (cur ++ [w]))
      by (apply List.Forall_app; split; [exact Hcur|now constructor]).
    rewrite line_of_snoc, rstrip_line_of by exact Hcw.
    destruct (Qle_bool (width (Py.join " " (cur ++ [w]))) max_width) eqn:E.
    + apply IH; [exact Hcw| |exact Hl]. intros _. exact E.
    + change (w +:+ " ") with (line_of [w]).
      apply IH; [now constructor| |].
      * unfold ok. cbn [Py.join]. rewrite split_word by exact Hw.
        cbn. lia.
      * apply List.Forall_app. split; [exact Hl|].
        constructor; [|constructor]. now rewrite strip_line_of.
Qed.

(** X10.  A wrapped line that holds more than one word fits the width:
    only a line made of a single word may stick out (the loop never
    breaks a word). *)
Theorem wrap_text_lines_fit (text : string) :
  Forall (fun line => (1 < List.length (Py.split line))%nat ->
                      Qle_bool (width line) max_width = true)
    (wrap_text width max_width text).
Proof.
  unfold wrap_text.
  apply (wrap_loop_fits (Py.split text) [] []);
    [apply split_wordlike|constructor| |constructor].
  cbn. lia.
Qed.

Lemma join_nonempty (ws : list string) :
  Forall Py.wordlike ws -> ws <> [] -> Py.join " " ws <> EmptyString.
Proof.
  intros Hws Hne. destruct ws as [|w ws]; [congruence|].
  destruct (join_first_word w ws) as [b ->].
  apply app_nonempty_l. inversion Hws as [|? ? [H _] _]. exact H.
Qed.

Lemma wrap_loop_nonempty (words cur lines : list string) :
  Forall Py.wordlike words -> Forall Py.wordlike cur -> cur <> [] ->
  exists l ls,
    Forall (fun x => x <> EmptyString) (l :: ls)
    /\ wrap_loop width max_width words (line_of cur) lines
       = (lines ++ l :: ls)%list.
Proof.
  intros Hwords. revert cur lines.
  induction Hwords as [|w words Hw Hwords IH]; intros cur lines Hcur Hne;
    cbn [wrap_loop].
  - exists (Py.join " " cur), []. rewrite strip_line_of by exact Hcur.
    split; [|reflexivity]. constructor; [|constructor].
    now apply join_nonempty.
  - assert (Hcw : Forall Py.wordlike (cur ++ [w]))
      by (apply List.Forall_app; split; [exact Hcur|now constructor]).
    rewrite line_of_snoc.
    destruct (Qle_bool _ max_width).
    + apply IH; [exact Hcw|]. now destruct cur.
    + change (w +:+ " ") with (line_of [w]).
      destruct (IH [w] (lines ++ [Py.strip (line_of cur)]))
        as (l & ls & Hall & E); [now constructor|discriminate|].
      exists (Py.join " " cur), (l :: ls).
      rewrite E, strip_line_of, <- app_assoc by exact Hcur.
      split; [|reflexivity]. constructor; [|exact Hall].
      now apply join_nonempty.
Qed.

(** X11.  The shape of a wrapped title.  A title without a word is one
    empty line.  Otherwise no line is empty, except that a title whose
    first word alone is wider than the line starts with an empty line:
    the title then takes one line more than its words need. *)
Theorem wrap_text_shape (text : string) :
  match Py.split text with
  | [] => wrap_text width max_width text = [EmptyString]
  | first :: _ =>
      exists l ls,
        Forall (fun x => x <> EmptyString) (l :: ls)
        /\ wrap_text width max_width text
           = if Qle_bool (width first) max_width then l :: ls
             else EmptyString :: l :: ls
  end.
Proof.
  unfold wrap_text. pose proof (split_wordlike text) as Hw.
  destruct (Py.split text) as [|w ws]; [reflexivity|].
  inversion Hw as [|? ? Hw1 Hws]; subst. cbn [wrap_loop].
  rewrite app_nil_l.
  replace (Py.rstrip (w +:+ " ")) with w
    by (rewrite rstrip_app_space, rstrip_spaceless; [reflexivity|apply Hw1]).
  change (w +:+ " ") with (line_of [w]).
  destruct (Qle_bool (width w) max_width).
  - destruct (wrap_loop_nonempty ws [w] []) as (l & ls & Hall & E);
      [exact Hws|now constructor|discriminate|].
    exists l, ls. now rewrite E.
  - destruct (wrap_loop_nonempty ws [w] ([] ++ [Py.strip EmptyString]))
      as (l & ls & Hall & E); [exact Hws|now constructor|discriminate|].
    exists l, ls. now rewrite E.
Qed.

End LayoutProperties.

Section CardHeightProperties.

Import Layout.
Local Open Scope Q_scope.

Lemma card_height_sum (n : nat) (ag_bottom : Q) :
  65 + (inject_Z (Z.of_nat n) * (title_line_h ag_bottom / scale) + 15)
  + 30 + 75 + 40
  == 225 + inject_Z (Z.of_nat n) * (title_line_h ag_bottom / scale).
Proof. ring. Qed.

Lemma Qfloor_plus_whole (k : Z) (y : Q) :
  Qfloor (inject_Z k + y) = (k + Qfloor y)%Z.
Proof.
  apply Qfloor_unique.
  - rewrite inject_Z_plus. pose proof (Qfloor_le y). Lqa.lra.
  - rewrite inject_Z_plus. pose proof (Qlt_floor y) as H.
    rewrite inject_Z_plus in H. change (inject_Z 1) with 1 in H. Lqa.lra.
Qed.

Lemma lines_height_nonneg (n : nat) (ag_bottom : Q) :
  0 <= title_line_h ag_bottom ->
  0 <= inject_Z (Z.of_nat n) * (title_line_h ag_bottom / scale).
Proof.
  intros Hh. apply Qmult_le_0_compat.
  - change 0 with (inject_Z 0). rewrite <- Zle_Qle. lia.
  - unfold Qdiv. apply Qmult_le_0_compat; [exact Hh|]. unfold scale.
    discriminate.
Qed.

Lemma card_height_value (n : nat) (ag_bottom : Q) :
  0 <= title_line_h ag_bottom ->
  card_height n ag_bottom
  = (225 + Qfloor (inject_Z (Z.of_nat n)
                   * (title_line_h ag_bottom / scale)))%Z.
Proof.
  intros Hh. pose proof (lines_height_nonneg n ag_bottom Hh) as Hn.
  unfold card_height. cbv zeta.
  rewrite int_of_float_is_floor by (rewrite card_height_sum; Lqa.lra).
  rewrite card_height_sum.
  change 225 with (inject_Z 225). rewrite Qfloor_plus_whole.
  assert (H0 : (0 <= Qfloor (inject_Z (Z.of_nat n)
                             * (title_line_h ag_bottom / scale)))%Z)
    by (apply floor_ge; exact Hn).
  lia.
Qed.

(** X12.  The height of the card.  With a line height that is not
    negative, the card is 225 pixels plus the whole pixels of the title
    lines (each a sixth of the measured line height); it is never under
    225, so the minimum of 220 never applies, and a title of more lines
    never gets a lower card. *)
Theorem card_height_by_lines (n m : nat) (ag_bottom : Q) :
  0 <= title_line_h ag_bottom ->
  (n <= m)%nat ->
  card_height n ag_bottom
  = (225 + Qfloor (inject_Z (Z.of_nat n)
                   * (title_line_h ag_bottom / scale)))%Z
  /\ (225 <= card_height n ag_bottom)%Z
  /\ (card_height n ag_bottom <= card_height m ag_bottom)%Z.
Proof.
  intros Hh Hnm. rewrite !card_height_value by exact Hh.
  pose proof (lines_height_nonneg n ag_bottom Hh) as Hn.
  split; [reflexivity|]. split.
  - assert (H0 : (0 <= Qfloor (inject_Z (Z.of_nat n)
                               * (title_line_h ag_bottom / scale)))%Z)
      by (apply floor_ge; exact Hn).
    lia.
  - apply Zplus_le_compat_l, Qfloor_resp_le, Qmult_le_compat_r.
    + rewrite <- Zle_Qle. lia.
    + unfold Qdiv. apply Qmult_le_0_compat; [exact Hh|]. unfold scale.
      discriminate.
Qed.

End CardHeightProperties.

(** ** The history of used content *)

Section TrackingProperties.

Import Tracking.

Lemma contains_In (x : string) (l : list string) :
  contains x l = true <-> In x l.
Proof.
  unfold contains. rewrite existsb_exists. split.
  - intros (y & Hy & E). apply String.eqb_eq in E. now subst.
  - intros H. exists x. split; [exact H|apply String.eqb_refl].
Qed.

Lemma contains_not_In (x : string) (l : list string) :
  contains x l = false <-> ~ In x l.
Proof.
  rewrite <- contains_In. destruct (contains x l); split; intros H;
    try congruence; try reflexivity.
Qed.

Lemma load_after_save (used : used_content) (st : state) :
  write_error st = None ->
  fst (_load_used_content (_save_used_content used st)) = used.
Proof. intros H. unfold _save_used_content. now rewrite H. Qed.

Lemma load_print (line : string) (st : state) :
  fst (_load_used_content (print line st)) = fst (_load_used_content st).
Proof.
  unfold _load_used_content, print. cbn [file].
  destruct (file st); reflexivity.
Qed.

Lemma load_keeps_write_error (st : state) :
  write_error (snd (_load_used_content st)) = write_error st.
Proof. unfold _load_used_content. now destruct (file st). Qed.

Lemma load_twice (st : state) :
  fst (_load_used_content (snd (_load_used_content st)))
  = fst (_load_used_content st).
Proof.
  unfold _load_used_content at 2 3.
  destruct (file st) eqn:E; cbn [fst snd]; [| |];
    unfold _load_used_content, print; cbn [file]; now rewrite E.
Qed.

(** What a mark does to the history that the next load reads. *)
Lemma mark_as_used_load (category item : string) (st : state)
    (items : list string) :
  write_error st = None ->
  fst (_load_used_content st) !! category = Some items ->
  fst (_load_used_content (_mark_as_used category item st))
  = if contains item items then fst (_load_used_content st)
    else <[category := items ++ [item]]> (fst (_load_used_content st)).
Proof.
  intros Hw Hc. unfold _mark_as_used.
  pose proof (load_keeps_write_error st) as Hw1.
  pose proof (load_twice st) as H2.
  destruct (_load_used_content st) as [used st1]. cbn [fst snd] in *.
  rewrite Hc. destruct (contains item items); [exact H2|].
  rewrite load_print. apply load_after_save. congruence.
Qed.

Lemma mark_keeps_write_error (category item : string) (st : state) :
  write_error (_mark_as_used category item st) = write_error st.
Proof.
  unfold _mark_as_used.
  pose proof (load_keeps_write_error st) as Hw1.
  destruct (_load_used_content st) as [used st1]. cbn [snd] in Hw1.
  destruct (used !! category) as [items|]; [|exact Hw1].
  destruct (contains item items); [exact Hw1|].
  unfold _save_used_content. cbn.
  destruct (write_error st1) eqn:E; cbn; congruence.
Qed.

Lemma NoDup_add_last {A : Type} (l : list A) (x : A) :
  List.NoDup l -> ~ In x l -> List.NoDup (l ++ [x]).
Proof.
  induction 1 as [|y l Hy Hl IH]; intros Hx; cbn.
  - constructor; [intros []|constructor].
  - constructor.
    + intros Hin. apply in_app_or in Hin as [Hin|[<-|[]]]; [contradiction|].
      apply Hx. now left.
    + apply IH. intros Hin. apply Hx. now right.
Qed.

(** X13.  Marking on a history that can be saved.  The item is in its
    category at the next load, once: a list without a repeat stays
    without one, the items marked before keep their places, and the
    other categories are not touched. *)
Theorem mark_as_used_records (category item : string) (st : state)
    (items : list string) :
  write_error st = None ->
  fst (_load_used_content st) !! category = Some items ->
  let before := fst (_load_used_content st) in
  let after := fst (_load_used_content (_mark_as_used category item st)) in
  exists items',
    after !! category = Some items'
    /\ In item items'
    /\ items' = (if contains item items then items else items ++ [item])
    /\ (List.NoDup items -> List.NoDup items')
    /\ (forall other, other <> category -> after !! other = before !! other).
Proof.
  intros Hw Hc before after. unfold after.
  rewrite (mark_as_used_load category item st items Hw Hc). fold before.
  destruct (contains item items) eqn:E.
  - exists items. split; [exact Hc|]. split; [now apply contains_In|].
    split; [reflexivity|]. split; [intros H; exact H|].
    intros other _. reflexivity.
  - exists (items ++ [item]). split; [apply lookup_insert_eq|].
    split; [apply in_or_app; right; now left|]. split; [reflexivity|].
    split.
    + intros Hnd. apply NoDup_add_last; [exact Hnd|].
      now apply contains_not_In.
    + intros other Ho. now apply lookup_insert_ne.
Qed.

(** X14.  Marking on a history that cannot be saved: the file is left
    as it was, so the item is not recorded, and yet the line that says
    it was marked is printed after the warning. *)
Theorem mark_as_used_read_only (category item error : string) (st : state)
    (items : list string) :
  write_error st = Some error ->
  fst (_load_used_content st) !! category = Some items ->
  contains item items = false ->
  let st1 := snd (_load_used_content st) in
  let st' := _mark_as_used category item st in
  file st' = file st
  /\ log st'
     = (log st1
        ++ ["⚠️ Could not save to used_content.json: " +:+ error;
            "✅ Marked as used (" +:+ category +:+ "): " +:+ item])%list.
Proof.
  intros Hw Hc Hi st1 st'. unfold st', st1, _mark_as_used.
  pose proof (load_keeps_write_error st) as Hw1.
  assert (Hf : file (snd (_load_used_content st)) = file st)
    by (unfold _load_used_content; destruct (file st) eqn:E;
        cbn [snd print file]; exact E).
  destruct (_load_used_content st) as [used s1]. cbn [fst snd] in *.
  rewrite Hc, Hi. unfold _save_used_content. rewrite Hw1, Hw.
  cbn [print file log]. split; [exact Hf|]. now rewrite <- app_assoc.
Qed.

Lemma choice_In (pick : nat) (l : list string) :
  l <> [] -> In (choice pick l) l.
Proof.
  intros Hl. unfold choice. apply nth_In.
  apply Nat.mod_upper_bound. destruct l; [congruence|discriminate].
Qed.

(** X15.  The background that is chosen with the automatic upload on is
    a file of the folder with one of the extensions, and it is one that
    the history does not hold, as long as the folder has such a file:
    [_get_random_background_video] and [_get_random_background_music]
    are the two instances. *)
Theorem selected_background_is_fresh
    (key : string) (extensions : list string)
    (missing_msg none_msg reset_msg folder : string)
    (names used : list string) (pick : nat) (st st' : state)
    (path : string) :
  fst (_load_used_content st) !! key = Some used ->
  select_background key extensions missing_msg none_msg reset_msg
    folder (Some names) true pick st = (Selected path, st') ->
  exists name,
    path = Os.path_join folder name
    /\ In name names
    /\ has_extension extensions name = true
    /\ ((exists v, In v names /\ has_extension extensions v = true
                   /\ contains v used = false) ->
        contains name used = false /\ st' = snd (_load_used_content st)).
Proof.
  intros Hu. unfold select_background.
  set (files := List.filter (has_extension extensions) names).
  destruct files as [|f fs] eqn:Ef; [discriminate|]. rewrite <- Ef.
  assert (Hne : files <> []) by (rewrite Ef; discriminate).
  destruct (_load_used_content st) as [uc st1]. cbn [fst snd] in *.
  rewrite Hu.
  set (unused := List.filter (fun v => negb (contains v used)) files).
  destruct unused as [|u us] eqn:Eu.
  - intros [= <- <-]. exists (choice pick files).
    pose proof (choice_In pick files Hne) as Hin.
    apply filter_In in Hin as [H1 H2].
    repeat split; try assumption;
      destruct H as (v & Hv & Hext & Hc);
      assert (Hvu : In v unused)
        by (apply filter_In; split;
            [apply filter_In; now split|now rewrite Hc]);
      rewrite Eu in Hvu; destruct Hvu.
  - intros [= <- <-]. exists (choice pick (u :: us)).
    assert (Hin : In (choice pick (u :: us)) unused)
      by (rewrite Eu; apply choice_In; discriminate).
    apply filter_In in Hin as [H1 H2]. apply filter_In in H1 as [H0 H1].
    repeat split; try assumption. now apply negb_true_iff.
Qed.

End TrackingProperties.

(** ** The choice of a background over several runs *)

Section SelectionProperties.

Import Tracking.

Lemma filter_nil_all {A : Type} (f : A -> bool) (l : list A) :
  (forall x, In x l -> f x = false) -> List.filter f l = [].
Proof.
  induction l as [|a l IH]; intros H; [reflexivity|]. cbn.
  rewrite (H a) by (now left). apply IH. intros x Hx. apply H. now right.
Qed.

Lemma print_keeps_write_error (line : string) (st : state) :
  write_error (print line st) = write_error st.
Proof. reflexivity. Qed.

(** X16.  When every file of the folder is in the history, the history
    of that kind is emptied before the draw, which is then among all the
    files; the histories of the other kinds are kept, and the reset is
    announced. *)
Theorem history_is_reset_when_all_are_used
    (key : string) (extensions : list string)
    (missing_msg none_msg reset_msg folder : string)
    (names used : list string) (pick : nat) (st : state) :
  write_error st = None ->
  fst (_load_used_content st) !! key = Some used ->
  List.filter (has_extension extensions) names <> [] ->
  (forall v, In v names -> has_extension extensions v = true ->
             contains v used = true) ->
  let r := select_background key extensions missing_msg none_msg reset_msg
             folder (Some names) true pick st in
  let after := fst (_load_used_content (snd r)) in
  fst r = Selected (Os.path_join folder
                      (choice pick
                         (List.filter (has_extension extensions) names)))
  /\ after !! key = Some []
  /\ (forall other, other <> key ->
        after !! other = fst (_load_used_content st) !! other)
  /\ In reset_msg (log (snd r)).
Proof.
  intros Hw Hu Hne Hall r after. unfold after, r, select_background.
  set (files := List.filter (has_extension extensions) names) in *.
  destruct files as [|f fs] eqn:Ef; [congruence|]. rewrite <- Ef.
  pose proof (load_keeps_write_error st) as Hw1.
  destruct (_load_used_content st) as [uc st1]. cbn [fst snd] in *.
  rewrite Hu.
  rewrite (filter_nil_all (fun v => negb (contains v used)) files).
  - cbn [fst snd]. split; [reflexivity|].
    rewrite load_after_save
      by (rewrite print_keeps_write_error; congruence).
    split; [apply lookup_insert_eq|]. split.
    + intros other Ho. now apply lookup_insert_ne.
    + unfold _save_used_content. rewrite print_keeps_write_error, Hw1, Hw.
      cbn [log print]. apply in_or_app. right. now left.
  - intros v Hv. unfold files in Hv. apply filter_In in Hv as [H1 H2].
    now rewrite (Hall v H1 H2).
Qed.

(** *** [basename] after [join] *)

Lemma basename_from_slash_free (s name : string) :
  slash_free s = true -> basename_from name s = name +:+ s.
Proof.
  revert name. induction s as [|c s IH]; intros name H.
  - now rewrite app_empty_r.
  - unfold slash_free in H. rewrite all_cons in H.
    apply andb_true_iff in H as [Hc Hs]. cbn [basename_from].
    apply negb_true_iff in Hc. rewrite Hc, IH by exact Hs.
    now rewrite app_assoc_string.
Qed.

Lemma basename_from_after_slash (a s name : string) :
  basename_from name (a +:+ "/" +:+ s) = basename_from EmptyString s.
Proof.
  revert name. induction a as [|c a IH]; intros name.
  - reflexivity.
  - rewrite app_cons. cbn [basename_from].
    destruct (Ascii.eqb c "/"); apply IH.
Qed.

Lemma endswith_slash (s : string) :
  Py.endswith s "/" = true -> exists a, s = a +:+ "/".
Proof.
  unfold Py.endswith. cbn [String.length].
  intros [Hl He]%andb_true_iff. apply Nat.leb_le in Hl.
  apply String.eqb_eq in He. revert Hl He.
  induction s as [|c s IH]; cbn [String.length]; intros Hl He; [lia|].
  replace (S (String.length s) - 1)%nat with (String.length s) in He by lia.
  destruct s as [|d s].
  - cbn in He. exists EmptyString. exact He.
  - cbn [String.length substring] in He, IH.
    destruct (IH ltac:(lia)) as [a Ea].
    + replace (S (String.length s) - 1)%nat with (String.length s) by lia.
      exact He.
    + exists (String c a). rewrite app_cons. now f_equal.
Qed.

(** A file of a folder has the name it was listed under. *)
Lemma basename_join (folder name : string) :
  slash_free name = true -> basename (Os.path_join folder name) = name.
Proof.
  intros Hn. unfold basename, Os.path_join.
  destruct (Py.is_empty folder).
  - now rewrite basename_from_slash_free.
  - destruct (Py.endswith folder "/") eqn:E.
    + destruct (endswith_slash folder E) as [a ->].
      rewrite app_assoc_string, basename_from_after_slash.
      now rewrite basename_from_slash_free.
    + rewrite basename_from_after_slash.
      now rewrite basename_from_slash_free.
Qed.

Lemma match_nonempty {A B : Type} (l : list A) (a b : B) :
  l <> [] -> match l with [] => a | _ :: _ => b end = b.
Proof. destruct l; [congruence|reflexivity]. Qed.

Lemma contains_app (x : string) (a b : list string) :
  contains x (a ++ b) = contains x a || contains x b.
Proof. unfold contains. apply existsb_app. Qed.

(** *** What the steps of a run keep *)

Lemma load_spec (st : state) :
  exists used st1,
    _load_used_content st = (used, st1)
    /\ write_error st1 = write_error st
    /\ fst (_load_used_content st1) = used.
Proof.
  pose proof (load_keeps_write_error st) as Hw.
  pose proof (load_twice st) as H2.
  destruct (_load_used_content st) as [used st1]. cbn [fst snd] in *.
  now exists used, st1.
Qed.

Lemma ready_load (used : list string) (st : state) :
  ready used st -> ready used (snd (_load_used_content st)).
Proof.
  unfold ready. rewrite load_keeps_write_error, load_twice. tauto.
Qed.

Lemma mark_keeps (category item : string) (st : state) :
  write_error st = None ->
  let st' := _mark_as_used category item st in
  (forall k, k <> category ->
     fst (_load_used_content st') !! k = fst (_load_used_content st) !! k)
  /\ (is_Some (fst (_load_used_content st) !! category) ->
      is_Some (fst (_load_used_content st') !! category)).
Proof.
  intros Hw st'. unfold st'.
  destruct (fst (_load_used_content st) !! category) as [items|] eqn:E.
  - rewrite (mark_as_used_load category item st items Hw E).
    destruct (contains item items).
    + split; [reflexivity|]. intros _. now rewrite E.
    + split.
      * intros k Hk. now apply lookup_insert_ne.
      * intros _. rewrite lookup_insert_eq. now eexists.
  - split; [|now intros []]. intros k _. unfold _mark_as_used.
    destruct (load_spec st) as (used & st1 & El & _ & H1).
    rewrite El in *. cbn [fst] in E. rewrite E. now rewrite H1.
Qed.

Lemma ready_mark_other (category item : string) (used : list string)
    (st : state) :
  category <> "videos"%string ->
  ready used st -> ready used (_mark_as_used category item st).
Proof.
  intros Hc (Hw & Hv & Hp & Hm).
  destruct (mark_keeps category item st Hw) as [Ho Hk].
  unfold ready. rewrite mark_keeps_write_error. split; [exact Hw|].
  split; [rewrite Ho by congruence; exact Hv|]. split.
  - destruct (String.eqb_spec category "reddit_posts") as [->|Hn].
    + now apply Hk.
    + rewrite Ho by congruence. exact Hp.
  - destruct (String.eqb_spec category "music") as [->|Hn].
    + now apply Hk.
    + rewrite Ho by congruence. exact Hm.
Qed.

Lemma ready_mark_video (item : string) (used : list string) (st : state) :
  ready used st -> contains item used = false ->
  ready (used ++ [item]) (_mark_as_used "videos" item st).
Proof.
  intros (Hw & Hv & Hp & Hm) Hc.
  destruct (mark_keeps "videos" item st Hw) as [Ho _].
  unfold ready. rewrite mark_keeps_write_error. split; [exact Hw|].
  split; [|split; rewrite Ho by discriminate; assumption].
  rewrite (mark_as_used_load "videos" item st used Hw Hv), Hc.
  apply lookup_insert_eq.
Qed.

(** A selection for another key than the videos keeps the state fit,
    and does not raise when the history holds its key. *)
Lemma ready_select (key : string) (extensions : list string)
    (missing_msg none_msg reset_msg folder : string)
    (listdir : option (list string)) (pick : nat)
    (used : list string) (st : state) :
  key <> "videos"%string ->
  is_Some (fst (_load_used_content st) !! key) ->
  ready used st ->
  let r := select_background key extensions missing_msg none_msg reset_msg
             folder listdir true pick st in
  ready used (snd r) /\ (forall k, fst r <> KeyError k).
Proof.
  intros Hk [items Hi] Hr r. unfold r, select_background.
  assert (Hprint : forall line, ready used (print line st)).
  { intros line. unfold ready. rewrite load_print. exact Hr. }
  destruct listdir as [names|]; [|split; [apply Hprint|discriminate]].
  destruct (List.filter (has_extension extensions) names) as [|f fs] eqn:Ef;
    [split; [apply Hprint|discriminate]|].
  rewrite <- Ef. clear Hprint.
  pose proof (ready_load used st Hr) as Hr1.
  destruct (load_spec st) as (uc & st1 & El & Hw1 & H1).
  rewrite El in *. cbn [fst snd] in *. rewrite Hi.
  destruct (List.filter (fun v => negb (contains v items))
              (List.filter (has_extension extensions) names)) eqn:Eu;
    cbn [fst snd]; (split; [|discriminate]); [|exact Hr1].
  destruct Hr1 as (Hw & Hv & Hp & Hm). rewrite H1 in Hv, Hp, Hm.
  unfold ready. unfold _save_used_content.
  rewrite print_keeps_write_error, Hw. cbn [write_error file fst
    _load_used_content]. split; [reflexivity|].
  split; [rewrite lookup_insert_ne by congruence; exact Hv|].
  split.
  - destruct (String.eqb_spec key "reddit_posts") as [->|Hn].
    + rewrite lookup_insert_eq. now eexists.
    + rewrite lookup_insert_ne by congruence. exact Hp.
  - destruct (String.eqb_spec key "music") as [->|Hn].
    + rewrite lookup_insert_eq. now eexists.
    + rewrite lookup_insert_ne by congruence. exact Hm.
Qed.

(** The selection on a folder that still holds a file that was not
    used. *)
Lemma select_fresh (key : string) (extensions : list string)
    (missing_msg none_msg reset_msg folder : string)
    (names used : list string) (pick : nat) (st : state) :
  fst (_load_used_content st) !! key = Some used ->
  let fresh := List.filter (fun v => negb (contains v used))
                 (List.filter (has_extension extensions) names) in
  fresh <> [] ->
  select_background key extensions missing_msg none_msg reset_msg
    folder (Some names) true pick st
  = (Selected (Os.path_join folder (choice pick fresh)),
     snd (_load_used_content st)).
Proof.
  intros Hu. cbv zeta.
  set (files := List.filter (has_extension extensions) names).
  set (fresh := List.filter (fun v => negb (contains v used)) files).
  intros Hne.
  assert (Hfiles : files <> []).
  { intros E. apply Hne. unfold fresh. now rewrite E. }
  unfold select_background.
  fold files. rewrite (match_nonempty files) by exact Hfiles.
  destruct (_load_used_content st) as [uc st1]. cbn [fst snd] in *.
  rewrite Hu. fold fresh. now rewrite (match_nonempty fresh) by exact Hne.
Qed.

Lemma has_extension_nonempty (name : string) :
  has_extension video_extensions name = true -> Py.is_empty name = false.
Proof. destruct name; [discriminate|reflexivity]. Qed.

Lemma path_join_nonempty (folder name : string) :
  Py.is_empty name = false -> Py.is_empty (Os.path_join folder name) = false.
Proof.
  intros Hn. unfold Os.path_join. destruct folder as [|c folder]; [exact Hn|].
  cbn [Py.is_empty]. destruct (Py.endswith _ _); reflexivity.
Qed.

(** One run on a folder that still holds a video that was not used: the
    video drawn is one of those, and it is appended to the history. *)
Lemma run_tracking_fresh (video_folder music_folder : string)
    (names : list string) (music : option (list string)) (r : round)
    (used : list string) (st : state) :
  ready used st ->
  (forall v, In v names -> slash_free v = true) ->
  let fresh := List.filter (fun v => negb (contains v used))
                 (List.filter (has_extension video_extensions) names) in
  fresh <> [] ->
  exists st',
    run_tracking video_folder (Some names) music_folder music r st
    = (Uploaded (choice (pick_video r) fresh), st')
    /\ ready (used ++ [choice (pick_video r) fresh]) st'.
Proof.
  intros Hr Hs fresh Hne.
  pose proof (choice_In (pick_video r) fresh Hne) as Hin.
  set (x := choice (pick_video r) fresh) in *.
  assert (Hc : contains x used = false).
  { apply filter_In in Hin as [_ H]. now apply negb_true_iff. }
  assert (Hx : In x names /\ has_extension video_extensions x = true).
  { apply filter_In in Hin as [H _]. now apply filter_In in H. }
  destruct Hx as [Hxn Hxe].
  unfold run_tracking.
  (* the status lines *)
  apply ready_load in Hr.
  destruct (load_spec st) as (uc & st1 & El & _ & H1).
  rewrite El in *. cbn [snd] in Hr. clear El st.
  assert (Hkeys : first_missing ["videos"; "reddit_posts"; "music"]%string uc
                  = None).
  { destruct Hr as (_ & Hv & [p Hp] & [m Hm]). rewrite H1 in Hv, Hp, Hm.
    unfold first_missing. cbn [find]. now rewrite Hv, Hp, Hm. }
  rewrite Hkeys.
  (* the tracker of the scraper *)
  assert (E2 : exists st2,
             (if from_reddit r
              then let '(used_content, st) := _load_used_content st1 in
                   (first_missing ["reddit_posts"%string] used_content, st)
              else (None, st1)) = (None, st2)
             /\ ready used st2).
  { destruct (from_reddit r); [|now exists st1].
    pose proof (ready_load used st1 Hr) as Hr2.
    destruct (load_spec st1) as (uc2 & st2 & El & _ & H2).
    rewrite El in *. cbn [snd fst] in *. exists st2. split; [|exact Hr2].
    destruct Hr2 as (_ & _ & [p Hp] & _). rewrite H2 in Hp.
    unfold first_missing. cbn [find]. now rewrite Hp. }
  destruct E2 as (st2 & -> & Hr2). clear Hr H1 Hkeys uc st1.
  (* the video *)
  unfold _get_random_background_video.
  rewrite (select_fresh "videos" video_extensions _ _ _ video_folder names
             used (pick_video r) st2 (proj1 (proj2 Hr2)) Hne).
  fold fresh. fold x. apply ready_load in Hr2.
  set (st3 := snd (_load_used_content st2)) in *.
  cbn [returned truthy default].
  rewrite (path_join_nonempty video_folder x
             (has_extension_nonempty x Hxe)).
  cbn [negb]. unfold Datatypes.id. rewrite (basename_join video_folder x (Hs x Hxn)).
  (* the music *)
  unfold _get_random_background_music.
  match goal with
  | |- context [select_background "music" ?e ?a ?b ?c ?f ?l true ?p st3] =>
      pose proof (ready_select "music" e a b c f l p used st3
                    ltac:(discriminate) (proj2 (proj2 (proj2 Hr2))) Hr2)
        as [Hr4 Hno];
      destruct (select_background "music" e a b c f l true p st3)
        as [bg_music st4]
  end.
  cbn [fst snd] in Hr4, Hno.
  assert (Hmarks : forall name : option string,
             ready (used ++ [x])
               (if truthy (post_id r)
                then _mark_as_used "reddit_posts"
                       (default EmptyString (post_id r))
                       (if truthy name
                        then _mark_as_used "music" (default EmptyString name)
                               (_mark_as_used "videos" x st4)
                        else _mark_as_used "videos" x st4)
                else (if truthy name
                      then _mark_as_used "music" (default EmptyString name)
                             (_mark_as_used "videos" x st4)
                      else _mark_as_used "videos" x st4))).
  { intros name. pose proof (ready_mark_video x used st4 Hr4 Hc) as H5.
    assert (H6 : ready (used ++ [x])
                   (if truthy name
                    then _mark_as_used "music" (default EmptyString name)
                           (_mark_as_used "videos" x st4)
                    else _mark_as_used "videos" x st4)).
    { destruct (truthy name); [|exact H5].
      now apply ready_mark_other. }
    destruct (truthy (post_id r)); [|exact H6].
    now apply ready_mark_other. }
  destruct bg_music as [path| |key]; [| |now destruct (Hno key)];
    eexists; (split; [reflexivity|]); apply Hmarks.
Qed.

Lemma filter_without_length (x : string) (l : list string) :
  List.NoDup l ->
  (List.length l
   <= S (List.length
           (List.filter (fun v => negb (String.eqb v x)) l)))%nat.
Proof.
  induction 1 as [|y l Hy Hl IH]; [cbn; lia|]. cbn [List.filter].
  destruct (String.eqb y x) eqn:E; cbn [negb List.length]; [|lia].
  apply String.eqb_eq in E. subst y.
  rewrite (List.forallb_filter_id _ l); [lia|].
  apply forallb_forall. intros v Hv. apply negb_true_iff.
  apply String.eqb_neq. intros ->. contradiction.
Qed.

Lemma fresh_after_mark (used names : list string) (x : string) :
  List.filter (fun v => negb (contains v (used ++ [x]))) names
  = List.filter (fun v => negb (String.eqb v x))
      (List.filter (fun v => negb (contains v used)) names).
Proof.
  induction names as [|n names IH]; [reflexivity|]. cbn [List.filter].
  rewrite contains_app. cbn [contains existsb]. rewrite orb_false_r.
  destruct (contains n used); cbn [negb orb List.filter].
  - exact IH.
  - destruct (String.eqb n x); cbn [negb]; now rewrite IH.
Qed.

Lemma runs_fresh (video_folder music_folder : string)
    (names : list string) (music : option (list string))
    (rounds : list round) :
  List.NoDup names ->
  (forall v, In v names -> slash_free v = true) ->
  forall (used : list string) (st : state),
    ready used st ->
    let fresh := List.filter (fun v => negb (contains v used))
                   (List.filter (has_extension video_extensions) names) in
    (List.length rounds <= List.length fresh)%nat ->
    exists chosen,
      fst (runs video_folder (Some names) music_folder music rounds st)
      = map Uploaded chosen
      /\ List.NoDup chosen
      /\ List.Forall (fun v => In v fresh) chosen.
Proof.
  intros Hnd Hs. induction rounds as [|r rounds IH];
    intros used st Hr fresh Hlen.
  - exists []. repeat split; constructor.
  - cbn [List.length] in Hlen.
    assert (Hne : fresh <> [])
      by (destruct fresh; cbn in *; [lia|discriminate]).
    destruct (run_tracking_fresh video_folder music_folder names music r
                used st Hr Hs Hne) as (st1 & E & Hr1).
    fold fresh in E, Hr1.
    set (x := choice (pick_video r) fresh) in *.
    assert (Hfnd : List.NoDup fresh)
      by (unfold fresh; do 2 apply List.NoDup_filter; exact Hnd).
    destruct (IH (used ++ [x]) st1 Hr1) as (chosen & Ec & Hcn & Hcf).
    { rewrite fresh_after_mark. fold fresh.
      pose proof (filter_without_length x fresh Hfnd). lia. }
    rewrite fresh_after_mark in Hcf. fold fresh in Hcf.
    exists (x :: chosen). cbn [runs]. rewrite E.
    destruct (runs video_folder (Some names) music_folder music rounds st1)
      as [ns st2].
    cbn [fst] in *. subst ns. split; [reflexivity|].
    rewrite List.Forall_forall in Hcf. split.
    + constructor; [|exact Hcn]. intros Hx. apply Hcf in Hx.
      apply filter_In in Hx as [_ Hx]. rewrite String.eqb_refl in Hx.
      discriminate.
    + constructor; [now apply choice_In|].
      apply List.Forall_forall. intros v Hv. apply Hcf in Hv.
      now apply filter_In in Hv as [Hv _].
Qed.

(** X17.  No video comes twice before all have been used.  On a video
    folder whose listing does not change and a history that can be saved
    and holds its three keys, consecutive runs that end with a
    successful upload, no more of them than there are videos not yet
    used, each get a video: these videos are pairwise different and none
    was in the history.  What the runs do for the music and the posts in
    between does not disturb this. *)
Theorem runs_do_not_repeat_a_video (video_folder music_folder : string)
    (names used posts tunes : list string) (music : option (list string))
    (rounds : list round) (st : state) :
  write_error st = None ->
  fst (_load_used_content st) !! "videos"%string = Some used ->
  fst (_load_used_content st) !! "reddit_posts"%string = Some posts ->
  fst (_load_used_content st) !! "music"%string = Some tunes ->
  List.NoDup names ->
  (forall v, In v names -> slash_free v = true) ->
  let fresh := List.filter (fun v => negb (contains v used))
                 (List.filter (has_extension video_extensions) names) in
  (List.length rounds <= List.length fresh)%nat ->
  exists chosen,
    fst (runs video_folder (Some names) music_folder music rounds st)
    = map Uploaded chosen
    /\ List.length chosen = List.length rounds
    /\ List.NoDup chosen
    /\ List.Forall (fun v => In v fresh) chosen.
Proof.
  intros Hw Hu Hp Hm Hnd Hs fresh Hlen.
  assert (Hr : ready used st).
  { unfold ready. rewrite Hp, Hm. repeat split; try assumption;
      now eexists. }
  destruct (runs_fresh video_folder music_folder names music rounds Hnd Hs
              used st Hr Hlen) as (chosen & E & Hn & Hf).
  exists chosen. repeat split; try assumption.
  assert (El : List.length (fst (runs video_folder (Some names) music_folder
                                   music rounds st)) = List.length rounds).
  { clear. revert st. induction rounds as [|r rounds IH]; intros st;
      [reflexivity|]. cbn [runs].
    destruct (run_tracking _ _ _ _ r st) as [res st1].
    specialize (IH st1).
    destruct (runs _ _ _ _ rounds st1) as [rs st2]. cbn [fst length] in *.
    now rewrite IH. }
  rewrite E, length_map in El. exact El.
Qed.

End SelectionProperties.

(** ** The rate limit of the web front end *)

Section RateLimitProperties.

Import RateLimit.
Local Open Scope Q_scope.

Lemma accepted_spaced (session_key : string) (times : list Q) :
  forall s : session,
    let last_request := default 0 (s !! session_key) in
    Forall (fun t => last_request + 30 <= t)
      (fst (accepted session_key times s))
    /\ ForallOrdPairs (fun t u => t + 30 <= u)
         (fst (accepted session_key times s)).
Proof.
  induction times as [|t times IH]; intros s last_request.
  - split; constructor.
  - cbn [accepted]. unfold rate_limit_check. fold last_request.
    destruct (TimeAgo.lt (t - last_request) 30) eqn:E.
    + specialize (IH s).
      destruct (accepted session_key times s) as [others s']. exact IH.
    + apply lt_false in E.
      specialize (IH (<[session_key := t]> s)).
      rewrite lookup_insert_eq in IH. cbn [default from_option] in IH.
      unfold Datatypes.id in IH.
      destruct (accepted session_key times (<[session_key := t]> s))
        as [others s'].
      cbn [fst] in *. destruct IH as [Hall Hpairs]. split.
      * constructor; [Lqa.lra|].
        eapply List.Forall_impl; [|exact Hall]. cbn. intros u Hu. Lqa.lra.
      * constructor; assumption.
Qed.

Lemma accepted_other_keys (session_key other : string) (times : list Q) :
  other <> session_key ->
  forall s : session, snd (accepted session_key times s) !! other = s !! other.
Proof.
  intros Ho. induction times as [|t times IH]; intros s; [reflexivity|].
  cbn [accepted]. unfold rate_limit_check.
  destruct (TimeAgo.lt _ _).
  - specialize (IH s).
    destruct (accepted session_key times s) as [others s']. exact IH.
  - specialize (IH (<[session_key := t]> s)).
    destruct (accepted session_key times (<[session_key := t]> s))
      as [others s'].
    cbn [snd] in *. rewrite IH. now apply lookup_insert_ne.
Qed.

(** X18.  Whatever the times at which the requests of a session come,
    and even when the clock goes back, two requests that are let through
    are at least 30 seconds apart, in the order they came, and the first
    of them is at least 30 seconds after the time that the session held;
    a limit under another key is not touched. *)
Theorem accepted_requests_are_30_seconds_apart
    (session_key : string) (times : list Q) (s : session) :
  let last_request := default 0 (s !! session_key) in
  let let_through := fst (accepted session_key times s) in
  Forall (fun t => last_request + 30 <= t) let_through
  /\ ForallOrdPairs (fun t u => t + 30 <= u) let_through
  /\ (forall other, other <> session_key ->
        snd (accepted session_key times s) !! other = s !! other).
Proof.
  intros last_request let_through.
  destruct (accepted_spaced session_key times s) as [H1 H2].
  split; [exact H1|]. split; [exact H2|].
  intros other Ho. now apply accepted_other_keys.
Qed.

End RateLimitProperties.

(** ** The gender of the narrator *)

Section NarratorProperties.

Import Narrator.

Variable search : string -> string -> bool.

Lemma score_app (a b : list string) (text : string) :
  score search (a ++ b) text
  = (score search a text + score search b text)%nat.
Proof. unfold score. now rewrite List.filter_app, List.length_app. Qed.

(** X19.  The four indicators of a family, which are in both lists,
    count for both and decide nothing: the narrator is female exactly
    when more of the 20 indicators of the women only are found than of
    the 18 of the men only, and male in every other case: with as many
    on both sides, and with none at all. *)
Theorem narrator_is_female_only_by_her_own_indicators
    (text title : string) :
  let combined_text := Tracking.lower (title +:+ " " +:+ text) in
  let men := score search (only male_indicators female_indicators)
               combined_text in
  let women := score search (only female_indicators male_indicators)
                 combined_text in
  List.length (only male_indicators female_indicators) = 18%nat
  /\ List.length (only female_indicators male_indicators) = 20%nat
  /\ _detect_narrator_gender search text title
     = (if (men <? women)%nat then "female" else "male")%string.
Proof.
  intros combined_text men women.
  split; [reflexivity|]. split; [reflexivity|].
  unfold _detect_narrator_gender. fold combined_text.
  set (shared := ["\bmy son\b"; "\bmy daughter\b"; "\bmy kids\b";
                  "\bmy children\b"]%string).
  set (m2 := ["\bfather of\b"; "\bdad of\b"]%string).
  set (f2 := ["\bmother of\b"; "\bmom of\b"; "\bpregnant\b";
              "\bpregnancy\b"]%string).
  assert (Em : exists m1, male_indicators = m1 ++ shared ++ m2
                 /\ only male_indicators female_indicators = m1 ++ m2)
    by (exists (firstn 16 male_indicators); split; reflexivity).
  assert (Ef : exists f1, female_indicators = f1 ++ shared ++ f2
                 /\ only female_indicators male_indicators = f1 ++ f2)
    by (exists (firstn 16 female_indicators); split; reflexivity).
  destruct Em as (m1 & Hm & Em), Ef as (f1 & Hf & Ef).
  unfold men, women. rewrite Em, Ef, Hm, Hf, !score_app.
  destruct (Nat.ltb_spec
              (score search f1 combined_text
               + (score search shared combined_text
                  + score search f2 combined_text))
              (score search m1 combined_text
               + (score search shared combined_text
                  + score search m2 combined_text)));
    destruct (Nat.ltb_spec
                (score search m1 combined_text
                 + (score search shared combined_text
                    + score search m2 combined_text))
                (score search f1 combined_text
                 + (score search shared combined_text
                    + score search f2 combined_text)));
    destruct (Nat.ltb_spec
                (score search m1 combined_text + score search m2 combined_text)
                (score search f1 combined_text
                 + score search f2 combined_text));
    try reflexivity; lia.
Qed.

End NarratorProperties.

(** ** The story of the scraper *)

Section ScraperProperties.

Import Scraper.

(** *** The sort *)

Lemma gt_true (a b : Q) : Py.gt a b = true <-> (b < a)%Q.
Proof.
  unfold Py.gt. rewrite negb_true_iff. split.
  - intros H. apply Qnot_le_lt. intros Hle.
    apply Qle_bool_iff in Hle. congruence.
  - intros H. destruct (Qle_bool a b) eqn:E; [|reflexivity].
    apply Qle_bool_iff in E. exfalso. apply (Qlt_not_le _ _ H E).
Qed.

Lemma gt_false (a b : Q) : Py.gt a b = false <-> (a <= b)%Q.
Proof.
  unfold Py.gt. rewrite negb_false_iff. apply Qle_bool_iff.
Qed.

Lemma insert_desc_perm {A : Type} (key : A -> Q) (x : A) (l : list A) :
  Permutation (insert_desc key x l) (x :: l).
Proof.
  induction l as [|y l IH]; cbn [insert_desc]; [reflexivity|].
  destruct (Py.gt (key y) (key x)); [|reflexivity].
  rewrite IH. apply perm_swap.
Qed.

Lemma sort_desc_perm {A : Type} (key : A -> Q) (l : list A) :
  Permutation (sort_desc key l) l.
Proof.
  induction l as [|x l IH]; cbn [sort_desc]; [reflexivity|].
  rewrite insert_desc_perm. now constructor.
Qed.

Lemma insert_desc_sorted {A : Type} (key : A -> Q) (x : A) (l : list A) :
  StronglySorted (fun a b => (key b <= key a)%Q) l ->
  StronglySorted (fun a b => (key b <= key a)%Q) (insert_desc key x l).
Proof.
  induction 1 as [|y l Hl IH Hy]; cbn [insert_desc].
  - constructor; constructor.
  - destruct (Py.gt (key y) (key x)) eqn:E.
    + apply gt_true in E. constructor; [exact IH|].
      apply List.Forall_forall. intros z Hz.
      apply (Permutation_in _ (insert_desc_perm key x l)) in Hz.
      destruct Hz as [<-|Hz]; [now apply Qlt_le_weak|].
      rewrite List.Forall_forall in Hy. now apply Hy.
    + apply gt_false in E. constructor; [now constructor|].
      constructor; [exact E|].
      eapply List.Forall_impl; [|exact Hy]. cbn. intros z Hz.
      now apply (Qle_trans _ (key y)).
Qed.

Lemma sort_desc_sorted {A : Type} (key : A -> Q) (l : list A) :
  StronglySorted (fun a b => (key b <= key a)%Q) (sort_desc key l).
Proof.
  induction l as [|x l IH]; cbn [sort_desc]; [constructor|].
  now apply insert_desc_sorted.
Qed.

Lemma sorted_app_inv {A : Type} (R : A -> A -> Prop) (a b : list A) :
  StronglySorted R (a ++ b) ->
  forall x y, In x a -> In y b -> R x y.
Proof.
  induction a as [|z a IH]; intros H x y Hx Hy; [destruct Hx|].
  cbn in H. apply StronglySorted_inv in H as [Hs Hf].
  destruct Hx as [<-|Hx]; [|now apply IH].
  rewrite List.Forall_forall in Hf. apply Hf. apply in_or_app. now right.
Qed.

(** X21.  The draw is among the best fifth.  Of [n] posts that are kept,
    the max(1, n // 5) with the best engagement scores make the top; no
    post is lost or doubled by the sort, and no post outside the top has a
    better score than a post of the top. *)
Theorem top_posts_are_the_best_fifth (scored : list post) :
  exists others,
    Permutation (top_posts scored ++ others) scored
    /\ List.length (top_posts scored)
       = Nat.min (List.length scored) (Nat.max 1 (List.length scored / 5))
    /\ forall p q, In p (top_posts scored) -> In q others ->
         (engagement_score q <= engagement_score p)%Q.
Proof.
  set (k := Nat.max 1 (List.length scored / 5)).
  exists (skipn k (sort_desc engagement_score scored)).
  unfold top_posts. fold k. split; [|split].
  - rewrite firstn_skipn. apply sort_desc_perm.
  - rewrite length_firstn.
    rewrite (Permutation_length (sort_desc_perm engagement_score scored)).
    apply Nat.min_comm.
  - intros p q Hp Hq.
    pose proof (sort_desc_sorted engagement_score scored) as Hs.
    rewrite <- (firstn_skipn k) in Hs.
    exact (sorted_app_inv _ _ _ Hs p q Hp Hq).
Qed.

Lemma top_posts_scored (scored : list post) (p : post) :
  In p (top_posts scored) -> In p scored.
Proof.
  unfold top_posts. intros H.
  apply (Permutation_in _ (sort_desc_perm engagement_score scored)).
  rewrite <- (firstn_skipn (Nat.max 1 (List.length scored / 5))).
  apply in_or_app. now left.
Qed.

(** *** The calls *)

Variable w : world.
Variable used_posts_tracker : list string.
Variable topic : string.

Lemma more_fuel (fuel : nat) :
  forall (avoid_repeats : bool) (min_score : Z) (request : nat)
         (r : Py.outcome content),
    get_reddit_story_from fuel w used_posts_tracker topic avoid_repeats
      min_score request = Some r ->
    forall fuel', (fuel <= fuel')%nat ->
      get_reddit_story_from fuel' w used_posts_tracker topic avoid_repeats
        min_score request = Some r.
Proof.
  induction fuel as [|fuel IH]; intros avoid m request r H fuel' Hf;
    [discriminate|].
  destruct fuel' as [|fuel']; [lia|].
  cbn [get_reddit_story_from] in *.
  destruct (fetch w request _) as [posts|]; [|exact H].
  destruct (scored_posts avoid used_posts_tracker m posts); [|exact H].
  destruct (500 <? m); [apply (IH _ _ _ _ H); lia|].
  destruct (avoid && _); [apply (IH _ _ _ _ H); lia|exact H].
Qed.

(** Without the avoidance of repeats, a threshold under [500 * 2 ^ k]
    needs [k + 1] calls at most. *)
Lemma enough_fuel_plain (k : nat) :
  forall (min_score : Z) (request fuel : nat),
    min_score <= 500 * 2 ^ Z.of_nat k ->
    (k + 1 <= fuel)%nat ->
    exists r,
      get_reddit_story_from fuel w used_posts_tracker topic false
        min_score request = Some r.
Proof.
  induction k as [|k IH]; intros m request fuel Hm Hf;
    (destruct fuel as [|fuel]; [lia|]); cbn [get_reddit_story_from];
    (destruct (fetch w request _) as [posts|]; [|now eexists]);
    (destruct (scored_posts false used_posts_tracker m posts);
       [|destruct (top_posts _); now eexists]).
  - replace (500 <? m) with false by (symmetry; apply Z.ltb_ge; lia).
    cbn [andb]. now eexists.
  - destruct (500 <? m) eqn:E; [|cbn [andb]; now eexists].
    apply IH; [|lia]. apply Z.ltb_lt in E.
    rewrite Nat2Z.inj_succ, Z.pow_succ_r in Hm by lia.
    apply Z.max_lub; [lia|].
    apply Z.div_le_upper_bound; lia.
Qed.

Lemma enough_fuel (k : nat) :
  forall (avoid_repeats : bool) (min_score : Z) (request fuel : nat),
    min_score <= 500 * 2 ^ Z.of_nat k ->
    (k + 3 <= fuel)%nat ->
    exists r,
      get_reddit_story_from fuel w used_posts_tracker topic avoid_repeats
        min_score request = Some r.
Proof.
  induction k as [|k IH]; intros avoid m request fuel Hm Hf;
    (destruct fuel as [|fuel]; [lia|]); cbn [get_reddit_story_from];
    (destruct (fetch w request _) as [posts|]; [|now eexists]);
    (destruct (scored_posts avoid used_posts_tracker m posts);
       [|destruct (top_posts _); now eexists]).
  - replace (500 <? m) with false by (symmetry; apply Z.ltb_ge; lia).
    destruct (avoid && _); [|now eexists].
    apply (enough_fuel_plain 1); [reflexivity|lia].
  - destruct (500 <? m) eqn:E.
    + apply IH; [|lia]. apply Z.ltb_lt in E.
      rewrite Nat2Z.inj_succ, Z.pow_succ_r in Hm by lia.
      apply Z.max_lub; [lia|].
      apply Z.div_le_upper_bound; lia.
    + destruct (avoid && _); [|now eexists].
      apply (enough_fuel_plain 1); [reflexivity|lia].
Qed.

Lemma depth_bound (min_score : Z) :
  min_score <= 500 * 2 ^ Z.of_nat (Z.to_nat (Z.log2_up (Z.max 1 min_score))).
Proof.
  rewrite Z2Nat.id by apply Z.log2_up_nonneg.
  assert (H : Z.max 1 min_score <= 2 ^ Z.log2_up (Z.max 1 min_score)).
  { destruct (Z.eq_dec (Z.max 1 min_score) 1) as [->|Hn]; [cbn; lia|].
    apply Z.log2_up_spec. lia. }
  lia.
Qed.

(** X22.  [get_reddit_story] comes to an end, whatever the listings:
    the depth of its calls is bounded by the logarithm of the threshold,
    and with the threshold 1000 of the text there are four requests at
    most.  More depth changes nothing, and the result is a content or
    the one exception of the last lines. *)
Theorem get_reddit_story_terminates (avoid_repeats : bool) (min_score : Z) :
  (exists r,
     get_reddit_story w used_posts_tracker topic avoid_repeats min_score
     = Some r
     /\ (forall fuel, (depth min_score <= fuel)%nat ->
           get_reddit_story_from fuel w used_posts_tracker topic
             avoid_repeats min_score 0 = Some r)
     /\ ((exists c, r = Py.Done c) \/ r = failed))
  /\ (exists r,
        get_reddit_story_from 4 w used_posts_tracker topic avoid_repeats
          (Z.min min_score 1000) 0 = Some r).
Proof.
  split.
  - destruct (enough_fuel (Z.to_nat (Z.log2_up (Z.max 1 min_score)))
                avoid_repeats min_score 0%nat (depth min_score)
                (depth_bound min_score) ltac:(unfold depth; lia))
      as [r Hr].
    exists r. split; [exact Hr|]. split.
    + intros fuel Hf. now apply (more_fuel _ _ _ _ _ Hr).
    + clear -Hr. revert Hr. generalize (depth min_score) 0%nat.
      intros fuel. revert avoid_repeats min_score.
      induction fuel as [|fuel IH]; intros avoid m request H;
        [discriminate|].
      cbn [get_reddit_story_from] in H.
      destruct (fetch w request _) as [posts|];
        [|injection H as <-; now right].
      destruct (scored_posts avoid used_posts_tracker m posts).
      * destruct (500 <? m); [now apply IH in H|].
        destruct (avoid && _); [now apply IH in H|].
        injection H as <-; now right.
      * destruct (top_posts _); injection H as <-;
          [now right|left; now eexists].
  - apply (enough_fuel 1); [cbn; lia|lia].
Qed.

Lemma subreddits_for_nonempty : subreddits_for topic <> [].
Proof.
  unfold subreddits_for. repeat destruct (mentions _ topic); discriminate.
Qed.

Lemma suitable_lower (m m' : Z) (p : post) :
  m <= m' -> suitable m' p = true -> suitable m p = true.
Proof.
  intros Hm. unfold suitable. rewrite !andb_true_iff.
  intros ((((((((H1 & H2) & H3) & H4) & H5) & H6) & H7) & H8) & H9).
  repeat split; try assumption.
  apply Z.ltb_lt in H3. apply Z.ltb_lt. lia.
Qed.

(** Where a content comes from: the request, the listing, the threshold
    and the avoidance in force at the call that returned it. *)
Lemma story_origin (fuel : nat) :
  forall (avoid_repeats : bool) (min_score : Z) (request : nat) (c : content),
    get_reddit_story_from fuel w used_posts_tracker topic avoid_repeats
      min_score request = Some (Py.Done c) ->
    exists request' posts threshold avoid' p,
      fetch w request'
        (Tracking.choice (draw_subreddit w request') (subreddits_for topic))
      = Some posts
      /\ In p (top_posts
                 (scored_posts avoid' used_posts_tracker threshold posts))
      /\ Z.min 500 min_score <= threshold
      /\ (avoid' = avoid_repeats
          \/ (avoid_repeats = true /\ avoid' = false
              /\ used_posts_tracker <> []))
      /\ c = content_of w p.
Proof.
  induction fuel as [|fuel IH]; intros avoid m request c H; [discriminate|].
  cbn [get_reddit_story_from] in H.
  destruct (fetch w request _) as [posts|] eqn:Ef; [|discriminate].
  destruct (scored_posts avoid used_posts_tracker m posts) as [|s scored]
    eqn:Es.
  - destruct (500 <? m) eqn:Em.
    + apply IH in H as (r' & ps & t & a' & p & H1 & H2 & H3 & H4 & H5).
      exists r', ps, t, a', p. repeat split; try assumption. lia.
    + destruct (avoid && _) eqn:Ea; [|discriminate].
      apply andb_true_iff in Ea as [-> Ht].
      apply IH in H as (r' & ps & t & a' & p & H1 & H2 & H3 & H4 & H5).
      apply Z.ltb_ge in Em.
      exists r', ps, t, a', p. repeat split; try assumption; [lia|].
      right. destruct H4 as [->|[? _]]; [|discriminate].
      repeat split. intros ->. discriminate.
  - destruct (top_posts (s :: scored)) as [|first top] eqn:Et;
      [discriminate|].
    injection H as <-.
    exists request, posts, m, avoid,
      (nth (draw_post w request mod List.length (first :: top))
         (first :: top) first).
    rewrite Es, Et. repeat split; try assumption; [|lia|now left].
    apply nth_In. apply Nat.mod_upper_bound. discriminate.
Qed.

(** X20.  The post behind a story.  Whatever the retries, a content that
    is returned was made from a post that one of the listings held for a
    subreddit of the topic, and that passes the filter with the threshold
    min(500, min_score) or a higher one: the thresholds that the retries
    try never go under 500.  The post was among the best fifth of the
    posts kept from its listing.  It is one that the tracker holds only
    if the avoidance of repeats was off, or was given up after a listing
    had no post left at the last threshold.  The card of the content
    shows the title of the post as it was. *)
Theorem story_comes_from_a_suitable_post
    (avoid_repeats : bool) (min_score : Z) (c : content) :
  get_reddit_story w used_posts_tracker topic avoid_repeats min_score
  = Some (Py.Done c) ->
  exists request subreddit posts threshold avoid' p,
    In subreddit (subreddits_for topic)
    /\ fetch w request subreddit = Some posts
    /\ In p posts
    /\ In p (top_posts
               (scored_posts avoid' used_posts_tracker threshold posts))
    /\ suitable (Z.min 500 min_score) p = true
    /\ Z.min 500 min_score < score p
    /\ used avoid' used_posts_tracker p = false
    /\ (avoid' = avoid_repeats
        \/ (avoid_repeats = true /\ avoid' = false
            /\ used_posts_tracker <> []))
    /\ c = content_of w p
    /\ Card.title_of (c_reddit_info c) = Py.Done (title p).
Proof.
  intros H. unfold get_reddit_story in H.
  apply story_origin in H as (r' & ps & t & a' & p & H1 & H2 & H3 & H4 & H5).
  pose proof (top_posts_scored _ _ H2) as Hin.
  apply filter_In in Hin as [Hin Hok].
  apply andb_true_iff in Hok as [Hu Hs]. apply negb_true_iff in Hu.
  pose proof (suitable_lower _ _ p H3 Hs) as Hs'.
  exists r', (Tracking.choice (draw_subreddit w r') (subreddits_for topic)),
    ps, t, a', p.
  split; [apply choice_In, subreddits_for_nonempty|].
  repeat split; try assumption.
  - unfold suitable in Hs'. rewrite !andb_true_iff in Hs'.
    destruct Hs' as [[[[[[[[_ _] Hsc] _] _] _] _] _] _].
    now apply Z.ltb_lt.
  - subst c. reflexivity.
Qed.

End ScraperProperties.

(** ** The answers of an ask post *)

Section CommentsProperties.

Import Comments.

Variable _clean_reddit_text : string -> string.

(** X23.  The answers that make the story of an ask post are the good
    comments with the best scores: five at most, the best first, each
    with more than 50 points, and no good comment that is left out has
    more points than one that is told.  There is a story exactly when
    the listing has a good comment. *)
Theorem story_tells_the_best_comments (comments_listing : list comment) :
  let good_ones :=
    map (kept _clean_reddit_text) (List.filter good comments_listing) in
  let told := top_comments _clean_reddit_text comments_listing in
  List.length told = Nat.min 5 (List.length good_ones)
  /\ StronglySorted (fun a b => tc_score b <= tc_score a) told
  /\ List.Forall (fun c => 50 < tc_score c) told
  /\ (exists others,
        Permutation (told ++ others) good_ones
        /\ forall a b, In a told -> In b others -> tc_score b <= tc_score a)
  /\ (story_of _clean_reddit_text comments_listing = None
      <-> List.filter good comments_listing = []).
Proof.
  intros good_ones told.
  set (key := fun c : top_comment => inject_Z (tc_score c)).
  set (sorted := Scraper.sort_desc key good_ones).
  assert (Hperm : Permutation sorted good_ones)
    by apply sort_desc_perm.
  assert (Hsorted : StronglySorted (fun a b => tc_score b <= tc_score a)
                      sorted).
  { pose proof (sort_desc_sorted key good_ones) as H. fold sorted in H.
    clear Hperm. induction H as [|a l Hl IH Ha]; constructor; [exact IH|].
    eapply List.Forall_impl; [|exact Ha]. cbn. intros b Hb.
    unfold key in Hb. now rewrite <- Zle_Qle in Hb. }
  assert (Etold : told = firstn 5 sorted) by reflexivity.
  assert (Hlen : List.length told = Nat.min 5 (List.length good_ones)).
  { rewrite Etold, length_firstn. now rewrite (Permutation_length Hperm). }
  split; [exact Hlen|]. split; [|split; [|split]].
  - rewrite Etold. rewrite <- (firstn_skipn 5 sorted) in Hsorted.
    clear -Hsorted. revert Hsorted.
    generalize (firstn 5 sorted) (skipn 5 sorted). intros a b.
    induction a as [|x a IH]; cbn; intros H; [constructor|].
    apply StronglySorted_inv in H as [Hs Hf]. constructor; [now apply IH|].
    apply List.Forall_app in Hf. tauto.
  - apply List.Forall_forall. intros c Hc. rewrite Etold in Hc.
    assert (Hin : In c good_ones).
    { apply (Permutation_in _ Hperm).
      rewrite <- (firstn_skipn 5 sorted). apply in_or_app. now left. }
    unfold good_ones in Hin. apply in_map_iff in Hin as (o & <- & Ho).
    apply filter_In in Ho as [_ Hg]. unfold good in Hg.
    rewrite !andb_true_iff in Hg.
    destruct Hg as [[[[[_ _] _] Hs] _] _]. now apply Z.ltb_lt.
  - exists (skipn 5 sorted). rewrite Etold. split.
    + now rewrite firstn_skipn.
    + intros a b Ha Hb. rewrite <- (firstn_skipn 5 sorted) in Hsorted.
      exact (sorted_app_inv _ _ _ Hsorted a b Ha Hb).
  - unfold story_of, Story.ask_story. fold told.
    assert (Hnil : told = [] <-> List.filter good comments_listing = []).
    { split; intros H.
      - rewrite H in Hlen. cbn in Hlen. unfold good_ones in Hlen.
        rewrite length_map in Hlen.
        destruct (List.filter good comments_listing); [reflexivity|].
        cbn in Hlen. lia.
      - unfold good_ones in Hlen. rewrite H in Hlen. cbn in Hlen.
        now destruct told. }
    rewrite <- Hnil. destruct told as [|t told']; [tauto|].
    cbn [map firstn]. split; [discriminate|discriminate].
Qed.

End CommentsProperties.

(** * The further properties at concrete inputs *)

Section MoreInstances.

(** The title "Sky: the limit?" at second 17. *)
Lemma output_file_is_in_the_output_folder_example :
  exists g st1 name,
    Render.gather MoreExamples.world_safe MoreExamples.content_sky
      "voice.mp3" "bg.mp4" None "white" Examples.st0 = (Py.Done g, st1)
    /\ Render.output_file g = "out/Sky_the_limit_17.mp4"%string
    /\ Render.output_file g = Os.path_join "out" name
    /\ Text.all (fun c => Text.is_word c || Ascii.eqb c ".") name = true.
Proof.
  assert (E : exists g st1,
             Render.gather MoreExamples.world_safe MoreExamples.content_sky
               "voice.mp3" "bg.mp4" None "white" Examples.st0
             = (Py.Done g, st1)
             /\ Render.output_file g = "out/Sky_the_limit_17.mp4"%string)
    by (eexists _, _; split; vm_compute; reflexivity).
  destruct E as (g & st1 & E & Ho).
  destruct (output_file_is_in_the_output_folder MoreExamples.world_safe
              MoreExamples.content_sky "voice.mp3" "bg.mp4" None "white"
              Examples.st0 g st1 eq_refl E) as (name & Hn & Ha).
  exists g, st1, name. repeat split; assumption.
Defined.

(** A title of two lines, then of three, with a sample text 150 pixels
    high: 225 + 2 * 40 = 305. *)
Lemma card_height_by_lines_example :
  Layout.card_height 2 150 = 305
  /\ 225 <= Layout.card_height 2 150
  /\ Layout.card_height 2 150 <= Layout.card_height 3 150.
Proof.
  destruct (card_height_by_lines 2 3 150) as (H1 & H2 & H3).
  - unfold Layout.title_line_h, Layout.scale, Qle. cbn. lia.
  - lia.
  - split; [rewrite H1; reflexivity|]. split; [exact H2|exact H3].
Defined.

(** Marking a second video. *)
Lemma mark_as_used_records_example :
  fst (Tracking._load_used_content
         (Tracking._mark_as_used "videos" "b.mp4" MoreExamples.tracked))
    !! "videos"%string
  = Some ["a.mp4"%string; "b.mp4"%string].
Proof.
  destruct (mark_as_used_records "videos" "b.mp4" MoreExamples.tracked
              ["a.mp4"%string] eq_refl eq_refl)
    as (items' & H1 & _ & H3 & _).
  rewrite H1, H3. reflexivity.
Defined.

Lemma mark_as_used_read_only_example :
  Tracking.file
    (Tracking._mark_as_used "videos" "b.mp4" MoreExamples.read_only)
  = Tracking.Stored MoreExamples.history
  /\ List.length
       (Tracking.log
          (Tracking._mark_as_used "videos" "b.mp4" MoreExamples.read_only))
     = 2%nat.
Proof.
  destruct (mark_as_used_read_only "videos" "b.mp4" "Permission denied"
              MoreExamples.read_only ["a.mp4"%string] eq_refl eq_refl
              eq_refl) as (H1 & H2).
  split; [exact H1|]. rewrite H2. reflexivity.
Defined.

(** With [a.mp4] used, the draw can only give [b.MOV]. *)
Lemma selected_background_is_fresh_example :
  exists st' name,
    Tracking._get_random_background_video "bg"
      (Some MoreExamples.folder) true 5 MoreExamples.tracked
    = (Tracking.Selected "bg/b.MOV", st')
    /\ "bg/b.MOV"%string = Os.path_join "bg" name
    /\ In name MoreExamples.folder
    /\ Tracking.has_extension Tracking.video_extensions name = true
    /\ Tracking.contains name ["a.mp4"%string] = false.
Proof.
  assert (E : exists st',
             Tracking._get_random_background_video "bg"
               (Some MoreExamples.folder) true 5 MoreExamples.tracked
             = (Tracking.Selected "bg/b.MOV", st'))
    by (eexists; vm_compute; reflexivity).
  destruct E as (st' & E).
  destruct (selected_background_is_fresh "videos"
              Tracking.video_extensions
              "❌ Background video folder not found: "
              "❌ No videos found in "
              "🔄 All videos used! Resetting video history..."
              "bg" MoreExamples.folder ["a.mp4"%string] 5
              MoreExamples.tracked st' "bg/b.MOV" eq_refl E)
    as (name & Hp & Hin & Hext & Hfresh).
  exists st', name. repeat split; try assumption.
  apply Hfresh. exists "b.MOV"%string.
  repeat split; [right; left; reflexivity].
Defined.

End MoreInstances.

(** * The choice of a background at concrete inputs *)

Section SelectionInstances.

(** With both videos used, the history is emptied and the draw 3 gives
    the second of the two. *)
Lemma history_is_reset_when_all_are_used_example :
  let r := Tracking._get_random_background_video "bg"
             (Some MoreExamples.folder) true 3 MoreExamples.tracked_full in
  fst r = Tracking.Selected "bg/b.MOV"
  /\ fst (Tracking._load_used_content (snd r)) !! "videos"%string = Some []
  /\ fst (Tracking._load_used_content (snd r)) !! "music"%string = Some []
  /\ In "🔄 All videos used! Resetting video history..."%string
        (Tracking.log (snd r)).
Proof.
  destruct (history_is_reset_when_all_are_used "videos"
              Tracking.video_extensions
              "❌ Background video folder not found: "
              "❌ No videos found in "
              "🔄 All videos used! Resetting video history..."
              "bg" MoreExamples.folder ["a.mp4"%string; "b.MOV"%string] 3
              MoreExamples.tracked_full eq_refl eq_refl)
    as (H1 & H2 & H3 & H4).
  - vm_compute. discriminate.
  - intros v [<-|[<-|[<-|[]]]] H; vm_compute in H |- *; congruence.
  - cbv zeta. split; [exact H1|]. split; [exact H2|].
    split; [|exact H4].
    unfold Tracking._get_random_background_video.
    rewrite (H3 "music"%string) by discriminate. reflexivity.
Defined.

(** Two runs on a folder of three videos of which one was used: the two
    others come, each once. *)
Lemma runs_do_not_repeat_a_video_example :
  fst (Tracking.runs "bg" (Some MoreExamples.folder3) "music"
         (Some MoreExamples.tunes) MoreExamples.two_rounds
         MoreExamples.tracked)
  = [Tracking.Uploaded "b.MOV"; Tracking.Uploaded "c.avi"]
  /\ exists chosen,
       chosen = ["b.MOV"%string; "c.avi"%string]
       /\ List.NoDup chosen
       /\ List.Forall (fun v => In v ["b.MOV"%string; "c.avi"%string])
            chosen.
Proof.
  assert (Ec : fst (Tracking.runs "bg" (Some MoreExamples.folder3) "music"
                      (Some MoreExamples.tunes) MoreExamples.two_rounds
                      MoreExamples.tracked)
               = [Tracking.Uploaded "b.MOV"; Tracking.Uploaded "c.avi"])
    by (vm_compute; reflexivity).
  split; [exact Ec|].
  destruct (runs_do_not_repeat_a_video "bg" "music" MoreExamples.folder3
              ["a.mp4"%string] [] [] (Some MoreExamples.tunes)
              MoreExamples.two_rounds MoreExamples.tracked
              eq_refl eq_refl eq_refl eq_refl)
    as (chosen & E & Hl & Hn & Hf).
  - repeat constructor; cbn; intuition discriminate.
  - intros v [<-|[<-|[<-|[<-|[]]]]]; reflexivity.
  - vm_compute. lia.
  - exists chosen. rewrite Ec in E.
    destruct chosen as [|a [|b [|c chosen]]]; try discriminate.
    cbn [map] in E. injection E as <- <-.
    split; [reflexivity|]. split; [exact Hn|exact Hf].
Defined.

End SelectionInstances.

(** * The scraper at concrete inputs *)

Section ScraperInstances.

(** Nothing over 1000 points in the first listing: the second request
    asks for 500, and the better of its two posts makes the story. *)
Lemma story_comes_from_a_suitable_post_example :
  exists c p,
    Scraper.get_reddit_story MoreExamples.reddit [] "" false 1000
    = Some (Py.Done c)
    /\ Scraper.c_source c = "r/tifu"%string
    /\ c = Scraper.content_of MoreExamples.reddit p
    /\ 500 < Scraper.score p
    /\ Card.title_of (Scraper.c_reddit_info c)
       = Py.Done (Scraper.title p).
Proof.
  assert (E : exists c,
             Scraper.get_reddit_story MoreExamples.reddit [] "" false 1000
             = Some (Py.Done c)
             /\ Scraper.c_source c = "r/tifu"%string)
    by (eexists; split; vm_compute; reflexivity).
  destruct E as (c & E & Hs).
  destruct (story_comes_from_a_suitable_post MoreExamples.reddit [] ""
              false 1000 c E)
    as (request & subreddit & posts & threshold & avoid' & p & _ & _ & _
        & _ & _ & Hscore & _ & _ & Hc & Ht).
  exists c, p. repeat split; assumption.
Defined.

End ScraperInstances.
